(** * The molecule editor: hydrogen bookkeeping and the naming cache

    A shallow embedding of the hydrogen manager of the molecule editor
    (bond accounting, connected-hydrogen lookup, hydrogen placement and the
    three reconcilers run after a bond is formed, removed or retyped),
    and of the naming cache that the editor keeps in front of the naming
    service (lookups, stores, eviction, and the fragments of a request),
    followed by the properties the specification states about the manager
    and by further properties of both.

    Numbers that the source only ever uses as counts (bond orders, valences,
    numbers of hydrogens) are integers [Z]; coordinates and angles are IEEE
    binary64 values, Rocq's primitive [float], as JavaScript numbers are.
    Identifiers are strings.  The source's [uuidv4()] is an id supply: the
    [n]-th call of a run returns [uuidv4 n], and every function that draws ids
    threads the number of calls made so far. *)

From Stdlib Require Import ZArith List Ascii String Bool Lia Permutation Uint63 Floats.
Import ListNotations.

Local Open Scope string_scope.
Local Open Scope list_scope.
Local Open Scope Z_scope.

(** ** Data model (types/chemistry and the atom and bond records the
       manager builds) *)

Inductive BondType : Set := single | double | triple | wedge | dash.

Record Point : Set := mkPoint { x : float; y : float }.

Record Atom : Set := mkAtom {
  id : string;
  element : string;
  position : Point
}.

(** A bond's own identifier is [bondId] (the source calls it [id] as well). *)
Record Bond : Set := mkBond {
  bondId : string;
  sourceAtomId : string;
  targetAtomId : string;
  type : BondType
}.

Record Molecule : Set := mkMolecule {
  atoms : list Atom;
  bonds : list Bond
}.

(** ** The valence definitions the manager imports *)

(** Modelled from the spec: [BOND_ORDER] of valenceDefinitions is not among
    the sources; the glossary gives single = 1, double = 2, triple = 3 and
    wedge and dash = 1. *)
Definition BOND_ORDER (t : BondType) : Z :=
  match t with
  | single => 1
  | double => 2
  | triple => 3
  | wedge => 1
  | dash => 1
  end.

(** Modelled from the spec: the valence table of valenceDefinitions is not
    among the sources; these are the entries the specification spells out
    (carbon {4}, nitrogen {3}, sulfur {2,4,6}), each in increasing order. *)
Definition specValences (e : string) : option (list Z) :=
  if (e =? "C")%string then Some [4]
  else if (e =? "N")%string then Some [3]
  else if (e =? "S")%string then Some [2; 4; 6]
  else None.

(** Modelled from the spec: [getBestValenceForBondCount] of valenceDefinitions
    is not among the sources; it is the smallest canonical valence that is at
    least the current bond-order sum, the largest canonical valence when there
    is none, and nothing for an element without a table entry. *)
Definition specBestValence (e : string) (current : Z) : option Z :=
  match specValences e with
  | None => None
  | Some vs =>
      match find (fun v => current <=? v) vs with
      | Some v => Some v
      | None => match rev vs with v :: _ => Some v | [] => None end
      end
  end.

(** ** JavaScript numbers *)

Module Math.

Definition PI : float := 0x1.921fb54442d18p+1%float.

Definition abs : float -> float := PrimFloat.abs.

Definition sqrt : float -> float := PrimFloat.sqrt.

(** [Math.min]: NaN when an argument is NaN, and -0 below +0. *)
Definition min (a b : float) : float :=
  if is_nan a || is_nan b then nan
  else if (a <? b)%float then a
  else if (b <? a)%float then b
  else if is_zero a && get_sign a then a
  else b.

End Math.

(** A count as a JavaScript number; exact for [0 <= n < 2^53]. *)
Definition toNumber (n : Z) : float := PrimFloat.of_uint63 (Uint63.of_Z n).

(** [Array.prototype.includes] on identifiers. *)
Definition includes (l : list string) (s : string) : bool :=
  existsb (String.eqb s) l.

(** A [Set<string>] as the list of its members in insertion order. *)
Definition Set_has (s : list string) (v : string) : bool := includes s v.

Definition Set_add (v : string) (s : list string) : list string :=
  if Set_has s v then s else s ++ [v].

(** [atoms.find(a => a.id === i)] *)
Definition findAtom (i : string) (l : list Atom) : option Atom :=
  find (fun a => (id a =? i)%string) l.

(** ** Bond accounting *)

Definition getAtomBondCount (atomId : string) (bonds : list Bond) : Z :=
  fold_left
    (fun count bond =>
       if (sourceAtomId bond =? atomId)%string || (targetAtomId bond =? atomId)%string
       then count + BOND_ORDER (type bond)
       else count)
    bonds 0.

(** The contribution of one bond to the bond-order sum of [atomId]. *)
Definition bondWeight (atomId : string) (bond : Bond) : Z :=
  if (sourceAtomId bond =? atomId)%string || (targetAtomId bond =? atomId)%string
  then BOND_ORDER (type bond) else 0.

(** ** Connected hydrogens *)

(** The [connectedAtomId] a bond yields for [atomId]; [None] is the source's
    [null]. *)
Definition connectedAtomId (atomId : string) (bond : Bond) : option string :=
  if (sourceAtomId bond =? atomId)%string then Some (targetAtomId bond)
  else if (targetAtomId bond =? atomId)%string then Some (sourceAtomId bond)
  else None.

(** The [hydrogenIds] set after the [forEach] over the bonds.  The guard
    [if (connectedAtomId)] is false for [null] and for the empty string. *)
Definition hydrogenIdsOf (atomId : string) (molecule : Molecule) : list string :=
  fold_left
    (fun hydrogenIds bond =>
       match connectedAtomId atomId bond with
       | None => hydrogenIds
       | Some c =>
           if (c =? "")%string then hydrogenIds
           else
             match findAtom c (atoms molecule) with
             | Some connectedAtom =>
                 if (element connectedAtom =? "H")%string
                 then Set_add c hydrogenIds
                 else hydrogenIds
             | None => hydrogenIds
             end
       end)
    (bonds molecule) [].

Definition getConnectedHydrogens (atomId : string) (molecule : Molecule) : list Atom :=
  let hydrogenIds := hydrogenIdsOf atomId molecule in
  filter (fun atom => Set_has hydrogenIds (id atom)) (atoms molecule).

(** Removal of the atoms whose id is listed, and of the bonds with a listed
    endpoint: the pair of [filter]s that [updateHydrogensAfterBonding] and
    [updateHydrogensAfterBondTypeChange] both build. *)
Definition removeByIds (ids : list string) (molecule : Molecule) : Molecule :=
  {| atoms := filter (fun atom => negb (includes ids (id atom))) (atoms molecule);
     bonds := filter (fun bond => negb (includes ids (sourceAtomId bond))
                                  && negb (includes ids (targetAtomId bond)))
                     (bonds molecule) |}.

(** ** Angles for the collision-aware placement *)

(** An entry of [existingPositions]. *)
Record PolarPosition : Set := mkPolar { angle : float; distance : float }.

(** [normalizedDiff] of the two inner loops: the difference of the angles,
    folded at half a turn. *)
Definition normalizedDiff (testAngle other : float) : float :=
  let angleDiff := Math.abs (testAngle - other)%float in
  Math.min angleDiff (Math.PI * 2 - angleDiff)%float.

(** [minDistance] of one candidate angle after both inner loops. *)
Definition minDistanceAt (testAngle : float) (existingPositions : list PolarPosition)
           (existingAtomAngles : list float) : float :=
  let minDistance := (Math.PI * 2)%float in
  let minDistance :=
    fold_left (fun minDistance pos =>
                 Math.min minDistance (normalizedDiff testAngle (angle pos)))
              existingPositions minDistance in
  fold_left (fun minDistance existingAngle =>
               Math.min minDistance (normalizedDiff testAngle existingAngle))
            existingAtomAngles minDistance.

(** The scan [for (testAngle = 0; testAngle < 2 * PI; testAngle += PI / 6)]
    with its running [bestAngle] and [maxDistance].  The loop is driven by a
    floating-point counter, so the model carries fuel: [None] means that the
    fuel ran out before the loop condition failed. *)
Fixpoint scanLoop (fuel : nat) (testAngle bestAngle maxDistance : float)
         (existingPositions : list PolarPosition) (existingAtomAngles : list float)
  : option (float * float) :=
  match fuel with
  | O => None
  | S fuel' =>
      if (testAngle <? Math.PI * 2)%float then
        let minDistance := minDistanceAt testAngle existingPositions existingAtomAngles in
        if (maxDistance <? minDistance)%float
        then scanLoop fuel' (testAngle + Math.PI / 6)%float testAngle minDistance
                      existingPositions existingAtomAngles
        else scanLoop fuel' (testAngle + Math.PI / 6)%float bestAngle maxDistance
                      existingPositions existingAtomAngles
      else Some (bestAngle, maxDistance)
  end.

(** [bestAngle] and [maxDistance] start at 0 for every hydrogen. *)
Definition scanAngles (fuel : nat) (existingPositions : list PolarPosition)
           (existingAtomAngles : list float) : option (float * float) :=
  scanLoop fuel 0%float 0%float 0%float existingPositions existingAtomAngles.

(** The test angles one scan visits, in order; [None] when the fuel runs out
    before the scan ends. *)
Fixpoint candidateAngles (fuel : nat) (testAngle : float) : option (list float) :=
  match fuel with
  | O => None
  | S fuel' =>
      if (testAngle <? Math.PI * 2)%float
      then option_map (cons testAngle)
                      (candidateAngles fuel' (testAngle + Math.PI / 6)%float)
      else Some []
  end.

(** What one iteration of the scan does to [(bestAngle, maxDistance)]. *)
Definition scanStep (existingPositions : list PolarPosition)
           (existingAtomAngles : list float) (st : float * float) (testAngle : float)
  : float * float :=
  let minDistance := minDistanceAt testAngle existingPositions existingAtomAngles in
  if (snd st <? minDistance)%float then (testAngle, minDistance) else st.

(** The scan ends with [maxDistance > 0]: some candidate angle lies at a
    strictly positive angular distance from every recorded angle. *)
Definition clearAt (fuel : nat) (existingPositions : list PolarPosition)
           (existingAtomAngles : list float) : bool :=
  match scanAngles fuel existingPositions existingAtomAngles with
  | Some (_, maxDistance) => (0 <? maxDistance)%float
  | None => false
  end.

(** The test angle of the scan after [i] increments of [Math.PI / 6]. *)
Definition candidate (i : nat) : float :=
  Nat.iter i (fun testAngle => (testAngle + Math.PI / 6)%float) 0%float.

(** The order in which the scans pick the twelve candidates around a parent
    without neighbours. *)
Definition aloneOrder : list nat := [0; 6; 9; 3; 8; 10; 2; 1; 4; 5; 7; 11]%nat.

(** The twelve test angles of a scan. *)
Definition scanCandidates : list float := map candidate (seq 0 12).

(** The candidate [c] is the angle [a], or lies at a positive folded
    distance from it: what [minDistance > 0] asks of the pair. *)
Definition apartFrom (a c : float) : bool :=
  (c =? a)%float || (0 <? normalizedDiff c a)%float.

(** The angle [a] leaves each of the first [n] candidates free, or sits on
    it.  A NaN or an infinite angle does not. *)
Definition regularAngle (n : nat) (a : float) : bool :=
  forallb (apartFrom a) (firstn n scanCandidates).

(** No two entries are equal as numbers ([===]). *)
Fixpoint pairwiseApart (l : list float) : bool :=
  match l with
  | [] => true
  | c :: rest => forallb (fun c' => negb (c =? c')%float) rest && pairwiseApart rest
  end.

(** A binary64 value that is greater than zero, read off its decoding. *)
Definition positiveSF (f : spec_float) : bool :=
  match f with
  | S754_infinity false => true
  | S754_finite false _ _ => true
  | _ => false
  end.

(** The atoms that are left of [...map(find).filter(a => a && a.element !== 'H')]. *)
Fixpoint definedNonHydrogens (l : list (option Atom)) : list Atom :=
  match l with
  | [] => []
  | Some a :: l' =>
      if (element a =? "H")%string then definedNonHydrogens l'
      else a :: definedNonHydrogens l'
  | None :: l' => definedNonHydrogens l'
  end.

(** Every hydrogen bonded to [atomId] removed, with the bonds that touch one:
    the first half of an iteration of [updateHydrogensAfterBondTypeChange]. *)
Definition stripHydrogens (atomId : string) (molecule : Molecule) : Molecule :=
  let existingHydrogens := getConnectedHydrogens atomId molecule in
  let hydrogenIds := map id existingHydrogens in
  removeByIds hydrogenIds molecule.

(** ** Vocabulary of the statements *)

(** [l1] is [l2] with some entries left out, the others in their order. *)
Inductive Subsequence {A : Type} : list A -> list A -> Prop :=
| Subsequence_nil : Subsequence [] []
| Subsequence_skip (a : A) (l1 l2 : list A) :
    Subsequence l1 l2 -> Subsequence l1 (a :: l2)
| Subsequence_keep (a : A) (l1 l2 : list A) :
    Subsequence l1 l2 -> Subsequence (a :: l1) (a :: l2).

(** The atom that [find] yields for id [i] is a hydrogen. *)
Definition isHydrogenId (molecule : Molecule) (i : string) : bool :=
  match findAtom i (atoms molecule) with
  | Some a => (element a =? "H")%string
  | None => false
  end.

(** The atom that [find] yields for id [i] exists and is not a hydrogen. *)
Definition isHeavyId (molecule : Molecule) (i : string) : bool :=
  match findAtom i (atoms molecule) with
  | Some a => negb (element a =? "H")%string
  | None => false
  end.

(** [bond] joins [atomId] to [i], as [getConnectedHydrogens] reads it. *)
Definition linksTo (atomId i : string) (bond : Bond) : bool :=
  match connectedAtomId atomId bond with
  | Some c => (c =? i)%string
  | None => false
  end.

(** [i] is the id of a hydrogen bonded to [atomId]: membership in the
    [hydrogenIds] set, as a predicate. *)
Definition connectedH (atomId : string) (molecule : Molecule) (i : string) : bool :=
  negb (i =? "")%string && isHydrogenId molecule i
  && existsb (linksTo atomId i) (bonds molecule).

(** [bond] has [i] as its source or as its target. *)
Definition touches (i : string) (bond : Bond) : bool :=
  (sourceAtomId bond =? i)%string || (targetAtomId bond =? i)%string.

(** [a] is the first atom of the list that carries the id [i]: the atom
    that a lookup by id means when several atoms share the id. *)
Definition firstWithId (i : string) (l : list Atom) (a : Atom) : Prop :=
  exists before after,
    l = before ++ a :: after /\ id a = i /\ forall b, In b before -> id b <> i.

(** The bond-order sum as the specification words it: the bond-order values
    of the bonds that touch [atomId] at either endpoint, added up (each bond
    once). *)
Definition bondOrderSum (atomId : string) (bonds : list Bond) : Z :=
  fold_right Z.add 0
             (map (fun bond => BOND_ORDER (type bond))
                  (filter (fun bond => (sourceAtomId bond =? atomId)%string
                                       || (targetAtomId bond =? atomId)%string)
                          bonds)).

(** ** The naming cache (utils/namingCache) *)

(** A name as the naming service returns it: one string, or one string per
    fragment. *)
Inductive Name : Set :=
| OneName (s : string)
| Names (l : list string).

Record CacheEntry : Set := mkCacheEntry {
  name : Name;
  timestamp : Z;
  requestTime : Z
}.

(** A [Map<string, CacheEntry>] as the list of its entries in insertion
    order, which is the order of [Map.prototype.entries]. *)
Definition Cache : Set := list (string * CacheEntry).

Definition Map_get (key : string) (m : Cache) : option CacheEntry :=
  option_map snd (find (fun e => (fst e =? key)%string) m).

(** [Map.prototype.set]: a key that is present keeps its place, a new key
    goes last. *)
Fixpoint Map_set (key : string) (value : CacheEntry) (m : Cache) : Cache :=
  match m with
  | [] => [(key, value)]
  | (key', value') :: rest =>
      if (key' =? key)%string then (key, value) :: rest
      else (key', value') :: Map_set key value rest
  end.

Definition Map_delete (key : string) (m : Cache) : Cache :=
  filter (fun e => negb (fst e =? key)%string) m.

Definition CACHE_DURATION : Z := 24 * 60 * 60 * 1000.

Definition MAX_CACHE_SIZE : Z := 1000.

(** [getCached]: the name, or [None] for [null], and the cache as the call
    leaves it; [now] is what [Date.now()] returns. *)
Definition getCached (smiles : string) (now : Z) (cache : Cache)
  : option Name * Cache :=
  match Map_get smiles cache with
  | None => (None, cache)
  | Some entry =>
      if CACHE_DURATION <? now - timestamp entry
      then (None, Map_delete smiles cache)
      else (Some (name entry), cache)
  end.

(** [Array.prototype.sort] is stable: with the comparator
    [a.timestamp - b.timestamp] it yields the entries by increasing timestamp,
    entries of equal timestamp in their former order.  The model inserts the
    entries, last first, each before the first entry that is not older. *)
Fixpoint insertByTimestamp (e : string * CacheEntry) (sorted : list (string * CacheEntry))
  : list (string * CacheEntry) :=
  match sorted with
  | [] => [e]
  | e' :: rest =>
      if timestamp (snd e) <=? timestamp (snd e') then e :: sorted
      else e' :: insertByTimestamp e rest
  end.

Definition sortByTimestamp (entries : list (string * CacheEntry))
  : list (string * CacheEntry) :=
  fold_right insertByTimestamp [] entries.

(** [setCached]: when the cache is full the key [sorted[0][0]] is deleted
    first (the cache is not empty then, so [sorted[0]] exists). *)
Definition setCached (smiles : string) (name : Name) (requestTime now : Z)
           (cache : Cache) : Cache :=
  let cache :=
    if MAX_CACHE_SIZE <=? Z.of_nat (List.length cache) then
      match sortByTimestamp cache with
      | (oldestKey, _) :: _ => Map_delete oldestKey cache
      | [] => cache
      end
    else cache in
  Map_set smiles {| name := name; timestamp := now; requestTime := requestTime |} cache.

(** *** The request that fills the cache *)

(** The white space and line terminators that [String.prototype.trim]
    strips, among the code units below 256, which are the ones a [string]
    holds, one [ascii] each (SMILES are ASCII): tab, line feed, vertical tab,
    form feed, carriage return, space and no-break space. *)
Definition isWhiteSpace (c : ascii) : bool :=
  let n := nat_of_ascii c in
  ((9 <=? n) && (n <=? 13) || (n =? 32) || (n =? 160))%nat.

Fixpoint trimStart (s : string) : string :=
  match s with
  | EmptyString => EmptyString
  | String c rest => if isWhiteSpace c then trimStart rest else s
  end.

Fixpoint trimEnd (s : string) : string :=
  match s with
  | EmptyString => EmptyString
  | String c rest =>
      match trimEnd rest with
      | EmptyString => if isWhiteSpace c then EmptyString else String c EmptyString
      | kept => String c kept
      end
  end.

Definition trim (s : string) : string := trimEnd (trimStart s).

(** [String.prototype.split] with a separator of one code unit: the pieces
    between the separators, the empty ones included. *)
Fixpoint split (separator : ascii) (s : string) : list string :=
  match s with
  | EmptyString => [EmptyString]
  | String c rest =>
      if Ascii.eqb c separator then EmptyString :: split separator rest
      else
        match split separator rest with
        | piece :: pieces => String c piece :: pieces
        | [] => [String c EmptyString]
        end
  end.

(** [fragments] of [makeRequest]:
    [smiles.split('.').map(f => f.trim()).filter(Boolean)]. *)
Definition makeRequest_fragments (smiles : string) : list string :=
  filter (fun f => negb (f =? "")%string) (map trim (split "."%char smiles)).

(** The [smiles] field of the request body: a string or an array of
    strings. *)
Inductive SmilesField : Set :=
| OneSmiles (s : string)
| SeveralSmiles (l : list string).

Definition makeRequest_body (smiles : string) : SmilesField :=
  let fragments := makeRequest_fragments smiles in
  match fragments with
  | [fragment] => OneSmiles fragment
  | _ => SeveralSmiles fragments
  end.

(** The string does not begin with white space. *)
Definition startsClean (s : string) : Prop :=
  match s with
  | EmptyString => True
  | String c _ => isWhiteSpace c = false
  end.

(** A call of the cache from outside. *)
Inductive CacheCall : Set :=
| CallGet (smiles : string) (now : Z)
| CallSet (smiles : string) (name : Name) (requestTime now : Z).

Definition call (cache : Cache) (c : CacheCall) : Cache :=
  match c with
  | CallGet smiles now => snd (getCached smiles now cache)
  | CallSet smiles name requestTime now => setCached smiles name requestTime now cache
  end.

(** ** Sample data for the concrete instances of the statements *)

(** An id supply without collisions: the [n]-th id is "u" followed by [n]
    marks. *)
Fixpoint marks (n : nat) : string :=
  match n with
  | O => EmptyString
  | S k => String "x"%char (marks k)
  end.

Definition counterUuid (n : nat) : string := String "u"%char (marks n).

Definition origin : Point := {| x := 0%float; y := 0%float |}.

Definition carbonC : Atom := {| id := "c"; element := "C"; position := origin |}.

Definition oxygen1 : Atom := {| id := "o1"; element := "O"; position := origin |}.

Definition oxygen2 : Atom := {| id := "o2"; element := "O"; position := origin |}.

Definition hydrogenH : Atom := {| id := "h"; element := "H"; position := origin |}.

Definition tripleCO : Bond :=
  {| bondId := "b1"; sourceAtomId := "c"; targetAtomId := "o1"; type := triple |}.

Definition doubleCO : Bond :=
  {| bondId := "b2"; sourceAtomId := "c"; targetAtomId := "o2"; type := double |}.

Definition singleCH : Bond :=
  {| bondId := "b3"; sourceAtomId := "c"; targetAtomId := "h"; type := single |}.

(** A lone carbon. *)
Definition loneCarbon : Molecule := {| atoms := [carbonC]; bonds := [] |}.

(** A carbon with bond-order sum 5: above its valence. *)
Definition crowdedCarbon : Molecule :=
  {| atoms := [carbonC; oxygen1; oxygen2]; bonds := [tripleCO; doubleCO] |}.

(** The same with a hydrogen on the carbon: bond-order sum 6. *)
Definition crowdedCarbonH : Molecule :=
  {| atoms := [carbonC; hydrogenH; oxygen1; oxygen2];
     bonds := [singleCH; tripleCO; doubleCO] |}.

Definition carbon1 : Atom := {| id := "c1"; element := "C"; position := origin |}.

Definition carbon2 : Atom := {| id := "c2"; element := "C"; position := origin |}.

(** Two carbons joined by a single bond, no hydrogens yet. *)
Definition twoCarbons : Molecule :=
  {| atoms := [carbon1; carbon2];
     bonds := [{| bondId := "b"; sourceAtomId := "c1"; targetAtomId := "c2";
                  type := single |}] |}.

(** A carbon with one neighbour whose x coordinate is NaN. *)
Definition strayOxygen : Atom :=
  {| id := "o"; element := "O"; position := {| x := nan; y := 0%float |} |}.

Definition carbonStray : Molecule :=
  {| atoms := [carbonC; strayOxygen];
     bonds := [{| bondId := "b"; sourceAtomId := "c"; targetAtomId := "o";
                  type := single |}] |}.

(** A second hydrogen atom that carries the id "h" too. *)
Definition hydrogenTwin : Atom :=
  {| id := "h"; element := "H"; position := {| x := 1%float; y := 0%float |} |}.

Definition wedgeCO : Bond :=
  {| bondId := "b4"; sourceAtomId := "c"; targetAtomId := "o2"; type := wedge |}.

(** A carbon with bond-order sum 5 and two atoms under the one id "h". *)
Definition twinHydrogens : Molecule :=
  {| atoms := [carbonC; hydrogenH; hydrogenTwin; oxygen1; oxygen2];
     bonds := [singleCH; tripleCO; wedgeCO] |}.

Definition hydrogenX : Atom := {| id := "x"; element := "H"; position := origin |}.

Definition oxygenX : Atom := {| id := "x"; element := "O"; position := origin |}.

(** A carbon bonded to the id "x", which a hydrogen and, after it, an oxygen
    carry. *)
Definition shadowedOxygen : Molecule :=
  {| atoms := [carbonC; hydrogenX; oxygenX];
     bonds := [{| bondId := "b"; sourceAtomId := "c"; targetAtomId := "x";
                  type := single |}] |}.

(** A carbon with three hydrogens and single bonds to two other carbons:
    bond-order sum 5 after the second bond was formed. *)
Definition methylAfterBond : Molecule :=
  {| atoms := [ {| id := "c0"; element := "C"; position := origin |};
                {| id := "h1"; element := "H"; position := origin |};
                {| id := "h2"; element := "H"; position := origin |};
                {| id := "h3"; element := "H"; position := origin |};
                carbon1; carbon2 ];
     bonds := [ {| bondId := "b1"; sourceAtomId := "c0"; targetAtomId := "h1";
                   type := single |};
                {| bondId := "b2"; sourceAtomId := "c0"; targetAtomId := "h2";
                   type := single |};
                {| bondId := "b3"; sourceAtomId := "c0"; targetAtomId := "h3";
                   type := single |};
                {| bondId := "b4"; sourceAtomId := "c0"; targetAtomId := "c1";
                   type := single |};
                {| bondId := "b5"; sourceAtomId := "c2"; targetAtomId := "c0";
                   type := single |} ] |}.

(** The bond with id [bid] given the type [t]. *)
Definition retype (bid : string) (t : BondType) (molecule : Molecule) : Molecule :=
  {| atoms := atoms molecule;
     bonds := map (fun b => if (bondId b =? bid)%string
                            then {| bondId := bondId b; sourceAtomId := sourceAtomId b;
                                    targetAtomId := targetAtomId b; type := t |}
                            else b)
                  (bonds molecule) |}.

(** A cache with one entry, stored at time 1000. *)
Definition ethanolCache : Cache :=
  [("CCO", {| name := OneName "ethanol"; timestamp := 1000; requestTime := 120 |})].

(** A cache with 1000 entries, the [n]-th stored at time [n]. *)
Definition fullCache : Cache :=
  map (fun n => (counterUuid n,
                 {| name := OneName "x"; timestamp := Z.of_nat n; requestTime := 0 |}))
      (seq 0 1000).

Section HydrogenManager.

(** What the manager takes from its collaborators: the valence lookups of
    valenceDefinitions, the id supply, and the implementation-approximated
    functions of [Math]. *)
Variable getBestValenceForBondCount : string -> Z -> option Z.
Variable canAcceptMoreBonds : string -> Z -> Z -> bool.
Variable uuidv4 : nat -> string.
Variable Math_cos Math_sin : float -> float.
Variable Math_atan2 Math_pow : float -> float -> float.

(** ** Required hydrogens *)

(** [!targetValence] holds for [undefined] and for 0. *)
Definition getRequiredHydrogens (atom : Atom) (bonds : list Bond) : Z :=
  let currentBonds := getAtomBondCount (id atom) bonds in
  match getBestValenceForBondCount (element atom) currentBonds with
  | None => 0
  | Some targetValence =>
      if targetValence =? 0 then 0
      else Z.max 0 (targetValence - currentBonds)
  end.

(** ** Simple placement *)

Definition hydrogenDistance : float := 30%float.

(** The point at [angle] and [hydrogenDistance] from [atom]. *)
Definition hydrogenPosition (atom : Atom) (angle : float) : Point :=
  {| x := (x (position atom) + Math_cos angle * hydrogenDistance)%float;
     y := (y (position atom) + Math_sin angle * hydrogenDistance)%float |}.

Definition angleStepFor (numberOfHydrogens : Z) : float :=
  ((2 * Math.PI) / toNumber (Z.max numberOfHydrogens 3))%float.

(** The [for] loop of [addSpecificHydrogens]: [k] iterations remain, [i] is
    the loop counter, [g] the number of ids drawn so far. *)
Fixpoint addLoop (k : nat) (i : Z) (atom : Atom) (angleStep : float)
         (newAtoms : list Atom) (newBonds : list Bond) (g : nat)
  : list Atom * list Bond * nat :=
  match k with
  | O => (newAtoms, newBonds, g)
  | S k' =>
      let angle := (toNumber i * angleStep)%float in
      let hydrogenAtom :=
        {| id := uuidv4 g; element := "H"; position := hydrogenPosition atom angle |} in
      let hydrogenBond :=
        {| bondId := uuidv4 (S g); sourceAtomId := id atom;
           targetAtomId := id hydrogenAtom; type := single |} in
      addLoop k' (i + 1) atom angleStep
              (newAtoms ++ [hydrogenAtom]) (newBonds ++ [hydrogenBond]) (S (S g))
  end.

(** The [j]-th hydrogen that [addLoop] makes when it starts with counter
    [i] and id count [g], and its bond. *)
Definition loopAtom (atom : Atom) (angleStep : float) (i : Z) (g : nat) (j : nat) : Atom :=
  {| id := uuidv4 (g + 2 * j)%nat; element := "H";
     position := hydrogenPosition atom (toNumber (i + Z.of_nat j) * angleStep)%float |}.

Definition loopBond (atom : Atom) (g : nat) (j : nat) : Bond :=
  {| bondId := uuidv4 (S (g + 2 * j))%nat; sourceAtomId := id atom;
     targetAtomId := uuidv4 (g + 2 * j)%nat; type := single |}.

Definition addSpecificHydrogens (atom : Atom) (molecule : Molecule)
           (numberOfHydrogens : Z) (g : nat) : Molecule * nat :=
  if numberOfHydrogens <=? 0 then (molecule, g)
  else
    let angleStep := angleStepFor numberOfHydrogens in
    let '(newAtoms, newBonds, g') :=
      addLoop (Z.to_nat numberOfHydrogens) 0 atom angleStep [] [] g in
    ({| atoms := atoms molecule ++ newAtoms;
        bonds := bonds molecule ++ newBonds |}, g').

Definition addHydrogensToAtom (atom : Atom) (molecule : Molecule) (g : nat)
  : Molecule * nat :=
  let neededHydrogens := getRequiredHydrogens atom (bonds molecule) in
  addSpecificHydrogens atom molecule neededHydrogens g.

(** ** After a bond is formed *)

Definition updateHydrogensAfterBonding (atomId : string) (molecule : Molecule)
  : Molecule :=
  match findAtom atomId (atoms molecule) with
  | None => molecule
  | Some atom =>
      let connectedHydrogens := getConnectedHydrogens atomId molecule in
      let currentBonds := getAtomBondCount atomId (bonds molecule) in
      match getBestValenceForBondCount (element atom) currentBonds with
      | None => molecule
      | Some targetValence =>
          if targetValence =? 0 then molecule
          else
            let excessHydrogens := Z.max 0 (currentBonds - targetValence) in
            let hydrogensToRemove :=
              Z.min excessHydrogens (Z.of_nat (List.length connectedHydrogens)) in
            if hydrogensToRemove <=? 0 then molecule
            else
              let hydrogensToRemoveIds :=
                map id (firstn (Z.to_nat hydrogensToRemove) connectedHydrogens) in
              removeByIds hydrogensToRemoveIds molecule
      end
  end.

Definition updateMoleculeAfterBonding (sourceAtomId targetAtomId : string)
           (molecule : Molecule) : Molecule :=
  let updatedMolecule := molecule in
  let updatedMolecule := updateHydrogensAfterBonding sourceAtomId updatedMolecule in
  let updatedMolecule := updateHydrogensAfterBonding targetAtomId updatedMolecule in
  updatedMolecule.

(** ** Bond feasibility: [bondOrder] defaults to 1 when not passed *)

Definition canBondAtoms (sourceAtomId targetAtomId : string) (molecule : Molecule)
           (bondOrder : option Z) : bool :=
  let bondOrder := match bondOrder with Some b => b | None => 1 end in
  match findAtom sourceAtomId (atoms molecule),
        findAtom targetAtomId (atoms molecule) with
  | Some sourceAtom, Some targetAtom =>
      let sourceCurrentBonds := getAtomBondCount sourceAtomId (bonds molecule) in
      let targetCurrentBonds := getAtomBondCount targetAtomId (bonds molecule) in
      canAcceptMoreBonds (element sourceAtom) sourceCurrentBonds bondOrder
      && canAcceptMoreBonds (element targetAtom) targetCurrentBonds bondOrder
  | _, _ => false
  end.

(** ** After a bond is removed *)

(** The placement loop [for (i = 0; i < hydrogensToAdd; i++)]: [k]
    iterations remain.  It returns the new atoms and bonds, the final
    [existingPositions] and the id count. *)
Fixpoint placeLoop (fuel k : nat) (atom : Atom)
         (existingPositions : list PolarPosition) (existingAtomAngles : list float)
         (newAtoms : list Atom) (newBonds : list Bond) (g : nat)
  : option (list Atom * list Bond * list PolarPosition * nat) :=
  match k with
  | O => Some (newAtoms, newBonds, existingPositions, g)
  | S k' =>
      match scanAngles fuel existingPositions existingAtomAngles with
      | None => None
      | Some (bestAngle, _) =>
          let finalAngle := bestAngle in
          let hydrogenAtom :=
            {| id := uuidv4 g; element := "H";
               position := hydrogenPosition atom finalAngle |} in
          let hydrogenBond :=
            {| bondId := uuidv4 (S g); sourceAtomId := id atom;
               targetAtomId := id hydrogenAtom; type := single |} in
          placeLoop fuel k' atom
                    (existingPositions
                       ++ [{| angle := finalAngle; distance := hydrogenDistance |}])
                    existingAtomAngles
                    (newAtoms ++ [hydrogenAtom]) (newBonds ++ [hydrogenBond])
                    (S (S g))
      end
  end.

Definition angleFrom (atom a : Atom) : float :=
  Math_atan2 (y (position a) - y (position atom))%float
             (x (position a) - x (position atom))%float.

Definition updateHydrogensAfterBondRemoval (fuel : nat) (atomId : string)
           (molecule : Molecule) (g : nat) : option (Molecule * nat) :=
  match findAtom atomId (atoms molecule) with
  | None => Some (molecule, g)
  | Some atom =>
      if (element atom =? "H")%string then Some (molecule, g)
      else
        let neededHydrogens := getRequiredHydrogens atom (bonds molecule) in
        let currentHydrogens := getConnectedHydrogens atomId molecule in
        if Z.of_nat (List.length currentHydrogens) <? neededHydrogens then
          let hydrogensToAdd := neededHydrogens - Z.of_nat (List.length currentHydrogens) in
          let existingPositions :=
            map (fun h =>
                   {| angle := angleFrom atom h;
                      distance :=
                        Math.sqrt
                          (Math_pow (x (position h) - x (position atom)) 2
                           + Math_pow (y (position h) - y (position atom)) 2)%float |})
                currentHydrogens in
          let bondedAtoms :=
            definedNonHydrogens
              (map (fun bond =>
                      let otherAtomId :=
                        if (sourceAtomId bond =? atomId)%string
                        then targetAtomId bond else sourceAtomId bond in
                      findAtom otherAtomId (atoms molecule))
                   (filter (fun bond => (sourceAtomId bond =? atomId)%string
                                        || (targetAtomId bond =? atomId)%string)
                           (bonds molecule))) in
          let existingAtomAngles := map (angleFrom atom) bondedAtoms in
          match placeLoop fuel (Z.to_nat hydrogensToAdd) atom
                          existingPositions existingAtomAngles [] [] g with
          | None => None
          | Some (newAtoms, newBonds, _, g') =>
              Some ({| atoms := atoms molecule ++ newAtoms;
                       bonds := bonds molecule ++ newBonds |}, g')
          end
        else Some (molecule, g)
  end.

(** ** After a bond changes type *)

(** One iteration of [for (const atomId of [sourceAtomId, targetAtomId])]. *)
Definition reconcileAtom (st : Molecule * nat) (atomId : string) : Molecule * nat :=
  let '(updatedMolecule, g) := st in
  match findAtom atomId (atoms updatedMolecule) with
  | None => (updatedMolecule, g)
  | Some atom =>
      if (element atom =? "H")%string then (updatedMolecule, g)
      else
        let updatedMolecule := stripHydrogens atomId updatedMolecule in
        let neededHydrogens := getRequiredHydrogens atom (bonds updatedMolecule) in
        if 0 <? neededHydrogens
        then addHydrogensToAtom atom updatedMolecule g
        else (updatedMolecule, g)
  end.

Definition updateHydrogensAfterBondTypeChange (sourceAtomId targetAtomId : string)
           (molecule : Molecule) (g : nat) : Molecule * nat :=
  fold_left reconcileAtom [sourceAtomId; targetAtomId] (molecule, g).

(** ** Vocabulary for the bond-type-change reconciler *)

(** The hydrogens and bonds that [addSpecificHydrogens] appends for a
    count [n], drawn from id count [g]. *)
Definition hydrogensFor (atom : Atom) (n : Z) (g : nat) : list Atom :=
  map (loopAtom atom (angleStepFor n) 0 g) (seq 0 (Z.to_nat n)).

Definition bondsFor (atom : Atom) (n : Z) (g : nat) : list Bond :=
  map (loopBond atom g) (seq 0 (Z.to_nat n)).

(** The ids that the supply yields from its [g]-th call on occur nowhere in
    the molecule: not as the id of an atom, not as an endpoint of a bond. *)
Definition freshFrom (g : nat) (molecule : Molecule) : Prop :=
  forall n, (g <= n)%nat ->
            ~ In (uuidv4 n) (map id (atoms molecule))
            /\ forall b, In b (bonds molecule) -> touches (uuidv4 n) b = false.

(** The number of hydrogens directly bonded to [atomId]. *)
Definition hydrogenCount (atomId : string) (molecule : Molecule) : nat :=
  List.length (getConnectedHydrogens atomId molecule).

(** Both endpoints of [b] are non-hydrogen atoms of the molecule. *)
Definition heavyBond (molecule : Molecule) (b : Bond) : bool :=
  isHeavyId molecule (sourceAtomId b) && isHeavyId molecule (targetAtomId b).

(** Every bond that touches a hydrogen of [atomId] joins it to [atomId]. *)
Definition Exclusive (atomId : string) (molecule : Molecule) : Prop :=
  forall i b, connectedH atomId molecule i = true -> In b (bonds molecule) ->
              touches i b = true -> linksTo atomId i b = true.

(** Every atom that carries the id of a hydrogen of [atomId] is a hydrogen. *)
Definition HydrogensOnly (atomId : string) (molecule : Molecule) : Prop :=
  forall a, In a (atoms molecule) -> connectedH atomId molecule (id a) = true ->
            element a = "H".

(** [atomId] carries exactly the hydrogens that the reconciler would give
    it, and shares none of them. *)
Definition Reconciled (atomId : string) (molecule : Molecule) : Prop :=
  forall atom, findAtom atomId (atoms molecule) = Some atom ->
               (element atom =? "H")%string = false ->
               Exclusive atomId molecule
               /\ HydrogensOnly atomId molecule
               /\ Z.of_nat (hydrogenCount atomId molecule)
                  = getRequiredHydrogens atom (bonds (stripHydrogens atomId molecule)).

(** What one iteration of the reconciler does to a molecule, whichever
    branch it takes: the atoms whose id satisfies [gone] leave with the bonds
    that touch them, and the hydrogens [newAtoms], one per bond of
    [newBonds], are appended; [gone] holds of hydrogen ids only, and the new
    ids are drawn from the supply at [g] or later. *)
Definition IterationShape (g : nat) (before after : Molecule) : Prop :=
  exists (gone : string -> bool) (newAtoms : list Atom) (newBonds : list Bond),
    atoms after
    = filter (fun a => negb (gone (id a))) (atoms before) ++ newAtoms
    /\ bonds after
       = filter (fun b => negb (gone (sourceAtomId b)) && negb (gone (targetAtomId b)))
                (bonds before)
         ++ newBonds
    /\ (forall i, gone i = true -> isHydrogenId before i = true)
    /\ (forall h, In h newAtoms ->
                  element h = "H" /\ exists k, (g <= k)%nat /\ id h = uuidv4 k)
    /\ (forall b, In b newBonds ->
                  exists h, In h newAtoms /\ targetAtomId b = id h).

(** Every bond of the molecule joins two ids that atoms of the molecule
    carry. *)
Definition Linked (molecule : Molecule) : Prop :=
  forall b, In b (bonds molecule) ->
            In (sourceAtomId b) (map id (atoms molecule))
            /\ In (targetAtomId b) (map id (atoms molecule)).

(** A well-formed molecule: no two atoms share an id, and no bond dangles. *)
Definition WellFormed (molecule : Molecule) : Prop :=
  NoDup (map id (atoms molecule)) /\ Linked molecule.

(** The molecule without the atoms whose id satisfies [gone] and without the
    bonds that have such an id as an endpoint. *)
Definition without (gone : string -> bool) (molecule : Molecule) : Molecule :=
  {| atoms := filter (fun a => negb (gone (id a))) (atoms molecule);
     bonds := filter (fun b => negb (gone (sourceAtomId b)) && negb (gone (targetAtomId b)))
                     (bonds molecule) |}.

(** The angles that a call of [updateHydrogensAfterBondRemoval] for [atom]
    records before it places a hydrogen: those of [existingPositions], then
    [existingAtomAngles]. *)
Definition recordedAngles (atom : Atom) (atomId : string) (molecule : Molecule)
  : list float :=
  map (angleFrom atom) (getConnectedHydrogens atomId molecule)
  ++ map (angleFrom atom)
         (definedNonHydrogens
            (map (fun bond =>
                    let otherAtomId :=
                      if (sourceAtomId bond =? atomId)%string
                      then targetAtomId bond else sourceAtomId bond in
                    findAtom otherAtomId (atoms molecule))
                 (filter (fun bond => (sourceAtomId bond =? atomId)%string
                                      || (targetAtomId bond =? atomId)%string)
                         (bonds molecule)))).

(** The bond-order sum of [atomId] is that of its bonds other than to its
    hydrogens, plus the number of hydrogens that [getRequiredHydrogens] asks
    for on those. *)
Definition Saturated (atomId : string) (molecule : Molecule) : Prop :=
  forall atom, findAtom atomId (atoms molecule) = Some atom ->
               (element atom =? "H")%string = false ->
               getAtomBondCount atomId (bonds molecule)
               = getAtomBondCount atomId (bonds (stripHydrogens atomId molecule))
                 + getRequiredHydrogens atom (bonds (stripHydrogens atomId molecule)).

(** * Properties *)

(** ** Bond accounting *)

Lemma BOND_ORDER_pos (t : BondType) : 1 <= BOND_ORDER t.
Proof. destruct t; simpl; lia. Qed.

Lemma bondCount_fold (atomId : string) (l : list Bond) (acc : Z) :
  fold_left
    (fun count bond =>
       if (sourceAtomId bond =? atomId)%string || (targetAtomId bond =? atomId)%string
       then count + BOND_ORDER (type bond) else count) l acc
  = acc + getAtomBondCount atomId l.
Proof.
  unfold getAtomBondCount. revert acc.
  induction l as [|b l IH]; intros acc; simpl.
  - lia.
  - destruct (_ || _).
    + rewrite (IH (acc + BOND_ORDER (type b))), (IH (BOND_ORDER (type b))). lia.
    + apply IH.
Qed.

Lemma getAtomBondCount_nil (atomId : string) : getAtomBondCount atomId [] = 0.
Proof. reflexivity. Qed.

Lemma getAtomBondCount_cons (atomId : string) (b : Bond) (l : list Bond) :
  getAtomBondCount atomId (b :: l) = bondWeight atomId b + getAtomBondCount atomId l.
Proof.
  unfold getAtomBondCount at 1. simpl. rewrite bondCount_fold.
  unfold bondWeight. destruct (_ || _); lia.
Qed.

Lemma getAtomBondCount_app (atomId : string) (l1 l2 : list Bond) :
  getAtomBondCount atomId (l1 ++ l2)
  = getAtomBondCount atomId l1 + getAtomBondCount atomId l2.
Proof.
  induction l1 as [|b l1 IH]; cbn [app].
  - rewrite getAtomBondCount_nil. lia.
  - rewrite !getAtomBondCount_cons, IH. lia.
Qed.

Lemma getAtomBondCount_nonneg (atomId : string) (l : list Bond) :
  0 <= getAtomBondCount atomId l.
Proof.
  induction l as [|b l IH].
  - rewrite getAtomBondCount_nil. lia.
  - rewrite getAtomBondCount_cons. unfold bondWeight.
    pose proof (BOND_ORDER_pos (type b)). destruct (_ || _); lia.
Qed.

(** C2 (as the code has it): a self-bond of [atomId], wherever it stands in
    the bond list, adds its order to the bond-order sum of [atomId] once. *)
Theorem self_bond_counted_once (atomId bid : string) (t : BondType)
        (l1 l2 : list Bond) :
  getAtomBondCount atomId (l1 ++ mkBond bid atomId atomId t :: l2)
  = getAtomBondCount atomId (l1 ++ l2) + BOND_ORDER t.
Proof.
  rewrite !getAtomBondCount_app, getAtomBondCount_cons.
  unfold bondWeight. simpl. rewrite String.eqb_refl. simpl. lia.
Qed.

(** ** Simple placement *)

Lemma addLoop_closed_form (k : nat) :
  forall i atom angleStep newAtoms newBonds g,
    addLoop k i atom angleStep newAtoms newBonds g
    = (newAtoms ++ map (loopAtom atom angleStep i g) (seq 0 k),
       newBonds ++ map (loopBond atom g) (seq 0 k),
       (g + 2 * k)%nat).
Proof.
  induction k as [|k IH]; intros i atom angleStep newAtoms newBonds g.
  - simpl. rewrite !app_nil_r. f_equal. lia.
  - cbn [addLoop]. rewrite IH. cbn [seq map].
    rewrite <- !seq_shift, !map_map, <- !app_assoc. cbn [app].
    f_equal; [f_equal|lia].
    + f_equal. f_equal.
      * unfold loopAtom. simpl. rewrite Nat.add_0_r, Z.add_0_r. reflexivity.
      * apply map_ext. intros j. unfold loopAtom. simpl.
        f_equal; [f_equal; lia|]. do 3 f_equal. lia.
    + f_equal. f_equal.
      * unfold loopBond. simpl. rewrite Nat.add_0_r. reflexivity.
      * apply map_ext. intros j. unfold loopBond. f_equal; f_equal; lia.
Qed.

Lemma addSpecificHydrogens_closed_form (atom : Atom) (molecule : Molecule)
      (n : Z) (g : nat) :
  0 < n ->
  addSpecificHydrogens atom molecule n g
  = ({| atoms := atoms molecule
                 ++ map (loopAtom atom (angleStepFor n) 0 g) (seq 0 (Z.to_nat n));
        bonds := bonds molecule
                 ++ map (loopBond atom g) (seq 0 (Z.to_nat n)) |},
     (g + 2 * Z.to_nat n)%nat).
Proof.
  intros Hn. unfold addSpecificHydrogens.
  destruct (n <=? 0) eqn:E; [apply Z.leb_le in E; lia|].
  rewrite addLoop_closed_form. reflexivity.
Qed.

Lemma addSpecificHydrogens_nonpositive (atom : Atom) (molecule : Molecule)
      (n : Z) (g : nat) :
  n <= 0 -> addSpecificHydrogens atom molecule n g = (molecule, g).
Proof.
  intros Hn. unfold addSpecificHydrogens.
  destruct (n <=? 0) eqn:E; [reflexivity|apply Z.leb_gt in E; lia].
Qed.

Lemma bondCount_loopBonds (atom : Atom) (g : nat) (l : list nat) :
  getAtomBondCount (id atom) (map (loopBond atom g) l) = Z.of_nat (List.length l).
Proof.
  induction l as [|j l IH]; cbn [map List.length].
  - apply getAtomBondCount_nil.
  - rewrite getAtomBondCount_cons, IH. unfold bondWeight, loopBond.
    cbn [sourceAtomId type]. rewrite String.eqb_refl.
    cbn [orb BOND_ORDER]. lia.
Qed.

(** C1 (as the code has it): when the lookup returns a target valence [t]
    for the bond-order sum [s] the atom has before the call, the atom's
    bond-order sum after [addHydrogensToAtom] is the larger of [s] and [t]:
    the target when [s <= t], and [s] itself when the atom is already above
    it. *)
Theorem addHydrogensToAtom_bond_order_sum (atom : Atom) (molecule : Molecule)
        (g : nat) (t : Z) :
  getBestValenceForBondCount (element atom)
                             (getAtomBondCount (id atom) (bonds molecule)) = Some t ->
  getAtomBondCount (id atom) (bonds (fst (addHydrogensToAtom atom molecule g)))
  = Z.max (getAtomBondCount (id atom) (bonds molecule)) t.
Proof.
  intros Ht. unfold addHydrogensToAtom, getRequiredHydrogens. rewrite Ht.
  pose proof (getAtomBondCount_nonneg (id atom) (bonds molecule)) as Hs.
  set (s := getAtomBondCount (id atom) (bonds molecule)) in *.
  destruct (t =? 0) eqn:E0.
  - apply Z.eqb_eq in E0. rewrite addSpecificHydrogens_nonpositive by lia.
    cbn [fst]. fold s. lia.
  - destruct (Z_le_gt_dec (Z.max 0 (t - s)) 0) as [Hle|Hgt].
    + rewrite addSpecificHydrogens_nonpositive by exact Hle. cbn [fst]. fold s. lia.
    + rewrite addSpecificHydrogens_closed_form by lia. cbn [fst bonds].
      rewrite getAtomBondCount_app, bondCount_loopBonds, length_seq. fold s. lia.
Qed.

(** C6: for a count [n > 0], simple placement appends exactly [n] hydrogen
    atoms and [n] single bonds from the parent; the [i]-th hydrogen stands
    at angle [i * (2 * PI / max(n, 3))] and distance 30 from the parent; for
    [n = 3] the angles are 0, 2 * PI / 3 and 4 * PI / 3. *)
Theorem addSpecificHydrogens_simple_placement (atom : Atom) (molecule : Molecule)
        (n : Z) (g : nat) :
  0 < n ->
  let angleOf (i : nat) : float :=
    (toNumber (Z.of_nat i) * ((2 * Math.PI) / toNumber (Z.max n 3)))%float in
  let hydrogen (i : nat) : Atom :=
    {| id := uuidv4 (g + 2 * i)%nat; element := "H";
       position :=
         {| x := (x (position atom) + Math_cos (angleOf i) * 30)%float;
            y := (y (position atom) + Math_sin (angleOf i) * 30)%float |} |} in
  let bond (i : nat) : Bond :=
    {| bondId := uuidv4 (S (g + 2 * i))%nat; sourceAtomId := id atom;
       targetAtomId := id (hydrogen i); type := single |} in
  let result := fst (addSpecificHydrogens atom molecule n g) in
  atoms result = atoms molecule ++ map hydrogen (seq 0 (Z.to_nat n))
  /\ bonds result = bonds molecule ++ map bond (seq 0 (Z.to_nat n))
  /\ Z.of_nat (List.length (map hydrogen (seq 0 (Z.to_nat n)))) = n
  /\ Z.of_nat (List.length (map bond (seq 0 (Z.to_nat n)))) = n
  /\ (n = 3 ->
      map angleOf (seq 0 (Z.to_nat n))
      = [0; 2 * Math.PI / 3; 4 * Math.PI / 3]%float).
Proof.
  intros Hn angleOf hydrogen bond result.
  unfold result. rewrite addSpecificHydrogens_closed_form by exact Hn.
  cbn [fst atoms bonds]. rewrite !length_map, !length_seq.
  split; [reflexivity|]. split; [reflexivity|].
  split; [lia|]. split; [lia|].
  intros ->. vm_compute. reflexivity.
Qed.

(** ** Bond feasibility *)

(** [canBondAtoms] in terms of the lookups it makes: it answers true exactly
    when both endpoint ids are found
    in the molecule and [canAcceptMoreBonds] holds for each endpoint with its
    element, its bond-order sum and the proposed order (1 when none is
    passed); it answers false when an endpoint id belongs to no atom.  It
    returns a boolean only: the molecule is not changed. *)
Theorem canBondAtoms_iff (sourceAtomId targetAtomId : string) (molecule : Molecule)
        (bondOrder : option Z) :
  let order := match bondOrder with Some b => b | None => 1 end in
  (canBondAtoms sourceAtomId targetAtomId molecule bondOrder = true <->
   exists sourceAtom targetAtom,
     findAtom sourceAtomId (atoms molecule) = Some sourceAtom
     /\ findAtom targetAtomId (atoms molecule) = Some targetAtom
     /\ canAcceptMoreBonds (element sourceAtom)
                           (getAtomBondCount sourceAtomId (bonds molecule)) order = true
     /\ canAcceptMoreBonds (element targetAtom)
                           (getAtomBondCount targetAtomId (bonds molecule)) order = true)
  /\ ((forall a, In a (atoms molecule) -> id a <> sourceAtomId)
      \/ (forall a, In a (atoms molecule) -> id a <> targetAtomId) ->
      canBondAtoms sourceAtomId targetAtomId molecule bondOrder = false).
Proof.
  intros order. unfold canBondAtoms. fold order. split.
  - destruct (findAtom sourceAtomId (atoms molecule)) as [sa|] eqn:Es;
      destruct (findAtom targetAtomId (atoms molecule)) as [ta|] eqn:Et.
    + rewrite andb_true_iff. split.
      * intros [H1 H2]. exists sa, ta. auto.
      * intros (sa' & ta' & H1 & H2 & H3 & H4).
        injection H1 as <-. injection H2 as <-. auto.
    + split; [discriminate|]. intros (sa' & ta' & _ & H2 & _). discriminate.
    + split; [discriminate|]. intros (sa' & ta' & H1 & _). discriminate.
    + split; [discriminate|]. intros (sa' & ta' & H1 & _). discriminate.
  - intros [Habs|Habs].
    + destruct (findAtom sourceAtomId (atoms molecule)) as [sa|] eqn:Es; [|reflexivity].
      apply find_some in Es. destruct Es as [Hin Hid].
      apply String.eqb_eq in Hid. elim (Habs sa Hin Hid).
    + destruct (findAtom sourceAtomId (atoms molecule)) as [sa|]; [|reflexivity].
      destruct (findAtom targetAtomId (atoms molecule)) as [ta|] eqn:Et; [|reflexivity].
      apply find_some in Et. destruct Et as [Hin Hid].
      apply String.eqb_eq in Hid. elim (Habs ta Hin Hid).
Qed.

Lemma findAtom_firstWithId (i : string) (l : list Atom) (a : Atom) :
  findAtom i l = Some a <-> firstWithId i l a.
Proof.
  unfold findAtom, firstWithId. induction l as [|c l IH]; cbn [find].
  - split; [discriminate|]. intros (before & after & E & _).
    destruct before; discriminate E.
  - destruct (id c =? i)%string eqn:Ec.
    + apply String.eqb_eq in Ec. split.
      * intros [= <-]. exists [], l. split; [reflexivity|]. split; [exact Ec|].
        intros b [].
      * intros (before & after & E & Hid & Hbefore).
        destruct before as [|b before]; cbn [app] in E.
        -- injection E as Hc _. rewrite Hc. reflexivity.
        -- injection E as Hc _. elim (Hbefore b (or_introl eq_refl)).
           rewrite <- Hc. exact Ec.
    + apply String.eqb_neq in Ec. rewrite IH. split.
      * intros (before & after & -> & Hid & Hbefore).
        exists (c :: before), after. split; [reflexivity|]. split; [exact Hid|].
        intros b [<-|Hb]; [exact Ec|apply Hbefore; exact Hb].
      * intros (before & after & E & Hid & Hbefore).
        destruct before as [|b before]; cbn [app] in E.
        -- injection E as Hc _. rewrite Hc in Ec. contradiction.
        -- injection E as _ Hl. exists before, after. split; [exact Hl|].
           split; [exact Hid|]. intros b' Hb'. apply Hbefore. right. exact Hb'.
Qed.

Lemma getAtomBondCount_bondOrderSum (atomId : string) (l : list Bond) :
  getAtomBondCount atomId l = bondOrderSum atomId l.
Proof.
  unfold bondOrderSum. induction l as [|b l IH]; [reflexivity|].
  rewrite getAtomBondCount_cons, IH. unfold bondWeight. cbn [filter].
  destruct (_ || _); cbn [map fold_right]; lia.
Qed.

(** C7: [canBondAtoms] answers true exactly when the molecule has an atom
    under each of the two ids and, for each endpoint, [canAcceptMoreBonds]
    holds of the element of the (first) atom under the id, of the sum of the
    orders of the bonds that touch the id, and of the proposed order (1 when
    none is passed); it answers false when no atom carries one of the ids.
    It returns a boolean only: the molecule is not changed. *)
Theorem canBondAtoms_spec (sourceId targetId : string) (molecule : Molecule)
        (bondOrder : option Z) :
  let order := match bondOrder with Some b => b | None => 1 end in
  (canBondAtoms sourceId targetId molecule bondOrder = true <->
   exists sourceAtom targetAtom,
     firstWithId sourceId (atoms molecule) sourceAtom
     /\ firstWithId targetId (atoms molecule) targetAtom
     /\ canAcceptMoreBonds (element sourceAtom)
                           (bondOrderSum sourceId (bonds molecule)) order = true
     /\ canAcceptMoreBonds (element targetAtom)
                           (bondOrderSum targetId (bonds molecule)) order = true)
  /\ ((forall a, In a (atoms molecule) -> id a <> sourceId)
      \/ (forall a, In a (atoms molecule) -> id a <> targetId) ->
      canBondAtoms sourceId targetId molecule bondOrder = false).
Proof.
  intros order.
  destruct (canBondAtoms_iff sourceId targetId molecule bondOrder) as [Hiff Habsent].
  fold order in Hiff. split; [|exact Habsent].
  rewrite Hiff. rewrite !getAtomBondCount_bondOrderSum.
  split; intros (sa & ta & Hs & Ht & Hcs & Hct); exists sa, ta;
    (split; [apply findAtom_firstWithId; exact Hs|]);
    (split; [apply findAtom_firstWithId; exact Ht|]);
    split; assumption.
Qed.

(** ** Lists *)

Lemma Subsequence_filter {A : Type} (f : A -> bool) (l : list A) :
  Subsequence (filter f l) l.
Proof.
  induction l as [|a l IH]; simpl.
  - constructor.
  - destruct (f a); constructor; exact IH.
Qed.

Lemma Subsequence_firstn {A : Type} (n : nat) (l : list A) :
  Subsequence (firstn n l) l.
Proof.
  revert n. induction l as [|a l IH]; intros [|n]; simpl.
  - constructor.
  - constructor.
  - apply Subsequence_skip. apply (IH 0%nat).
  - apply Subsequence_keep. apply IH.
Qed.

Lemma Subsequence_trans {A : Type} (l1 l2 l3 : list A) :
  Subsequence l1 l2 -> Subsequence l2 l3 -> Subsequence l1 l3.
Proof.
  intros H12 H23. revert l1 H12.
  induction H23 as [|a l2 l3 H IH|a l2 l3 H IH]; intros l1 H12.
  - exact H12.
  - constructor. apply IH. exact H12.
  - inversion H12; subst.
    + constructor. apply IH. assumption.
    + apply Subsequence_keep. apply IH. assumption.
Qed.

Lemma Subsequence_In {A : Type} (l1 l2 : list A) (a : A) :
  Subsequence l1 l2 -> In a l1 -> In a l2.
Proof.
  induction 1 as [|b l1 l2 H IH|b l1 l2 H IH]; simpl.
  - auto.
  - intros Hin. right. apply IH. exact Hin.
  - intros [Hin|Hin]; [left; exact Hin|right; apply IH; exact Hin].
Qed.

(** The atoms whose id is listed, followed by the others, are the atoms. *)
Lemma atoms_split_by_ids (ids : list string) (atomList : list Atom) :
  Permutation atomList
              (filter (fun a => includes ids (id a)) atomList
                 ++ filter (fun a => negb (includes ids (id a))) atomList).
Proof.
  induction atomList as [|a rest IH]; cbn [filter].
  - constructor.
  - destruct (includes ids (id a)); cbn [negb app].
    + constructor. exact IH.
    + apply Permutation_cons_app. exact IH.
Qed.

Lemma bool_ext (a b : bool) : (a = true <-> b = true) -> a = b.
Proof.
  destruct a, b; intros [H1 H2]; try reflexivity.
  - symmetry. apply H1. reflexivity.
  - apply H2. reflexivity.
Qed.

Lemma includes_In (l : list string) (s : string) :
  includes l s = true <-> In s l.
Proof.
  unfold includes. rewrite existsb_exists. split.
  - intros (x0 & Hin & Heq). apply String.eqb_eq in Heq. subst. exact Hin.
  - intros Hin. exists s. split; [exact Hin|apply String.eqb_refl].
Qed.

Lemma includes_false (l : list string) (s : string) :
  includes l s = false <-> ~ In s l.
Proof.
  rewrite <- includes_In. destruct (includes l s); split; congruence.
Qed.

(** ** Atom lookup *)

Lemma findAtom_id (i : string) (l : list Atom) (a : Atom) :
  findAtom i l = Some a -> In a l /\ id a = i.
Proof.
  intros H. apply find_some in H. destruct H as [Hin Hid].
  apply String.eqb_eq in Hid. auto.
Qed.

Lemma findAtom_NoDup (l : list Atom) (a : Atom) :
  NoDup (map id l) -> In a l -> findAtom (id a) l = Some a.
Proof.
  induction l as [|b l IH]; intros Hnd Hin; [contradiction|].
  cbn [map] in Hnd. inversion Hnd as [|? ? Hnotin Hnd']; subst.
  cbn [findAtom find]. destruct Hin as [->|Hin].
  - rewrite String.eqb_refl. reflexivity.
  - destruct (String.eqb_spec (id b) (id a)) as [E|E].
    + elim Hnotin. rewrite E. apply in_map. exact Hin.
    + apply IH; assumption.
Qed.

(** ** The set of connected hydrogens as a predicate *)

Lemma Set_has_add (c : string) (s : list string) (i : string) :
  Set_has (Set_add c s) i = (i =? c)%string || Set_has s i.
Proof.
  unfold Set_add. destruct (Set_has s c) eqn:E.
  - destruct (String.eqb_spec i c) as [->|_]; [rewrite E|]; reflexivity.
  - unfold Set_has, includes. rewrite existsb_app. cbn [existsb].
    rewrite orb_false_r. apply orb_comm.
Qed.

Lemma hydrogenIds_step (atomId : string) (molecule : Molecule)
      (hydrogenIds : list string) (bond : Bond) (i : string) :
  Set_has
    match connectedAtomId atomId bond with
    | None => hydrogenIds
    | Some c =>
        if (c =? "")%string then hydrogenIds
        else
          match findAtom c (atoms molecule) with
          | Some connectedAtom =>
              if (element connectedAtom =? "H")%string
              then Set_add c hydrogenIds
              else hydrogenIds
          | None => hydrogenIds
          end
    end i
  = Set_has hydrogenIds i
    || negb (i =? "")%string && isHydrogenId molecule i && linksTo atomId i bond.
Proof.
  unfold linksTo, isHydrogenId.
  destruct (connectedAtomId atomId bond) as [c|].
  - destruct (String.eqb_spec c i) as [->|Hci].
    + destruct (String.eqb_spec i "") as [Hi|Hi]; cbn [negb andb].
      * rewrite orb_false_r. reflexivity.
      * destruct (findAtom i (atoms molecule)) as [a|].
        -- destruct (element a =? "H")%string; cbn [andb].
           ++ rewrite Set_has_add, String.eqb_refl. cbn [orb].
              rewrite orb_true_r. reflexivity.
           ++ rewrite orb_false_r. reflexivity.
        -- cbn [andb]. rewrite orb_false_r. reflexivity.
    + rewrite andb_false_r, orb_false_r.
      destruct (c =? "")%string; [reflexivity|].
      destruct (findAtom c (atoms molecule)) as [a|]; [|reflexivity].
      destruct (element a =? "H")%string; [|reflexivity].
      rewrite Set_has_add.
      destruct (String.eqb_spec i c) as [->|_]; [contradiction|reflexivity].
  - rewrite andb_false_r, orb_false_r. reflexivity.
Qed.

Lemma Set_has_hydrogenIdsOf (atomId : string) (molecule : Molecule) (i : string) :
  Set_has (hydrogenIdsOf atomId molecule) i = connectedH atomId molecule i.
Proof.
  unfold hydrogenIdsOf, connectedH.
  change (negb (i =? "")%string && isHydrogenId molecule i
          && existsb (linksTo atomId i) (bonds molecule))
    with (Set_has [] i
          || negb (i =? "")%string && isHydrogenId molecule i
             && existsb (linksTo atomId i) (bonds molecule)).
  generalize (@nil string) as acc.
  induction (bonds molecule) as [|b l IH]; intros acc; cbn [fold_left existsb].
  - rewrite andb_false_r, orb_false_r. reflexivity.
  - rewrite IH. rewrite hydrogenIds_step.
    destruct (Set_has acc i), (negb (i =? "")%string), (isHydrogenId molecule i),
      (linksTo atomId i b), (existsb (linksTo atomId i) l); reflexivity.
Qed.

Lemma getConnectedHydrogens_filter (atomId : string) (molecule : Molecule) :
  getConnectedHydrogens atomId molecule
  = filter (fun atom => connectedH atomId molecule (id atom)) (atoms molecule).
Proof.
  unfold getConnectedHydrogens. apply filter_ext. intros a.
  apply Set_has_hydrogenIdsOf.
Qed.

Lemma isHydrogenId_atom (molecule : Molecule) (i : string) :
  isHydrogenId molecule i = true ->
  exists a, In a (atoms molecule) /\ id a = i /\ element a = "H".
Proof.
  unfold isHydrogenId. destruct (findAtom i (atoms molecule)) as [a|] eqn:E; [|discriminate].
  intros H. apply String.eqb_eq in H. apply findAtom_id in E.
  destruct E as [Hin Hid]. exists a. split; [exact Hin|]. split; [exact Hid|exact H].
Qed.

Lemma connectedH_isHydrogenId (atomId : string) (molecule : Molecule) (i : string) :
  connectedH atomId molecule i = true -> isHydrogenId molecule i = true.
Proof.
  unfold connectedH. rewrite !andb_true_iff. intros [[_ H] _]. exact H.
Qed.

(** The ids of the connected hydrogens are exactly the ids that satisfy
    [connectedH]. *)
Lemma includes_connected_ids (atomId : string) (molecule : Molecule) (i : string) :
  includes (map id (getConnectedHydrogens atomId molecule)) i
  = connectedH atomId molecule i.
Proof.
  apply bool_ext. rewrite includes_In, in_map_iff, getConnectedHydrogens_filter. split.
  - intros (a & <- & Hin). apply filter_In in Hin. exact (proj2 Hin).
  - intros H. destruct (isHydrogenId_atom _ _ (connectedH_isHydrogenId _ _ _ H))
      as (a & Hin & Hid & _).
    exists a. split; [exact Hid|]. apply filter_In. rewrite Hid. auto.
Qed.

(** With unique atom ids, an atom whose id is a hydrogen id is a hydrogen. *)
Lemma NoDup_hydrogen_ids (molecule : Molecule) (a : Atom) :
  NoDup (map id (atoms molecule)) -> In a (atoms molecule) ->
  isHydrogenId molecule (id a) = true -> element a = "H".
Proof.
  intros Hnd Hin. unfold isHydrogenId. rewrite (findAtom_NoDup _ _ Hnd Hin).
  apply String.eqb_eq.
Qed.

(** ** Comparisons of binary64 values *)

Lemma ltb_zero (d : float) : (0 <? d)%float = positiveSF (Prim2SF d).
Proof.
  rewrite ltb_spec. change (Prim2SF 0) with (S754_zero false).
  destruct (Prim2SF d) as [s|s| |s m e]; try destruct s; reflexivity.
Qed.

Lemma ltb_positive (m d : float) :
  (0 <? m)%float = true -> (m <? d)%float = true -> (0 <? d)%float = true.
Proof.
  rewrite !ltb_zero, ltb_spec.
  destruct (Prim2SF m) as [s|s| |s mm e]; try destruct s; try discriminate;
    destruct (Prim2SF d) as [s'|s'| |s' md e']; try destruct s'; try discriminate; reflexivity.
Qed.

Lemma is_nan_spec (a : float) :
  is_nan a = match Prim2SF a with S754_nan => true | _ => false end.
Proof.
  unfold is_nan. rewrite eqb_spec.
  destruct (Prim2SF a) as [s|s| |s m e]; try destruct s; try reflexivity.
  all: unfold SFeqb, SFcompare; rewrite Z.compare_refl, Pos.compare_cont_refl; reflexivity.
Qed.

Lemma min_positive (a b : float) :
  (0 <? Math.min a b)%float = true -> (0 <? a)%float = true /\ (0 <? b)%float = true.
Proof.
  unfold Math.min. rewrite !is_nan_spec.
  destruct (_ || _) eqn:En; [vm_compute; discriminate|].
  apply orb_false_iff in En. destruct En as [Ea Eb].
  destruct (a <? b)%float eqn:Eab.
  - intros H. split; [exact H|]. exact (ltb_positive _ _ H Eab).
  - destruct (b <? a)%float eqn:Eba.
    + intros H. split; [|exact H]. exact (ltb_positive _ _ H Eba).
    + destruct (is_zero a && get_sign a) eqn:Ez.
      * intros H. split; [exact H|]. apply andb_true_iff in Ez. destruct Ez as [Ez _].
        unfold is_zero in Ez. rewrite eqb_spec in Ez. rewrite ltb_zero in H.
        change (Prim2SF zero) with (S754_zero false) in Ez.
        destruct (Prim2SF a) as [s|s| |s m e]; try destruct s; discriminate.
      * intros H. split; [|exact H]. revert H Eab Eba Ea.
        rewrite !ltb_zero, !ltb_spec.
        destruct (Prim2SF a) as [s|s| |s m e]; try destruct s;
          destruct (Prim2SF b) as [s'|s'| |s' m' e']; try destruct s';
          try discriminate; try reflexivity.
Qed.

Lemma fold_min_positive {A : Type} (f : A -> float) (l : list A) (init : float) :
  (0 <? fold_left (fun m p => Math.min m (f p)) l init)%float = true ->
  (0 <? init)%float = true /\ forall p, In p l -> (0 <? f p)%float = true.
Proof.
  revert init. induction l as [|q l IH]; intros init H; cbn [fold_left] in H.
  - split; [exact H|]. intros p [].
  - apply IH in H. destruct H as [Hm Hl]. apply min_positive in Hm.
    destruct Hm as [Hi Hq]. split; [exact Hi|].
    intros p [<-|Hp]; [exact Hq|apply Hl; exact Hp].
Qed.

Lemma minDistanceAt_positive (testAngle : float) (existingPositions : list PolarPosition)
      (existingAtomAngles : list float) :
  (0 <? minDistanceAt testAngle existingPositions existingAtomAngles)%float = true ->
  forall pos, In pos existingPositions ->
              (0 <? normalizedDiff testAngle (angle pos))%float = true.
Proof.
  unfold minDistanceAt. intros H.
  apply fold_min_positive in H. destruct H as [H _].
  apply (fold_min_positive (fun pos => normalizedDiff testAngle (angle pos))) in H.
  exact (proj2 H).
Qed.

(** ** The scan *)

Lemma scanLoop_fold (existingPositions : list PolarPosition)
      (existingAtomAngles : list float) (fuel : nat) :
  forall testAngle bestAngle maxDistance,
    scanLoop fuel testAngle bestAngle maxDistance existingPositions existingAtomAngles
    = option_map
        (fun cs => fold_left (scanStep existingPositions existingAtomAngles) cs
                             (bestAngle, maxDistance))
        (candidateAngles fuel testAngle).
Proof.
  induction fuel as [|fuel IH]; intros t b m; cbn [scanLoop candidateAngles].
  - reflexivity.
  - destruct (t <? Math.PI * 2)%float; [|reflexivity].
    destruct (candidateAngles fuel (t + Math.PI / 6)%float) as [cs|] eqn:E.
    + cbn [option_map fold_left]. unfold scanStep at 2. cbn [snd].
      destruct (m <? _)%float; rewrite IH, E; reflexivity.
    + cbn [option_map]. destruct (m <? _)%float; rewrite IH, E; reflexivity.
Qed.

Lemma candidateAngles_more (fuel k : nat) :
  forall testAngle cs,
    candidateAngles fuel testAngle = Some cs ->
    candidateAngles (fuel + k) testAngle = Some cs.
Proof.
  induction fuel as [|fuel IH]; intros t cs; cbn [candidateAngles Nat.add].
  - discriminate.
  - destruct (t <? Math.PI * 2)%float; [|auto].
    destruct (candidateAngles fuel (t + Math.PI / 6)%float) as [cs'|] eqn:E; [|discriminate].
    rewrite (IH _ _ E). auto.
Qed.

(** The scan ends after twelve candidates: fuel 13 is enough, and more fuel
    changes nothing. *)
Lemma candidateAngles_13 (fuel : nat) :
  (13 <= fuel)%nat ->
  exists cs, candidateAngles fuel 0%float = Some cs
             /\ List.length cs = 12%nat
             /\ forallb (fun c => negb (0 <? normalizedDiff c c)%float) cs = true.
Proof.
  intros Hf. replace fuel with (13 + (fuel - 13))%nat by lia.
  destruct (candidateAngles 13 0%float) as [cs|] eqn:E; [|vm_compute in E; discriminate].
  exists cs. rewrite (candidateAngles_more 13 _ _ _ E).
  split; [reflexivity|].
  vm_compute in E. injection E as <-. split; vm_compute; reflexivity.
Qed.

Lemma scanAngles_total (fuel : nat) (existingPositions : list PolarPosition)
      (existingAtomAngles : list float) :
  (13 <= fuel)%nat ->
  exists bestAngle maxDistance,
    scanAngles fuel existingPositions existingAtomAngles = Some (bestAngle, maxDistance).
Proof.
  intros Hf. destruct (candidateAngles_13 fuel Hf) as (cs & E & _).
  unfold scanAngles. rewrite scanLoop_fold, E. cbn [option_map].
  destruct (fold_left _ cs _) as [b m]. exists b, m. reflexivity.
Qed.

(** An angle that the scan selects with a positive [maxDistance] differs
    from the angle of every entry of [existingPositions]. *)
Lemma scan_selects_new_angle (fuel : nat) (existingPositions : list PolarPosition)
      (existingAtomAngles : list float) (bestAngle maxDistance : float) :
  (13 <= fuel)%nat ->
  scanAngles fuel existingPositions existingAtomAngles = Some (bestAngle, maxDistance) ->
  (0 <? maxDistance)%float = true ->
  forall pos, In pos existingPositions -> angle pos <> bestAngle.
Proof.
  intros Hf Hscan Hpos.
  destruct (candidateAngles_13 fuel Hf) as (cs & E & _ & Hself).
  unfold scanAngles in Hscan. rewrite scanLoop_fold, E in Hscan. cbn [option_map] in Hscan.
  injection Hscan as Hscan.
  assert (Hinv : forall st,
             ((0 <? snd st)%float = true ->
              snd st = minDistanceAt (fst st) existingPositions existingAtomAngles
              /\ (0 <? normalizedDiff (fst st) (fst st))%float = false) ->
             ((0 <? snd st)%float = false -> snd st = 0%float) ->
             let st' := fold_left (scanStep existingPositions existingAtomAngles) cs st in
             (0 <? snd st')%float = true ->
             snd st' = minDistanceAt (fst st') existingPositions existingAtomAngles
             /\ (0 <? normalizedDiff (fst st') (fst st'))%float = false).
  { clear Hscan E. induction cs as [|c cs IH]; intros st H1 H2; cbn [fold_left].
    - exact H1.
    - cbn [forallb] in Hself. apply andb_true_iff in Hself. destruct Hself as [Hc Hcs].
      apply IH; [exact Hcs| |].
      + unfold scanStep.
        destruct (snd st <? minDistanceAt c existingPositions existingAtomAngles)%float
          eqn:Elt; [|exact H1].
        cbn [fst snd]. intros _. split; [reflexivity|].
        apply negb_true_iff in Hc. exact Hc.
      + unfold scanStep.
        destruct (snd st <? minDistanceAt c existingPositions existingAtomAngles)%float
          eqn:Elt; [|exact H2].
        cbn [snd]. intros Hneg. exfalso.
        destruct (0 <? snd st)%float eqn:E0.
        * rewrite (ltb_positive _ _ E0 Elt) in Hneg. discriminate.
        * rewrite (H2 eq_refl) in Elt. rewrite Elt in Hneg. discriminate. }
  specialize (Hinv (0%float, 0%float)). cbn [fst snd] in Hinv.
  rewrite Hscan in Hinv. cbn [fst snd] in Hinv.
  destruct (Hinv ltac:(vm_compute; discriminate) ltac:(reflexivity) Hpos) as [Hmin Hself'].
  intros pos Hin Heq. rewrite Hmin in Hpos.
  pose proof (minDistanceAt_positive _ _ _ Hpos pos Hin) as Hd.
  rewrite Heq, Hself' in Hd. discriminate.
Qed.

(** ** Collision-aware placement *)

Lemma placeLoop_angles (fuel : nat) (atom : Atom) (existingAtomAngles : list float)
      (k : nat) :
  (13 <= fuel)%nat ->
  forall existingPositions newAtoms newBonds g,
  exists addedAtoms addedBonds newPositions,
    placeLoop fuel k atom existingPositions existingAtomAngles newAtoms newBonds g
    = Some (newAtoms ++ addedAtoms, newBonds ++ addedBonds,
            existingPositions ++ newPositions, (g + 2 * k)%nat)
    /\ List.length newPositions = k
    /\ map position addedAtoms
       = map (fun pos => hydrogenPosition atom (angle pos)) newPositions
    /\ ((forall j, (j < k)%nat ->
                   clearAt fuel (existingPositions ++ firstn j newPositions)
                           existingAtomAngles = true) ->
        NoDup (map angle newPositions)
        /\ forall pos, In pos existingPositions ->
                       ~ In (angle pos) (map angle newPositions)).
Proof.
  intros Hf. induction k as [|k IH]; intros ex na nb g.
  - exists [], [], []. cbn [placeLoop]. rewrite !app_nil_r, Nat.add_0_r.
    repeat split; try constructor. intros pos _ [].
  - cbn [placeLoop].
    destruct (scanAngles_total fuel ex existingAtomAngles Hf) as (b & m & Hscan).
    rewrite Hscan.
    destruct (IH (ex ++ [{| angle := b; distance := hydrogenDistance |}])
                 (na ++ [{| id := uuidv4 g; element := "H";
                            position := hydrogenPosition atom b |}])
                 (nb ++ [{| bondId := uuidv4 (S g); sourceAtomId := id atom;
                            targetAtomId := uuidv4 g; type := single |}])
                 (S (S g)))
      as (aa' & ab' & np' & Heq & Hlen & Hposn & Hdistinct).
    exists ({| id := uuidv4 g; element := "H"; position := hydrogenPosition atom b |} :: aa'),
           ({| bondId := uuidv4 (S g); sourceAtomId := id atom;
               targetAtomId := uuidv4 g; type := single |} :: ab'),
           ({| angle := b; distance := hydrogenDistance |} :: np').
    cbn [id]. rewrite Heq, <- !app_assoc. cbn [app].
    split; [f_equal; f_equal; lia|].
    split; [cbn [List.length]; lia|].
    split; [cbn [map angle position]; f_equal; exact Hposn|].
    intros Hclear.
    assert (Hm : (0 <? m)%float = true).
    { specialize (Hclear 0%nat ltac:(lia)). cbn [firstn] in Hclear.
      rewrite app_nil_r in Hclear. unfold clearAt in Hclear.
      rewrite Hscan in Hclear. exact Hclear. }
    pose proof (scan_selects_new_angle fuel ex existingAtomAngles b m Hf Hscan Hm) as Hnew.
    destruct Hdistinct as [Hnd Hex].
    { intros j Hj. specialize (Hclear (S j) ltac:(lia)).
      cbn [firstn] in Hclear. rewrite <- app_assoc. exact Hclear. }
    cbn [map angle]. split.
    + constructor; [|exact Hnd].
      apply (Hex {| angle := b; distance := hydrogenDistance |}).
      apply in_or_app. right. left. reflexivity.
    + intros pos Hin [Hb|Hin'].
      * exact (Hnew pos Hin (eq_sym Hb)).
      * apply (Hex pos); [apply in_or_app; left; exact Hin|exact Hin'].
Qed.

(** More fuel than the scan needs changes nothing. *)
Lemma scanAngles_fuel (fuel : nat) (existingPositions : list PolarPosition)
      (existingAtomAngles : list float) :
  (13 <= fuel)%nat ->
  scanAngles fuel existingPositions existingAtomAngles
  = scanAngles 13 existingPositions existingAtomAngles.
Proof.
  intros Hf. destruct (candidateAngles_13 13 (le_n 13)) as (cs & E & _).
  unfold scanAngles. rewrite !scanLoop_fold, E.
  replace fuel with (13 + (fuel - 13))%nat by lia.
  rewrite (candidateAngles_more 13 _ _ _ E). reflexivity.
Qed.

Lemma placeLoop_fuel (fuel : nat) (atom : Atom) (existingAtomAngles : list float)
      (k : nat) :
  (13 <= fuel)%nat ->
  forall existingPositions newAtoms newBonds g,
    placeLoop fuel k atom existingPositions existingAtomAngles newAtoms newBonds g
    = placeLoop 13 k atom existingPositions existingAtomAngles newAtoms newBonds g.
Proof.
  intros Hf. induction k as [|k IH]; intros ex na nb g; cbn [placeLoop].
  - reflexivity.
  - rewrite (scanAngles_fuel fuel ex existingAtomAngles Hf).
    destruct (scanAngles 13 ex existingAtomAngles) as [[b m]|]; [apply IH|reflexivity].
Qed.

(** Around a parent without neighbours every scan of up to twelve
    placements finds a free candidate. *)
Lemma placeLoop_alone_clear (k : nat) (atom : Atom) (g : nat) :
  (k <= 12)%nat ->
  forall newAtoms newBonds newPositions g',
    placeLoop 13 k atom [] [] [] [] g = Some (newAtoms, newBonds, newPositions, g') ->
    forall j, (j < k)%nat -> clearAt 13 (firstn j newPositions) [] = true.
Proof.
  intros Hk.
  do 13 (destruct k as [|k];
         [intros na nb np g' H; vm_compute in H; injection H as _ _ Hnp _; subst np;
          intros j Hj;
          do 12 (destruct j as [|j]; [try lia; vm_compute; reflexivity|]); lia
         |]).
  lia.
Qed.

(** With enough fuel for the scan, the placement
    loop of [updateHydrogensAfterBondRemoval] returns; it places each new
    hydrogen at the angle it pushes on [existingPositions]; and when every
    scan of the call ends with [maxDistance > 0], no two of the new hydrogens
    get the same angle, and none gets the angle of a hydrogen that was there
    before.  (A scan that ends with [maxDistance = 0] leaves [bestAngle] at
    its initial 0.)  Every scan ends so when the parent has no neighbour and
    at most twelve hydrogens are placed. *)
Theorem placement_angles_distinct (fuel k : nat) (atom : Atom)
        (existingPositions : list PolarPosition) (existingAtomAngles : list float)
        (g : nat) :
  (13 <= fuel)%nat ->
  exists newAtoms newBonds newPositions,
    placeLoop fuel k atom existingPositions existingAtomAngles [] [] g
    = Some (newAtoms, newBonds, existingPositions ++ newPositions, (g + 2 * k)%nat)
    /\ List.length newPositions = k
    /\ map position newAtoms
       = map (fun pos => hydrogenPosition atom (angle pos)) newPositions
    /\ ((forall j, (j < k)%nat ->
                   clearAt fuel (existingPositions ++ firstn j newPositions)
                           existingAtomAngles = true) ->
        NoDup (map angle newPositions)
        /\ forall pos, In pos existingPositions ->
                       ~ In (angle pos) (map angle newPositions))
    /\ (existingPositions = [] -> existingAtomAngles = [] -> (k <= 12)%nat ->
        NoDup (map angle newPositions)).
Proof.
  intros Hf.
  destruct (placeLoop_angles fuel atom existingAtomAngles k Hf existingPositions [] [] g)
    as (na & nb & np & Heq & Hlen & Hpos & Hdistinct).
  exists na, nb, np. cbn [app] in Heq.
  split; [exact Heq|]. split; [exact Hlen|]. split; [exact Hpos|].
  split; [exact Hdistinct|].
  intros -> -> Hk. apply Hdistinct. intros j Hj. cbn [app].
  unfold clearAt. rewrite (scanAngles_fuel fuel _ _ Hf).
  rewrite (placeLoop_fuel fuel atom [] k Hf) in Heq.
  apply (placeLoop_alone_clear k atom g Hk na nb np _ Heq j Hj).
Qed.

(** With fuel 13 or more [updateHydrogensAfterBondRemoval] returns. *)
Lemma updateHydrogensAfterBondRemoval_returns (fuel : nat) (atomId : string)
      (molecule : Molecule) (g : nat) :
  (13 <= fuel)%nat ->
  exists result, updateHydrogensAfterBondRemoval fuel atomId molecule g = Some result.
Proof.
  intros Hf. unfold updateHydrogensAfterBondRemoval.
  destruct (findAtom atomId (atoms molecule)) as [atom|]; [|eexists; reflexivity].
  destruct (element atom =? "H")%string; [eexists; reflexivity|].
  destruct (_ <? _); [|eexists; reflexivity].
  match goal with
  | |- context [placeLoop fuel ?k ?a ?ex ?aa [] [] g] =>
      destruct (placeLoop_angles fuel a aa k Hf ex [] [] g) as (na & nb & np & Heq & _)
  end.
  rewrite Heq. eexists. reflexivity.
Qed.

(** ** Collision-aware placement: neighbours that are numbers *)

Lemma eqb_common (x y a : float) :
  (x =? a)%float = true -> (y =? a)%float = true -> (x =? y)%float = true.
Proof.
  rewrite !eqb_spec. unfold SFeqb, SFcompare.
  destruct (Prim2SF x) as [sx|sx| |sx mx ex], (Prim2SF y) as [sy|sy| |sy my ey],
           (Prim2SF a) as [sa|sa| |sa ma ea];
    try destruct sx; try destruct sy; try destruct sa; try discriminate; try reflexivity.
  all: destruct (Z.compare ex ea) eqn:E1; try discriminate;
    destruct (Z.compare ey ea) eqn:E2; try discriminate;
    apply Z.compare_eq in E1; apply Z.compare_eq in E2; subst ex ey;
    rewrite Z.compare_refl;
    destruct (Pos.compare_cont Eq mx ma) eqn:E3; try discriminate;
    destruct (Pos.compare_cont Eq my ma) eqn:E4; try discriminate;
    apply Pos.compare_eq in E3; apply Pos.compare_eq in E4; subst mx my;
    rewrite Pos.compare_cont_refl; reflexivity.
Qed.

Lemma min_positive_intro (a b : float) :
  (0 <? a)%float = true -> (0 <? b)%float = true -> (0 <? Math.min a b)%float = true.
Proof.
  intros Ha Hb. unfold Math.min. rewrite !is_nan_spec.
  assert (Na : match Prim2SF a with S754_nan => true | _ => false end = false).
  { rewrite ltb_zero in Ha. destruct (Prim2SF a); try discriminate; reflexivity. }
  assert (Nb : match Prim2SF b with S754_nan => true | _ => false end = false).
  { rewrite ltb_zero in Hb. destruct (Prim2SF b); try discriminate; reflexivity. }
  rewrite Na, Nb. cbn [orb].
  destruct (a <? b)%float; [exact Ha|].
  destruct (b <? a)%float; [exact Hb|].
  destruct (is_zero a && get_sign a); [exact Ha|exact Hb].
Qed.

Lemma fold_min_positive_intro {A : Type} (f : A -> float) (l : list A) (init : float) :
  (0 <? init)%float = true ->
  (forall p, In p l -> (0 <? f p)%float = true) ->
  (0 <? fold_left (fun m p => Math.min m (f p)) l init)%float = true.
Proof.
  revert init. induction l as [|q l IH]; intros init Hi Hl; cbn [fold_left].
  - exact Hi.
  - apply IH.
    + apply min_positive_intro; [exact Hi|apply Hl; left; reflexivity].
    + intros p Hp. apply Hl. right. exact Hp.
Qed.

Lemma minDistanceAt_positive_intro (testAngle : float)
      (existingPositions : list PolarPosition) (existingAtomAngles : list float) :
  (forall a, In a (map angle existingPositions ++ existingAtomAngles) ->
             (0 <? normalizedDiff testAngle a)%float = true) ->
  (0 <? minDistanceAt testAngle existingPositions existingAtomAngles)%float = true.
Proof.
  intros Hall. unfold minDistanceAt.
  apply fold_min_positive_intro.
  - apply (fold_min_positive_intro (fun pos => normalizedDiff testAngle (angle pos))).
    + vm_compute. reflexivity.
    + intros pos Hin. apply Hall. apply in_or_app. left. apply in_map. exact Hin.
  - intros a Hin. apply Hall. apply in_or_app. right. exact Hin.
Qed.

(** *** A free candidate exists *)

Lemma pairwiseApart_filter (p : float -> bool) (l : list float) :
  pairwiseApart l = true -> pairwiseApart (filter p l) = true.
Proof.
  induction l as [|c rest IH]; cbn [pairwiseApart filter]; [reflexivity|].
  intros H. apply andb_true_iff in H. destruct H as [Hc Hrest].
  destruct (p c); [|apply IH; exact Hrest].
  cbn [pairwiseApart]. apply andb_true_iff. split; [|apply IH; exact Hrest].
  apply forallb_forall. intros c' Hin. apply filter_In in Hin.
  rewrite forallb_forall in Hc. apply Hc. exact (proj1 Hin).
Qed.

Lemma pairwiseApart_firstn (n : nat) (l : list float) :
  pairwiseApart l = true -> pairwiseApart (firstn n l) = true.
Proof.
  revert n. induction l as [|c rest IH]; intros [|n]; cbn [pairwiseApart firstn];
    try reflexivity.
  intros H. apply andb_true_iff in H. destruct H as [Hc Hrest].
  apply andb_true_iff. split; [|apply IH; exact Hrest].
  apply forallb_forall. intros c' Hin.
  rewrite forallb_forall in Hc. apply Hc.
  apply (Subsequence_In _ _ _ (Subsequence_firstn n rest)). exact Hin.
Qed.

(** Among numbers that are pairwise apart at most one equals [a]. *)
Lemma pairwiseApart_one_match (a : float) (l : list float) :
  pairwiseApart l = true ->
  (List.length (filter (fun c => (c =? a)%float) l) <= 1)%nat.
Proof.
  induction l as [|c rest IH]; cbn [pairwiseApart filter]; [cbn; lia|].
  intros H. apply andb_true_iff in H. destruct H as [Hc Hrest].
  destruct (c =? a)%float eqn:E; [|apply IH; exact Hrest].
  assert (Hnone : forall c', In c' rest -> (c' =? a)%float = false).
  { intros c' Hin. destruct (c' =? a)%float eqn:E'; [exfalso|reflexivity].
    rewrite forallb_forall in Hc. specialize (Hc c' Hin).
    rewrite (eqb_common c c' a E E') in Hc. discriminate. }
  clear IH Hc Hrest. induction rest as [|c' rest IH']; cbn [filter]; [cbn; lia|].
  rewrite (Hnone c' (or_introl eq_refl)). apply IH'.
  intros c'' Hin. apply Hnone. right. exact Hin.
Qed.

Lemma free_candidate (recorded : list float) :
  forall cs, pairwiseApart cs = true ->
             (List.length recorded < List.length cs)%nat ->
             exists c, In c cs /\ forall a, In a recorded -> (c =? a)%float = false.
Proof.
  induction recorded as [|a recorded IH]; intros cs Hap Hlen.
  - destruct cs as [|c cs]; [cbn in Hlen; lia|].
    exists c. split; [left; reflexivity|intros a []].
  - destruct (IH (filter (fun c => negb (c =? a)%float) cs)) as (c & Hin & Hfree).
    + apply pairwiseApart_filter. exact Hap.
    + pose proof (filter_length (fun c => (c =? a)%float) cs) as Hsplit.
      pose proof (pairwiseApart_one_match a cs Hap) as Hone.
      cbn [List.length] in Hlen. lia.
    + apply filter_In in Hin. destruct Hin as [Hin Hne].
      exists c. split; [exact Hin|].
      intros a' [<-|Ha']; [apply negb_true_iff; exact Hne|apply Hfree; exact Ha'].
Qed.

Lemma scanCandidates_apart : pairwiseApart scanCandidates = true.
Proof. vm_compute. reflexivity. Qed.

Lemma regularAngle_free (n : nat) (recorded : list float) :
  Forall (fun a => regularAngle n a = true) recorded ->
  (List.length recorded < n)%nat -> (n <= 12)%nat ->
  exists c, In c scanCandidates
            /\ forall a, In a recorded -> (0 <? normalizedDiff c a)%float = true.
Proof.
  intros Hreg Hlen Hn.
  destruct (free_candidate recorded (firstn n scanCandidates)) as (c & Hin & Hfree).
  - apply pairwiseApart_firstn. exact scanCandidates_apart.
  - rewrite length_firstn.
    replace (List.length scanCandidates) with 12%nat by reflexivity. lia.
  - exists c.
    split; [apply (Subsequence_In _ _ _ (Subsequence_firstn n scanCandidates)); exact Hin|].
    intros a Ha. rewrite Forall_forall in Hreg. specialize (Hreg a Ha).
    unfold regularAngle in Hreg. rewrite forallb_forall in Hreg.
    specialize (Hreg c Hin). unfold apartFrom in Hreg.
    rewrite (Hfree a Ha) in Hreg. exact Hreg.
Qed.

(** *** The scan finds it *)

Lemma scanStep_keeps_positive (existingPositions : list PolarPosition)
      (existingAtomAngles : list float) (cs : list float) :
  forall st, (0 <? snd st)%float = true ->
             (0 <? snd (fold_left (scanStep existingPositions existingAtomAngles) cs st))%float
             = true.
Proof.
  induction cs as [|c cs IH]; intros st Hst; cbn [fold_left]; [exact Hst|].
  apply IH. unfold scanStep.
  destruct (snd st <? minDistanceAt c existingPositions existingAtomAngles)%float eqn:E;
    [|exact Hst].
  cbn [snd]. exact (ltb_positive _ _ Hst E).
Qed.

Lemma scan_reaches_positive (existingPositions : list PolarPosition)
      (existingAtomAngles : list float) (c : float) (cs : list float) :
  In c cs ->
  (0 <? minDistanceAt c existingPositions existingAtomAngles)%float = true ->
  forall st, (0 <? snd st)%float = true \/ snd st = 0%float ->
             (0 <? snd (fold_left (scanStep existingPositions existingAtomAngles) cs st))%float
             = true.
Proof.
  intros Hin Hc. induction cs as [|c' cs IH]; [destruct Hin|].
  intros st Hst. cbn [fold_left]. destruct Hin as [->|Hin].
  - apply scanStep_keeps_positive. unfold scanStep.
    destruct (snd st <? minDistanceAt c existingPositions existingAtomAngles)%float eqn:E.
    + exact Hc.
    + destruct Hst as [Hst|Hst]; [exact Hst|]. rewrite Hst in E. congruence.
  - apply (IH Hin). unfold scanStep.
    destruct (snd st <? minDistanceAt c' existingPositions existingAtomAngles)%float eqn:E;
      [|exact Hst].
    cbn [snd]. left. destruct Hst as [Hst|Hst].
    + exact (ltb_positive _ _ Hst E).
    + rewrite Hst in E. exact E.
Qed.

Lemma candidateAngles_scanCandidates : candidateAngles 13 0%float = Some scanCandidates.
Proof. vm_compute. reflexivity. Qed.

Lemma scanAngles_fold (fuel : nat) (existingPositions : list PolarPosition)
      (existingAtomAngles : list float) :
  (13 <= fuel)%nat ->
  scanAngles fuel existingPositions existingAtomAngles
  = Some (fold_left (scanStep existingPositions existingAtomAngles) scanCandidates
                    (0%float, 0%float)).
Proof.
  intros Hf. rewrite (scanAngles_fuel fuel _ _ Hf). unfold scanAngles.
  rewrite scanLoop_fold, candidateAngles_scanCandidates. reflexivity.
Qed.

(** Fewer than [n] recorded angles, each regular: the scan ends with
    [maxDistance > 0]. *)
Lemma clearAt_regular (fuel n : nat) (existingPositions : list PolarPosition)
      (existingAtomAngles : list float) :
  (13 <= fuel)%nat -> (n <= 12)%nat ->
  Forall (fun a => regularAngle n a = true)
         (map angle existingPositions ++ existingAtomAngles) ->
  (List.length (map angle existingPositions ++ existingAtomAngles) < n)%nat ->
  clearAt fuel existingPositions existingAtomAngles = true.
Proof.
  intros Hf Hn Hreg Hlen.
  destruct (regularAngle_free n _ Hreg Hlen Hn) as (c & Hin & Hfree).
  unfold clearAt. rewrite (scanAngles_fold fuel _ _ Hf).
  pose proof (scan_reaches_positive existingPositions existingAtomAngles c scanCandidates
                Hin (minDistanceAt_positive_intro c _ _ Hfree) (0%float, 0%float)
                (or_intror eq_refl)) as Hpos.
  destruct (fold_left _ scanCandidates _) as [b m]. exact Hpos.
Qed.

(** The angle that a scan selects is one of the candidates. *)
Lemma scanStep_selects (existingPositions : list PolarPosition)
      (existingAtomAngles : list float) (cs : list float) :
  forall st, fst (fold_left (scanStep existingPositions existingAtomAngles) cs st) = fst st
             \/ In (fst (fold_left (scanStep existingPositions existingAtomAngles) cs st)) cs.
Proof.
  induction cs as [|c cs IH]; intros st; cbn [fold_left]; [left; reflexivity|].
  destruct (IH (scanStep existingPositions existingAtomAngles st c)) as [E|Hin].
  - rewrite E. unfold scanStep. destruct (_ <? _)%float; cbn [fst].
    + right. left. reflexivity.
    + left. reflexivity.
  - right. right. exact Hin.
Qed.

Lemma scanAngles_candidate (fuel : nat) (existingPositions : list PolarPosition)
      (existingAtomAngles : list float) (bestAngle maxDistance : float) :
  (13 <= fuel)%nat ->
  scanAngles fuel existingPositions existingAtomAngles = Some (bestAngle, maxDistance) ->
  In bestAngle scanCandidates.
Proof.
  intros Hf Hscan. rewrite (scanAngles_fold fuel _ _ Hf) in Hscan.
  pose proof (scanStep_selects existingPositions existingAtomAngles scanCandidates
                               (0%float, 0%float)) as Hsel.
  remember (fold_left (scanStep existingPositions existingAtomAngles) scanCandidates
                      (0%float, 0%float)) as final eqn:Hfinal.
  clear Hfinal. injection Hscan as ->. cbn [fst] in Hsel.
  destruct Hsel as [->|Hin]; [left; reflexivity|exact Hin].
Qed.

Lemma placeLoop_candidates (fuel : nat) (atom : Atom) (existingAtomAngles : list float)
      (k : nat) :
  (13 <= fuel)%nat ->
  forall existingPositions newAtoms newBonds g atoms' bonds' newPositions g',
    placeLoop fuel k atom existingPositions existingAtomAngles newAtoms newBonds g
    = Some (atoms', bonds', existingPositions ++ newPositions, g') ->
    forall pos, In pos newPositions -> In (angle pos) scanCandidates.
Proof.
  intros Hf. induction k as [|k IH]; intros ex na nb g atoms' bonds' np g' Hrun;
    cbn [placeLoop] in Hrun.
  - injection Hrun as _ _ Hnp _.
    rewrite <- (app_nil_r ex) in Hnp at 1. apply app_inv_head in Hnp. subst np.
    intros pos [].
  - destruct (scanAngles fuel ex existingAtomAngles) as [[b m]|] eqn:Hscan;
      [|discriminate].
    destruct (placeLoop_angles fuel atom existingAtomAngles k Hf
                (ex ++ [{| angle := b; distance := hydrogenDistance |}])
                (na ++ [{| id := uuidv4 g; element := "H";
                           position := hydrogenPosition atom b |}])
                (nb ++ [{| bondId := uuidv4 (S g); sourceAtomId := id atom;
                           targetAtomId := uuidv4 g; type := single |}])
                (S (S g)))
      as (aa' & ab' & np' & Heq & _).
    cbn [id] in Hrun. rewrite Heq in Hrun. injection Hrun as _ _ Hnp _.
    rewrite <- app_assoc in Hnp. apply app_inv_head in Hnp. cbn [app] in Hnp. subst np.
    intros pos [<-|Hin].
    + cbn [angle]. exact (scanAngles_candidate fuel ex existingAtomAngles b m Hf Hscan).
    + exact (IH _ _ _ _ _ _ _ _ Heq pos Hin).
Qed.

Lemma scanCandidates_regular (n : nat) (c : float) :
  In c scanCandidates -> regularAngle n c = true.
Proof.
  intros Hin. unfold regularAngle. apply forallb_forall. intros c' Hin'.
  apply (Subsequence_In _ _ _ (Subsequence_firstn n scanCandidates)) in Hin'.
  assert (Hall : forallb (fun a => forallb (apartFrom a) scanCandidates) scanCandidates
                 = true) by (vm_compute; reflexivity).
  rewrite forallb_forall in Hall. specialize (Hall c Hin).
  rewrite forallb_forall in Hall. exact (Hall c' Hin').
Qed.

Lemma scanCandidates_eqb_eq (c c' : float) :
  In c scanCandidates -> In c' scanCandidates -> (c =? c')%float = true -> c = c'.
Proof.
  intros Hc Hc'. vm_compute in Hc, Hc'.
  repeat (destruct Hc as [<-|Hc];
          [repeat (destruct Hc' as [<-|Hc'];
                   [vm_compute; intros H; try reflexivity; discriminate H|]);
           destruct Hc'|]).
  destruct Hc.
Qed.

Lemma NoDup_pairwiseApart (l : list float) :
  (forall a, In a l -> In a scanCandidates) -> NoDup l -> pairwiseApart l = true.
Proof.
  intros Hcand Hnd. induction Hnd as [|c l Hnotin Hnd IH]; [reflexivity|].
  cbn [pairwiseApart]. apply andb_true_iff. split.
  - apply forallb_forall. intros c' Hin. apply negb_true_iff.
    destruct (c =? c')%float eqn:E; [exfalso|reflexivity].
    apply Hnotin.
    rewrite (scanCandidates_eqb_eq c c' (Hcand c (or_introl eq_refl))
                                   (Hcand c' (or_intror Hin)) E).
    exact Hin.
  - apply IH. intros a Ha. apply Hcand. right. exact Ha.
Qed.

(** C5: with enough fuel for the scans, a call of
    [updateHydrogensAfterBondRemoval] for a non-hydrogen atom that is found
    returns, and no two of the hydrogens it adds are assigned the same
    angle, whenever the angles it records for the neighbours are numbers
    that leave the candidates free and the atom ends with at most [n]
    neighbours: each recorded angle is, for each of the first [n <= 12]
    candidates of the scan, equal to it or at a positive folded distance
    from it ([regularAngle n], which no NaN satisfies), and the recorded
    angles and the hydrogens to add are at most [n] together.  The new
    hydrogens stand at [parent + 30 * (cos a, sin a)] for angles [a] that are
    candidates of the scan, pairwise different as numbers, and different
    from the angle of every hydrogen that was there. *)
Theorem bondRemoval_new_angles_distinct (fuel n : nat) (atomId : string)
        (molecule : Molecule) (g : nat) (atom : Atom) :
  (13 <= fuel)%nat ->
  findAtom atomId (atoms molecule) = Some atom ->
  element atom <> "H" ->
  let recorded := recordedAngles atom atomId molecule in
  let k := Z.to_nat (getRequiredHydrogens atom (bonds molecule)
                     - Z.of_nat (List.length (getConnectedHydrogens atomId molecule))) in
  (n <= 12)%nat ->
  Forall (fun a => regularAngle n a = true) recorded ->
  (List.length recorded + k <= n)%nat ->
  exists added newBonds g' angles,
    updateHydrogensAfterBondRemoval fuel atomId molecule g
    = Some ({| atoms := atoms molecule ++ added;
               bonds := bonds molecule ++ newBonds |}, g')
    /\ List.length angles = k
    /\ map position added = map (hydrogenPosition atom) angles
    /\ NoDup angles
    /\ pairwiseApart angles = true
    /\ (forall a, In a angles -> In a scanCandidates)
    /\ (forall a h, In a angles -> In h (getConnectedHydrogens atomId molecule) ->
                    angleFrom atom h <> a).
Proof.
  intros Hf Hfind Hel recorded k Hn Hreg Hlen.
  apply String.eqb_neq in Hel.
  unfold updateHydrogensAfterBondRemoval. rewrite Hfind, Hel.
  set (needed := getRequiredHydrogens atom (bonds molecule)) in *.
  set (current := getConnectedHydrogens atomId molecule) in *.
  destruct (Z.of_nat (List.length current) <? needed) eqn:Elt.
  - fold k.
    match goal with
    | |- context [placeLoop fuel k atom ?ex ?aa [] [] g] =>
        set (existingPositions := ex); set (existingAtomAngles := aa)
    end.
    assert (Hrec : recorded = map angle existingPositions ++ existingAtomAngles).
    { unfold recorded, recordedAngles, existingPositions. rewrite map_map. reflexivity. }
    destruct (placeLoop_angles fuel atom existingAtomAngles k Hf existingPositions [] [] g)
      as (na & nb & np & Heq & Hnp & Hpos & Hdistinct).
    pose proof (placeLoop_candidates fuel atom existingAtomAngles k Hf
                  existingPositions [] [] g _ _ np _ Heq) as Hcand.
    rewrite Heq. cbn [app].
    destruct Hdistinct as [Hnd Hold].
    { intros j Hj. apply (clearAt_regular fuel n _ _ Hf Hn).
      - rewrite map_app, <- app_assoc. rewrite Hrec in Hreg.
        rewrite Forall_app in Hreg. destruct Hreg as [Hex Haa].
        apply Forall_app. split; [exact Hex|]. apply Forall_app. split; [|exact Haa].
        apply Forall_forall. intros a Ha. apply in_map_iff in Ha.
        destruct Ha as (pos & <- & Hin). apply scanCandidates_regular.
        apply Hcand. apply (Subsequence_In _ _ _ (Subsequence_firstn j np)). exact Hin.
      - rewrite Hrec in Hlen. rewrite !length_app, !length_map in *.
        rewrite length_app, length_firstn. lia. }
    exists na, nb, (g + 2 * k)%nat, (map angle np).
    split; [reflexivity|]. split; [rewrite length_map; exact Hnp|].
    split; [rewrite map_map; exact Hpos|]. split; [exact Hnd|].
    assert (Hall : forall a, In a (map angle np) -> In a scanCandidates).
    { intros a Ha. apply in_map_iff in Ha. destruct Ha as (pos & <- & Hin).
      apply Hcand. exact Hin. }
    split; [apply NoDup_pairwiseApart; assumption|]. split; [exact Hall|].
    intros a h Ha Hh Heqa.
    apply (Hold {| angle := angleFrom atom h;
                   distance :=
                     Math.sqrt
                       (Math_pow (x (position h) - x (position atom)) 2
                        + Math_pow (y (position h) - y (position atom)) 2)%float |}).
    + unfold existingPositions. apply in_map_iff. exists h. split; [reflexivity|exact Hh].
    + cbn [angle]. rewrite Heqa. exact Ha.
  - apply Z.ltb_ge in Elt. exists [], [], g, [].
    assert (Hk : k = 0%nat) by (unfold k; lia).
    rewrite !app_nil_r. split; [destruct molecule; reflexivity|].
    split; [symmetry; exact Hk|]. split; [reflexivity|]. split; [constructor|].
    split; [reflexivity|]. split; intros a; intros; contradiction.
Qed.

(** ** Unknown atom ids *)

Lemma findAtom_absent (atomId : string) (l : list Atom) :
  (forall a, In a l -> id a <> atomId) -> findAtom atomId l = None.
Proof.
  intros Habs. unfold findAtom.
  destruct (find _ l) as [a|] eqn:E; [|reflexivity].
  apply find_some in E. destruct E as [Hin Hid].
  apply String.eqb_eq in Hid. elim (Habs a Hin Hid).
Qed.

(** For an atom id that no atom of the molecule
    carries,
    [updateHydrogensAfterBonding] and [updateHydrogensAfterBondRemoval]
    return the input molecule; [updateHydrogensAfterBondTypeChange] skips
    the iteration of such an id, and returns the input molecule when neither
    of its two ids is carried by an atom. *)
Theorem unknown_atom_id_unchanged (molecule : Molecule) (atomId : string)
        (g fuel : nat) :
  (forall a, In a (atoms molecule) -> id a <> atomId) ->
  updateHydrogensAfterBonding atomId molecule = molecule
  /\ updateHydrogensAfterBondRemoval fuel atomId molecule g = Some (molecule, g)
  /\ (forall other,
        updateHydrogensAfterBondTypeChange atomId other molecule g
        = reconcileAtom (molecule, g) other)
  /\ (forall other,
        (forall a, In a (atoms molecule) -> id a <> other) ->
        updateHydrogensAfterBondTypeChange atomId other molecule g = (molecule, g)
        /\ updateHydrogensAfterBondTypeChange other atomId molecule g = (molecule, g)).
Proof.
  intros Habs. apply findAtom_absent in Habs.
  assert (Hskip : forall i, findAtom i (atoms molecule) = None ->
                            reconcileAtom (molecule, g) i = (molecule, g)).
  { intros i Hi. unfold reconcileAtom. rewrite Hi. reflexivity. }
  split; [|split; [|split]].
  - unfold updateHydrogensAfterBonding. rewrite Habs. reflexivity.
  - unfold updateHydrogensAfterBondRemoval. rewrite Habs. reflexivity.
  - intros other. unfold updateHydrogensAfterBondTypeChange. cbn [fold_left].
    rewrite (Hskip atomId Habs). reflexivity.
  - intros other Hother. apply findAtom_absent in Hother.
    unfold updateHydrogensAfterBondTypeChange. cbn [fold_left].
    rewrite ?(Hskip atomId Habs), ?(Hskip other Hother), ?(Hskip atomId Habs).
    split; reflexivity.
Qed.

(** ** Hydrogen removal *)

Lemma removeByIds_nil (molecule : Molecule) : removeByIds [] molecule = molecule.
Proof.
  destruct molecule as [la lb]. unfold removeByIds. cbn [atoms bonds includes existsb negb andb].
  f_equal; apply forallb_filter_id; apply forallb_forall; reflexivity.
Qed.

Lemma filter_ids_Subsequence (l sub : list Atom) :
  NoDup (map id l) -> Subsequence sub l ->
  filter (fun a => includes (map id sub) (id a)) l = sub.
Proof.
  intros Hnd Hsub. induction Hsub as [|a l1 l2 H IH|a l1 l2 H IH].
  - reflexivity.
  - cbn [map] in Hnd. inversion Hnd as [|? ? Hnotin Hnd']; subst.
    cbn [filter]. destruct (includes (map id l1) (id a)) eqn:E.
    + apply includes_In in E. apply in_map_iff in E. destruct E as (b & Hid & Hb).
      elim Hnotin. rewrite <- Hid. apply in_map. apply (Subsequence_In _ _ _ H Hb).
    + apply IH. exact Hnd'.
  - cbn [map] in Hnd. inversion Hnd as [|? ? Hnotin Hnd']; subst.
    cbn [filter map includes existsb]. rewrite String.eqb_refl. cbn [orb].
    f_equal. etransitivity; [|apply (IH Hnd')]. apply filter_ext_in. intros b Hb.
    destruct (String.eqb_spec (id b) (id a)) as [E|_]; [|reflexivity].
    elim Hnotin. rewrite <- E. apply in_map. exact Hb.
Qed.

(** C3: for an atom that is found and has a target valence [t], in a
    molecule whose atom ids are unique (as the data model has them),
    [updateHydrogensAfterBonding] removes the first [n] connected hydrogens
    ([t] is not 0: the valences of the table are positive, and the source
    takes a 0 for no target), where
    [n = min(max(0, sum - t), number of connected hydrogens)]: these [n] atoms
    are hydrogens, the atoms of the result with them are the atoms of the
    input, the bonds that go are exactly those with a removed hydrogen as an
    endpoint, and what stays keeps its order: nothing is added. *)
Theorem updateHydrogensAfterBonding_removes (atomId : string) (molecule : Molecule)
        (atom : Atom) (t : Z) :
  NoDup (map id (atoms molecule)) ->
  findAtom atomId (atoms molecule) = Some atom ->
  getBestValenceForBondCount (element atom)
                             (getAtomBondCount atomId (bonds molecule)) = Some t ->
  t <> 0 ->
  let connected := getConnectedHydrogens atomId molecule in
  let n := Z.min (Z.max 0 (getAtomBondCount atomId (bonds molecule) - t))
                 (Z.of_nat (List.length connected)) in
  let removed := firstn (Z.to_nat n) connected in
  let result := updateHydrogensAfterBonding atomId molecule in
  Z.of_nat (List.length removed) = n
  /\ Forall (fun h => element h = "H") removed
  /\ Permutation (atoms molecule) (removed ++ atoms result)
  /\ atoms result
     = filter (fun a => negb (includes (map id removed) (id a))) (atoms molecule)
  /\ bonds result
     = filter (fun b => negb (includes (map id removed) (sourceAtomId b))
                        && negb (includes (map id removed) (targetAtomId b)))
              (bonds molecule)
  /\ Subsequence (atoms result) (atoms molecule)
  /\ Subsequence (bonds result) (bonds molecule).
Proof.
  intros Hnd Hfind Hbest Ht connected n removed result.
  assert (Hres : result = removeByIds (map id removed) molecule).
  { unfold result, updateHydrogensAfterBonding. rewrite Hfind, Hbest.
    destruct (Z.eqb_spec t 0) as [|_]; [contradiction|].
    fold connected. fold n.
    destruct (Z.leb_spec n 0) as [Hle|Hgt].
    - unfold removed. replace (Z.to_nat n) with 0%nat by lia.
      cbn [firstn map]. symmetry. apply removeByIds_nil.
    - reflexivity. }
  assert (Hsub : Subsequence removed (atoms molecule)).
  { unfold removed, connected. rewrite getConnectedHydrogens_filter.
    eapply Subsequence_trans; [apply Subsequence_firstn|apply Subsequence_filter]. }
  rewrite Hres. cbn [removeByIds atoms bonds].
  split; [|split; [|split; [|split; [|split; [|split]]]]].
  - unfold removed. rewrite length_firstn. unfold n. lia.
  - apply Forall_forall. intros h Hh.
    assert (Hc : In h connected) by (revert Hh; apply Subsequence_In, Subsequence_firstn).
    unfold connected in Hc. rewrite getConnectedHydrogens_filter in Hc.
    apply filter_In in Hc. destruct Hc as [Hin Hc].
    apply (NoDup_hydrogen_ids molecule h Hnd Hin).
    apply (connectedH_isHydrogenId _ _ _ Hc).
  - rewrite <- (filter_ids_Subsequence _ _ Hnd Hsub) at 1.
    apply atoms_split_by_ids.
  - reflexivity.
  - reflexivity.
  - apply Subsequence_filter.
  - apply Subsequence_filter.
Qed.

Lemma removeByIds_no_orphans (ids : list string) (molecule : Molecule) (h : Atom) (b : Bond) :
  In h (atoms molecule) -> ~ In h (atoms (removeByIds ids molecule)) ->
  In b (bonds (removeByIds ids molecule)) ->
  sourceAtomId b <> id h /\ targetAtomId b <> id h.
Proof.
  intros Hin Hout Hb. cbn [removeByIds atoms bonds] in *.
  assert (Hh : includes ids (id h) = true).
  { destruct (includes ids (id h)) eqn:E; [reflexivity|].
    elim Hout. apply filter_In. rewrite E. auto. }
  apply filter_In in Hb. destruct Hb as [_ Hb].
  apply andb_true_iff in Hb. destruct Hb as [Hs Ht].
  split; intros Heq; rewrite Heq, Hh in *; discriminate.
Qed.

Lemma updateHydrogensAfterBonding_cases (atomId : string) (molecule : Molecule) :
  updateHydrogensAfterBonding atomId molecule = molecule
  \/ exists ids, updateHydrogensAfterBonding atomId molecule = removeByIds ids molecule.
Proof.
  unfold updateHydrogensAfterBonding.
  destruct (findAtom atomId (atoms molecule)) as [atom|]; [|now left].
  destruct (getBestValenceForBondCount _ _) as [t|]; [|now left].
  destruct (t =? 0); [now left|].
  destruct (_ <=? 0); [now left|].
  right. eexists. reflexivity.
Qed.

(** C8: after [updateHydrogensAfterBonding], and after the stripping phase
    of [updateHydrogensAfterBondTypeChange], no bond that is left has the id
    of a removed atom as its source or as its target. *)
Theorem no_orphan_bonds (atomId : string) (molecule : Molecule) (h : Atom) (b : Bond) :
  In h (atoms molecule) ->
  (~ In h (atoms (updateHydrogensAfterBonding atomId molecule)) ->
   In b (bonds (updateHydrogensAfterBonding atomId molecule)) ->
   sourceAtomId b <> id h /\ targetAtomId b <> id h)
  /\ (~ In h (atoms (stripHydrogens atomId molecule)) ->
      In b (bonds (stripHydrogens atomId molecule)) ->
      sourceAtomId b <> id h /\ targetAtomId b <> id h).
Proof.
  intros Hin. split.
  - destruct (updateHydrogensAfterBonding_cases atomId molecule) as [E|[ids E]];
      rewrite E.
    + intros Hout. elim (Hout Hin).
    + apply removeByIds_no_orphans. exact Hin.
  - unfold stripHydrogens. apply removeByIds_no_orphans. exact Hin.
Qed.

(** ** Links, lookups and new hydrogens *)

Lemma touches_true_iff (i : string) (b : Bond) :
  touches i b = true <-> sourceAtomId b = i \/ targetAtomId b = i.
Proof.
  unfold touches. rewrite orb_true_iff, !String.eqb_eq. reflexivity.
Qed.

Lemma linksTo_true_iff (atomId i : string) (b : Bond) :
  linksTo atomId i b = true <->
  (sourceAtomId b = atomId /\ targetAtomId b = i)
  \/ (sourceAtomId b <> atomId /\ targetAtomId b = atomId /\ sourceAtomId b = i).
Proof.
  unfold linksTo, connectedAtomId.
  destruct (String.eqb_spec (sourceAtomId b) atomId) as [Es|Es].
  - rewrite String.eqb_eq. split.
    + intros H. left. split; assumption.
    + intros [[_ H]|[H _]]; [exact H|contradiction].
  - destruct (String.eqb_spec (targetAtomId b) atomId) as [Et|Et].
    + rewrite String.eqb_eq. split.
      * intros H. right. repeat split; assumption.
      * intros [[H _]|[_ [_ H]]]; [contradiction|exact H].
    + split; [discriminate|].
      intros [[H _]|[_ [H _]]]; contradiction.
Qed.

Lemma linksTo_touches (atomId i : string) (b : Bond) :
  linksTo atomId i b = true -> touches i b = true /\ touches atomId b = true.
Proof.
  rewrite linksTo_true_iff, !touches_true_iff.
  intros [[Hs Ht]|[_ [Ht Hs]]]; split; auto.
Qed.

Lemma connectedH_true_iff (atomId : string) (molecule : Molecule) (i : string) :
  connectedH atomId molecule i = true <->
  i <> "" /\ isHydrogenId molecule i = true
  /\ exists b, In b (bonds molecule) /\ linksTo atomId i b = true.
Proof.
  unfold connectedH. rewrite !andb_true_iff, negb_true_iff, existsb_exists.
  destruct (String.eqb_spec i "") as [E|E].
  - split; [intros [[H _] _]; discriminate|intros [H _]; contradiction].
  - split.
    + intros [[_ H1] H2]. auto.
    + intros [_ [H1 H2]]. auto.
Qed.

Lemma isHydrogenId_not_heavy (molecule : Molecule) (i : string) :
  isHydrogenId molecule i = true -> isHeavyId molecule i = false.
Proof.
  unfold isHydrogenId, isHeavyId.
  destruct (findAtom i (atoms molecule)) as [a|]; [|reflexivity].
  intros ->. reflexivity.
Qed.

Lemma connectedH_not_heavy (atomId : string) (molecule : Molecule) (i : string) :
  isHeavyId molecule i = true -> connectedH atomId molecule i = false.
Proof.
  intros Hh. destruct (connectedH atomId molecule i) eqn:E; [|reflexivity].
  apply connectedH_isHydrogenId, isHydrogenId_not_heavy in E. congruence.
Qed.

Lemma findAtom_app (i : string) (l1 l2 : list Atom) :
  findAtom i (l1 ++ l2)
  = match findAtom i l1 with Some a => Some a | None => findAtom i l2 end.
Proof.
  unfold findAtom. induction l1 as [|a l1 IH]; cbn [app find].
  - reflexivity.
  - destruct (id a =? i)%string; [reflexivity|exact IH].
Qed.

Lemma findAtom_filter_id (q : string -> bool) (i : string) (l : list Atom) :
  findAtom i (filter (fun a => q (id a)) l)
  = if q i then findAtom i l else None.
Proof.
  unfold findAtom. induction l as [|a l IH]; cbn [filter find].
  - destruct (q i); reflexivity.
  - destruct (String.eqb_spec (id a) i) as [E|E].
    + rewrite E. destruct (q i) eqn:Eq.
      * cbn [find]. rewrite E, String.eqb_refl. reflexivity.
      * rewrite IH. reflexivity.
    + destruct (q (id a)).
      * cbn [find]. destruct (String.eqb_spec (id a) i); [contradiction|exact IH].
      * exact IH.
Qed.

Lemma findAtom_present (i : string) (l : list Atom) :
  In i (map id l) -> exists a, findAtom i l = Some a.
Proof.
  intros H. destruct (findAtom i l) as [a|] eqn:E; [exists a; reflexivity|].
  apply in_map_iff in H. destruct H as (a & Hid & Hin).
  pose proof (find_none _ _ E a Hin) as Hn. cbn in Hn.
  rewrite Hid, String.eqb_refl in Hn. discriminate.
Qed.

Lemma findAtom_missing (i : string) (l : list Atom) :
  ~ In i (map id l) -> findAtom i l = None.
Proof.
  intros H. destruct (findAtom i l) as [a|] eqn:E; [|reflexivity].
  apply findAtom_id in E. destruct E as [Hin Hid].
  elim H. rewrite <- Hid. apply in_map. exact Hin.
Qed.

Lemma In_hydrogensFor (atom : Atom) (n : Z) (g : nat) (h : Atom) :
  In h (hydrogensFor atom n g) ->
  element h = "H"
  /\ exists j, (j < Z.to_nat n)%nat /\ id h = uuidv4 (g + 2 * j)%nat.
Proof.
  unfold hydrogensFor. rewrite in_map_iff. intros (j & <- & Hj).
  apply in_seq in Hj.
  split; [reflexivity|]. exists j. split; [lia|reflexivity].
Qed.

Lemma In_bondsFor (atom : Atom) (n : Z) (g : nat) (b : Bond) :
  In b (bondsFor atom n g) ->
  sourceAtomId b = id atom
  /\ exists h, In h (hydrogensFor atom n g) /\ targetAtomId b = id h.
Proof.
  unfold bondsFor, hydrogensFor. rewrite in_map_iff. intros (j & <- & Hj).
  split; [reflexivity|].
  exists (loopAtom atom (angleStepFor n) 0 g j). split; [|reflexivity].
  apply in_map. exact Hj.
Qed.

Lemma hydrogensFor_bonded (atom : Atom) (n : Z) (g : nat) (h : Atom) :
  In h (hydrogensFor atom n g) ->
  exists b, In b (bondsFor atom n g)
            /\ sourceAtomId b = id atom /\ targetAtomId b = id h.
Proof.
  unfold bondsFor, hydrogensFor. rewrite in_map_iff. intros (j & <- & Hj).
  exists (loopBond atom g j). split; [apply in_map; exact Hj|].
  split; reflexivity.
Qed.

Lemma hydrogensFor_length (atom : Atom) (n : Z) (g : nat) :
  List.length (hydrogensFor atom n g) = Z.to_nat n.
Proof. unfold hydrogensFor. rewrite length_map, length_seq. reflexivity. Qed.

(** ** Bond type change: the shape of one iteration *)

Lemma Molecule_eta (molecule : Molecule) :
  {| atoms := atoms molecule; bonds := bonds molecule |} = molecule.
Proof. destruct molecule; reflexivity. Qed.

Lemma stripHydrogens_atoms (atomId : string) (molecule : Molecule) :
  atoms (stripHydrogens atomId molecule)
  = filter (fun a => negb (connectedH atomId molecule (id a))) (atoms molecule).
Proof.
  unfold stripHydrogens, removeByIds. cbn [atoms]. apply filter_ext. intros a.
  rewrite includes_connected_ids. reflexivity.
Qed.

Lemma stripHydrogens_bonds (atomId : string) (molecule : Molecule) :
  bonds (stripHydrogens atomId molecule)
  = filter (fun b => negb (connectedH atomId molecule (sourceAtomId b))
                     && negb (connectedH atomId molecule (targetAtomId b)))
           (bonds molecule).
Proof.
  unfold stripHydrogens, removeByIds. cbn [bonds]. apply filter_ext. intros b.
  rewrite !includes_connected_ids. reflexivity.
Qed.

Lemma getRequiredHydrogens_nonneg (atom : Atom) (l : list Bond) :
  0 <= getRequiredHydrogens atom l.
Proof.
  unfold getRequiredHydrogens.
  destruct (getBestValenceForBondCount _ _) as [t|]; [|lia].
  destruct (t =? 0); lia.
Qed.

Lemma addHydrogensToAtom_closed_form (atom : Atom) (molecule : Molecule) (g : nat) :
  let n := getRequiredHydrogens atom (bonds molecule) in
  addHydrogensToAtom atom molecule g
  = ({| atoms := atoms molecule ++ hydrogensFor atom n g;
        bonds := bonds molecule ++ bondsFor atom n g |},
     (g + 2 * Z.to_nat n)%nat).
Proof.
  intros n. unfold addHydrogensToAtom. fold n.
  destruct (Z_le_gt_dec n 0) as [Hle|Hgt].
  - rewrite addSpecificHydrogens_nonpositive by exact Hle.
    unfold hydrogensFor, bondsFor. replace (Z.to_nat n) with 0%nat by lia.
    cbn [seq map]. rewrite !app_nil_r, Molecule_eta. f_equal. lia.
  - rewrite addSpecificHydrogens_closed_form by lia. reflexivity.
Qed.

(** An iteration for an id that is found and is not a hydrogen strips the
    hydrogens of the atom and appends the required number of new ones. *)
Lemma reconcileAtom_heavy (molecule : Molecule) (g : nat) (atomId : string) (atom : Atom) :
  findAtom atomId (atoms molecule) = Some atom ->
  (element atom =? "H")%string = false ->
  let stripped := stripHydrogens atomId molecule in
  let n := getRequiredHydrogens atom (bonds stripped) in
  reconcileAtom (molecule, g) atomId
  = ({| atoms := atoms stripped ++ hydrogensFor atom n g;
        bonds := bonds stripped ++ bondsFor atom n g |},
     (g + 2 * Z.to_nat n)%nat).
Proof.
  intros Hfind Hel stripped n. unfold reconcileAtom. rewrite Hfind, Hel.
  fold stripped. fold n.
  destruct (Z.ltb_spec 0 n) as [Hpos|Hle].
  - apply addHydrogensToAtom_closed_form.
  - unfold hydrogensFor, bondsFor. replace (Z.to_nat n) with 0%nat by lia.
    cbn [seq map]. rewrite !app_nil_r, Molecule_eta. f_equal. lia.
Qed.

(** An iteration for any other id changes nothing. *)
Lemma reconcileAtom_skip (molecule : Molecule) (g : nat) (atomId : string) :
  isHeavyId molecule atomId = false ->
  reconcileAtom (molecule, g) atomId = (molecule, g).
Proof.
  unfold isHeavyId, reconcileAtom.
  destruct (findAtom atomId (atoms molecule)) as [atom|]; [|reflexivity].
  destruct (element atom =? "H")%string; [reflexivity|discriminate].
Qed.

Lemma isHeavyId_found (molecule : Molecule) (atomId : string) :
  isHeavyId molecule atomId = true ->
  exists atom, findAtom atomId (atoms molecule) = Some atom
               /\ (element atom =? "H")%string = false.
Proof.
  unfold isHeavyId.
  destruct (findAtom atomId (atoms molecule)) as [atom|]; [|discriminate].
  intros H. exists atom. split; [reflexivity|]. apply negb_true_iff. exact H.
Qed.

(** ** Hydrogens that are not shared *)

(** The hydrogens of an atom whose hydrogens are exclusive are hydrogens of
    no other id, unless that id is one of these hydrogens itself. *)
Lemma Exclusive_disjoint (a x : string) (molecule : Molecule) (i : string) :
  Exclusive a molecule ->
  connectedH a molecule x = false -> x <> a ->
  connectedH a molecule i = true -> connectedH x molecule i = false.
Proof.
  intros Hex Hx Hxa Ha.
  destruct (connectedH x molecule i) eqn:Hxi; [exfalso|reflexivity].
  apply connectedH_true_iff in Hxi. destruct Hxi as (_ & _ & b & Hb & Hl).
  pose proof (Hex i b Ha Hb (proj1 (linksTo_touches _ _ _ Hl))) as Hl'.
  apply linksTo_true_iff in Hl. apply linksTo_true_iff in Hl'.
  destruct Hl as [[Hs Ht]|(Hs & Ht & Hs')];
    destruct Hl' as [[Hs2 Ht2]|(Hs2 & Ht2 & Hs2')]; try congruence.
Qed.

Lemma filter_filter_comm {A : Type} (p q : A -> bool) (l : list A) :
  filter p (filter q l) = filter q (filter p l).
Proof.
  induction l as [|a l IH]; cbn [filter]; [reflexivity|].
  destruct (p a) eqn:Ep, (q a) eqn:Eq; cbn [filter]; rewrite ?Ep, ?Eq, IH; reflexivity.
Qed.

Lemma filter_filter_absorb {A : Type} (p q : A -> bool) (l : list A) :
  (forall a, In a l -> p a = true -> q a = true) ->
  filter p (filter q l) = filter p l.
Proof.
  intros H. induction l as [|a l IH]; cbn [filter]; [reflexivity|].
  assert (IH' : filter p (filter q l) = filter p l).
  { apply IH. intros b Hb. apply H. right. exact Hb. }
  destruct (q a) eqn:Eq; cbn [filter].
  - rewrite IH'. reflexivity.
  - destruct (p a) eqn:Ep; [|exact IH'].
    rewrite (H a (or_introl eq_refl) Ep) in Eq. discriminate.
Qed.

Lemma filter_none {A : Type} (p : A -> bool) (l : list A) :
  (forall a, In a l -> p a = false) -> filter p l = [].
Proof.
  intros H. induction l as [|a l IH]; cbn [filter]; [reflexivity|].
  rewrite (H a (or_introl eq_refl)). apply IH. intros b Hb. apply H. right. exact Hb.
Qed.

Lemma filter_all {A : Type} (p : A -> bool) (l : list A) :
  (forall a, In a l -> p a = true) -> filter p l = l.
Proof.
  intros H. induction l as [|a l IH]; cbn [filter]; [reflexivity|].
  rewrite (H a (or_introl eq_refl)). f_equal. apply IH. intros b Hb. apply H. right. exact Hb.
Qed.

Lemma bondWeight_touches (x : string) (b : Bond) :
  bondWeight x b = if touches x b then BOND_ORDER (type b) else 0.
Proof. reflexivity. Qed.

Lemma getAtomBondCount_untouched (x : string) (l : list Bond) :
  (forall b, In b l -> touches x b = false) -> getAtomBondCount x l = 0.
Proof.
  intros H. induction l as [|b l IH].
  - apply getAtomBondCount_nil.
  - rewrite getAtomBondCount_cons, bondWeight_touches, (H b (or_introl eq_refl)).
    rewrite IH; [reflexivity|]. intros b' Hb'. apply H. right. exact Hb'.
Qed.

Lemma getAtomBondCount_filter (x : string) (p : Bond -> bool) (l : list Bond) :
  (forall b, In b l -> touches x b = true -> p b = true) ->
  getAtomBondCount x (filter p l) = getAtomBondCount x l.
Proof.
  intros H. induction l as [|b l IH]; cbn [filter]; [reflexivity|].
  assert (IH' : getAtomBondCount x (filter p l) = getAtomBondCount x l).
  { apply IH. intros b' Hb'. apply H. right. exact Hb'. }
  rewrite (getAtomBondCount_cons x b l), bondWeight_touches.
  destruct (p b) eqn:Ep.
  - rewrite getAtomBondCount_cons, bondWeight_touches, IH'. reflexivity.
  - destruct (touches x b) eqn:Et.
    + rewrite (H b (or_introl eq_refl) Et) in Ep. discriminate.
    + rewrite IH'. lia.
Qed.

Lemma getRequiredHydrogens_same_count (atom : Atom) (l1 l2 : list Bond) :
  getAtomBondCount (id atom) l1 = getAtomBondCount (id atom) l2 ->
  getRequiredHydrogens atom l1 = getRequiredHydrogens atom l2.
Proof. unfold getRequiredHydrogens. intros ->. reflexivity. Qed.

(** ** Bond type change: what one iteration does *)

Section OneIteration.

(** An iteration for [atomId], which is found as the non-hydrogen [atom], in
    a molecule that the ids to come do not occur in. *)
Variables (molecule : Molecule) (g : nat) (atomId : string) (atom : Atom).
Hypothesis Hfind : findAtom atomId (atoms molecule) = Some atom.
Hypothesis Hheavy : (element atom =? "H")%string = false.
Hypothesis Hfresh : freshFrom g molecule.

Let n : Z := getRequiredHydrogens atom (bonds (stripHydrogens atomId molecule)).
Let after : Molecule := fst (reconcileAtom (molecule, g) atomId).
Let added : list Atom := hydrogensFor atom n g.

Lemma after_atoms :
  atoms after
  = filter (fun a => negb (connectedH atomId molecule (id a))) (atoms molecule) ++ added.
Proof.
  unfold after. rewrite (reconcileAtom_heavy _ _ _ _ Hfind Hheavy).
  cbn [fst atoms]. f_equal. apply stripHydrogens_atoms.
Qed.

Lemma after_bonds :
  bonds after
  = filter (fun b => negb (connectedH atomId molecule (sourceAtomId b))
                     && negb (connectedH atomId molecule (targetAtomId b)))
           (bonds molecule)
    ++ bondsFor atom n g.
Proof.
  unfold after. rewrite (reconcileAtom_heavy _ _ _ _ Hfind Hheavy).
  cbn [fst bonds]. f_equal. apply stripHydrogens_bonds.
Qed.

Lemma after_count :
  snd (reconcileAtom (molecule, g) atomId) = (g + 2 * Z.to_nat n)%nat.
Proof.
  rewrite (reconcileAtom_heavy _ _ _ _ Hfind Hheavy). reflexivity.
Qed.

Lemma In_after_atoms (a : Atom) :
  In a (atoms after) <->
  (In a (atoms molecule) /\ connectedH atomId molecule (id a) = false) \/ In a added.
Proof.
  rewrite after_atoms, in_app_iff, filter_In, negb_true_iff. reflexivity.
Qed.

Lemma In_after_bonds (b : Bond) :
  In b (bonds after) <->
  (In b (bonds molecule)
   /\ connectedH atomId molecule (sourceAtomId b) = false
   /\ connectedH atomId molecule (targetAtomId b) = false)
  \/ In b (bondsFor atom n g).
Proof.
  rewrite after_bonds, in_app_iff, filter_In, andb_true_iff, !negb_true_iff.
  reflexivity.
Qed.

Lemma atom_id : id atom = atomId.
Proof. apply (findAtom_id _ _ _ Hfind). Qed.

Lemma atomId_heavy : isHeavyId molecule atomId = true.
Proof. unfold isHeavyId. rewrite Hfind, Hheavy. reflexivity. Qed.

Lemma added_fresh (i : string) :
  In i (map id added) ->
  ~ In i (map id (atoms molecule))
  /\ forall b, In b (bonds molecule) -> touches i b = false.
Proof.
  rewrite in_map_iff. intros (h & <- & Hh).
  apply In_hydrogensFor in Hh. destruct Hh as [_ [j [_ ->]]].
  apply Hfresh. lia.
Qed.

Lemma added_found (i : string) :
  In i (map id added) -> isHydrogenId after i = true.
Proof.
  intros Hi. unfold isHydrogenId. rewrite after_atoms, findAtom_app.
  rewrite (findAtom_filter_id (fun i => negb (connectedH atomId molecule i))).
  rewrite (findAtom_missing _ _ (proj1 (added_fresh i Hi))).
  replace (if negb (connectedH atomId molecule i) then None else None)
    with (@None Atom) by (destruct (negb _); reflexivity).
  destruct (findAtom_present _ _ Hi) as [h Hh]. rewrite Hh.
  apply findAtom_id in Hh. destruct Hh as [Hin _].
  apply In_hydrogensFor in Hin. rewrite (proj1 Hin). reflexivity.
Qed.

Lemma findAtom_after_old (i : string) :
  ~ In i (map id added) ->
  findAtom i (atoms after)
  = if connectedH atomId molecule i then None else findAtom i (atoms molecule).
Proof.
  intros Hi. rewrite after_atoms, findAtom_app.
  rewrite (findAtom_filter_id (fun i => negb (connectedH atomId molecule i))).
  rewrite (findAtom_missing _ _ Hi).
  destruct (connectedH atomId molecule i); cbn [negb]; [reflexivity|].
  destruct (findAtom i (atoms molecule)); reflexivity.
Qed.

Lemma isHydrogenId_after_old (i : string) :
  ~ In i (map id added) ->
  isHydrogenId after i
  = isHydrogenId molecule i && negb (connectedH atomId molecule i).
Proof.
  intros Hi. unfold isHydrogenId. rewrite (findAtom_after_old i Hi).
  destruct (connectedH atomId molecule i); cbn [negb].
  - rewrite andb_false_r. reflexivity.
  - rewrite andb_true_r. reflexivity.
Qed.

Lemma isHeavyId_after (i : string) : isHeavyId after i = isHeavyId molecule i.
Proof.
  destruct (in_dec string_dec i (map id added)) as [Hi|Hi].
  - rewrite (isHydrogenId_not_heavy _ _ (added_found i Hi)).
    unfold isHeavyId. rewrite (findAtom_missing _ _ (proj1 (added_fresh i Hi))).
    reflexivity.
  - unfold isHeavyId at 1. rewrite (findAtom_after_old i Hi).
    destruct (connectedH atomId molecule i) eqn:E; [|reflexivity].
    symmetry. apply isHydrogenId_not_heavy.
    apply (connectedH_isHydrogenId _ _ _ E).
Qed.

Lemma findAtom_after_heavy (i : string) :
  isHeavyId molecule i = true ->
  findAtom i (atoms after) = findAtom i (atoms molecule).
Proof.
  intros Hh.
  assert (Hi : ~ In i (map id added)).
  { intros Hi. apply added_fresh in Hi. destruct Hi as [Hi _].
    apply isHeavyId_found in Hh. destruct Hh as (a & Ha & _).
    apply findAtom_id in Ha. destruct Ha as [Hin <-].
    apply Hi, in_map, Hin. }
  rewrite (findAtom_after_old i Hi), (connectedH_not_heavy _ _ _ Hh). reflexivity.
Qed.

(** *** The other atoms *)

Lemma old_bond_not_added (b : Bond) (i : string) :
  In b (bonds molecule) -> touches i b = true -> ~ In i (map id added).
Proof.
  intros Hb Ht Hi. apply added_fresh in Hi. rewrite (proj2 Hi b Hb) in Ht. discriminate.
Qed.

Lemma heavy_not_added (x : string) :
  isHeavyId molecule x = true -> ~ In x (map id added).
Proof.
  intros Hh Hi. apply added_fresh in Hi. destruct Hi as [Hi _].
  apply isHeavyId_found in Hh. destruct Hh as (a & Ha & _).
  apply findAtom_id in Ha. destruct Ha as [Hin <-]. apply Hi, in_map, Hin.
Qed.

Lemma added_bond_not_touching (x : string) (b : Bond) :
  ~ In x (map id added) -> x <> atomId ->
  In b (bondsFor atom n g) -> touches x b = false.
Proof.
  intros Hold Hx Hb. apply In_bondsFor in Hb. destruct Hb as (Hs & h & Hin & Ht).
  destruct (touches x b) eqn:E; [exfalso|reflexivity].
  apply touches_true_iff in E. destruct E as [E|E].
  - apply Hx. rewrite <- E, Hs. apply atom_id.
  - apply Hold. rewrite <- E, Ht. apply in_map. exact Hin.
Qed.

Section OtherAtom.

(** Another id [x]: not one of the new ids, not the id of a hydrogen of
    [atomId], and none of its hydrogens is a hydrogen of [atomId]. *)
Variable x : string.
Hypothesis Hxold : ~ In x (map id added).
Hypothesis Hxkept : connectedH atomId molecule x = false.
Hypothesis Hxa : x <> atomId.
Hypothesis Hdisjoint :
  forall i, connectedH x molecule i = true -> connectedH atomId molecule i = false.

Lemma connectedH_after_other (i : string) :
  connectedH x after i = connectedH x molecule i.
Proof.
  apply bool_ext. rewrite !connectedH_true_iff. split.
  - intros (Hi & Hh & b & Hb & Hl). split; [exact Hi|].
    apply In_after_bonds in Hb. destruct Hb as [(Hb & _)|Hb].
    + pose proof (old_bond_not_added b i Hb (proj1 (linksTo_touches _ _ _ Hl))) as Hold.
      rewrite (isHydrogenId_after_old i Hold) in Hh.
      apply andb_true_iff in Hh. split; [exact (proj1 Hh)|].
      exists b. split; assumption.
    + pose proof (added_bond_not_touching x b Hxold Hxa Hb) as Hnt.
      rewrite (proj2 (linksTo_touches _ _ _ Hl)) in Hnt. discriminate.
  - intros (Hi & Hh & b & Hb & Hl). split; [exact Hi|].
    assert (Hc : connectedH x molecule i = true).
    { apply connectedH_true_iff. split; [exact Hi|]. split; [exact Hh|].
      exists b. split; assumption. }
    pose proof (Hdisjoint i Hc) as Hd.
    pose proof (old_bond_not_added b i Hb (proj1 (linksTo_touches _ _ _ Hl))) as Hold.
    split.
    + rewrite (isHydrogenId_after_old i Hold), Hh, Hd. reflexivity.
    + exists b. split; [|exact Hl]. apply In_after_bonds. left.
      split; [exact Hb|].
      pose proof Hxkept as Hxn.
      apply linksTo_true_iff in Hl.
      destruct Hl as [[Es Et]|(_ & Et & Es)]; rewrite Es, Et; split; assumption.
Qed.

Lemma hydrogenCount_after_other :
  hydrogenCount x after = hydrogenCount x molecule.
Proof.
  unfold hydrogenCount. rewrite !getConnectedHydrogens_filter, after_atoms, filter_app.
  rewrite (filter_ext _ (fun a => connectedH x molecule (id a)))
    by (intros a; apply connectedH_after_other).
  rewrite (filter_ext (fun a => connectedH x after (id a))
                      (fun a => connectedH x molecule (id a)))
    by (intros a; apply connectedH_after_other).
  rewrite (filter_none _ added).
  - rewrite app_nil_r. f_equal. apply filter_filter_absorb.
    intros a _ Ha. rewrite (Hdisjoint _ Ha). reflexivity.
  - intros h Hh. destruct (connectedH x molecule (id h)) eqn:E; [exfalso|reflexivity].
    apply connectedH_isHydrogenId, isHydrogenId_atom in E.
    destruct E as (a & Hin & Hid & _).
    apply (proj1 (added_fresh (id h) (in_map id _ _ Hh))).
    rewrite <- Hid. apply in_map. exact Hin.
Qed.

Lemma strippedCount_after_other :
  getAtomBondCount x (bonds (stripHydrogens x after))
  = getAtomBondCount x (bonds (stripHydrogens x molecule)).
Proof.
  rewrite !stripHydrogens_bonds.
  rewrite (filter_ext _ (fun b => negb (connectedH x molecule (sourceAtomId b))
                                  && negb (connectedH x molecule (targetAtomId b))))
    by (intros b; rewrite !connectedH_after_other; reflexivity).
  rewrite after_bonds, filter_app, getAtomBondCount_app.
  rewrite (getAtomBondCount_untouched x (filter _ (bondsFor atom n g))).
  - rewrite Z.add_0_r, filter_filter_comm. apply getAtomBondCount_filter.
    intros b Hb Ht. apply filter_In in Hb. destruct Hb as [Hb Hk].
    apply andb_true_iff in Hk. destruct Hk as [Hks Hkt].
    apply negb_true_iff in Hks. apply negb_true_iff in Hkt.
    pose proof Hxkept as Hxn.
    assert (Hlink : forall e, e <> x -> touches e b = true ->
                              connectedH atomId molecule e = true ->
                              connectedH x molecule e = true).
    { intros e He Hte Hae. apply connectedH_true_iff in Hae.
      destruct Hae as (Hne & Hhe & _).
      apply connectedH_true_iff. split; [exact Hne|]. split; [exact Hhe|].
      exists b. split; [exact Hb|]. apply linksTo_true_iff.
      apply touches_true_iff in Ht. apply touches_true_iff in Hte.
      destruct (string_dec (sourceAtomId b) x) as [Es|Es].
      - left. split; [exact Es|]. destruct Hte as [Hte|Hte]; [congruence|exact Hte].
      - right. split; [exact Es|].
        destruct Ht as [Ht|Ht]; [contradiction|]. split; [exact Ht|].
        destruct Hte as [Hte|Hte]; [exact Hte|congruence]. }
    apply andb_true_iff. split; apply negb_true_iff.
    + destruct (connectedH atomId molecule (sourceAtomId b)) eqn:E; [exfalso|reflexivity].
      assert (He : sourceAtomId b <> x) by (intros He; rewrite He, Hxn in E; discriminate).
      rewrite (Hlink _ He) in Hks; [discriminate| |exact E].
      apply touches_true_iff. left. reflexivity.
    + destruct (connectedH atomId molecule (targetAtomId b)) eqn:E; [exfalso|reflexivity].
      assert (He : targetAtomId b <> x) by (intros He; rewrite He, Hxn in E; discriminate).
      rewrite (Hlink _ He) in Hkt; [discriminate| |exact E].
      apply touches_true_iff. right. reflexivity.
  - intros b Hb. apply filter_In in Hb.
    apply (added_bond_not_touching x b Hxold Hxa (proj1 Hb)).
Qed.

Lemma Exclusive_after_other :
  Exclusive x molecule -> Exclusive x after.
Proof.
  intros Hex i b Hi Hb Ht. rewrite connectedH_after_other in Hi.
  apply In_after_bonds in Hb. destruct Hb as [(Hb & _)|Hb].
  - apply (Hex i b Hi Hb Ht).
  - exfalso. apply In_bondsFor in Hb. destruct Hb as (Hs & h & Hin & Htg).
    pose proof (connectedH_isHydrogenId _ _ _ Hi) as Hhi.
    apply touches_true_iff in Ht. destruct Ht as [Ht|Ht].
    + pose proof atomId_heavy as Hah.
      rewrite <- atom_id, <- Hs, Ht in Hah.
      rewrite (isHydrogenId_not_heavy _ _ Hhi) in Hah. discriminate.
    + apply isHydrogenId_atom in Hhi. destruct Hhi as (a & Ha & Hid & _).
      apply (proj1 (added_fresh (id h) (in_map id _ _ Hin))).
      rewrite <- Htg, Ht, <- Hid. apply in_map. exact Ha.
Qed.

Lemma HydrogensOnly_after_other :
  HydrogensOnly x molecule -> HydrogensOnly x after.
Proof.
  intros Honly a Ha Hc. rewrite connectedH_after_other in Hc.
  apply In_after_atoms in Ha. destruct Ha as [[Ha _]|Ha].
  - apply (Honly a Ha Hc).
  - apply In_hydrogensFor in Ha. exact (proj1 Ha).
Qed.

End OtherAtom.

Lemma Reconciled_after_other (x : string) :
  isHeavyId molecule x = true -> x <> atomId ->
  (forall i, connectedH x molecule i = true -> connectedH atomId molecule i = false) ->
  Reconciled x molecule -> Reconciled x after.
Proof.
  intros Hx Hxa Hdisjoint Hrec a Ha Hel.
  pose proof (heavy_not_added x Hx) as Hxold.
  pose proof (connectedH_not_heavy atomId molecule x Hx) as Hxkept.
  rewrite (findAtom_after_heavy x Hx) in Ha.
  destruct (Hrec a Ha Hel) as (Hex & Honly & Hcount).
  split; [apply (Exclusive_after_other x Hxold Hxkept Hxa Hdisjoint Hex)|].
  split; [apply (HydrogensOnly_after_other x Hxold Hxkept Hxa Hdisjoint Honly)|].
  rewrite (hydrogenCount_after_other x Hxold Hxkept Hxa Hdisjoint), Hcount.
  apply getRequiredHydrogens_same_count.
  rewrite (proj2 (findAtom_id _ _ _ Ha)). symmetry.
  apply (strippedCount_after_other x Hxold Hxkept Hxa Hdisjoint).
Qed.

(** *** The atom itself *)

Section Itself.

Hypothesis uuidv4_nonempty : forall k, uuidv4 k <> "".

Lemma connectedH_after_self (i : string) :
  connectedH atomId after i = includes (map id added) i.
Proof.
  apply bool_ext. rewrite includes_In, connectedH_true_iff. split.
  - intros (Hi & Hh & b & Hb & Hl).
    destruct (in_dec string_dec i (map id added)) as [Hin|Hout]; [exact Hin|exfalso].
    rewrite (isHydrogenId_after_old i Hout) in Hh.
    apply andb_true_iff in Hh. destruct Hh as [Hh Hc]. apply negb_true_iff in Hc.
    apply In_after_bonds in Hb. destruct Hb as [(Hb & _)|Hb].
    + assert (Hc' : connectedH atomId molecule i = true).
      { apply connectedH_true_iff. split; [exact Hi|]. split; [exact Hh|].
        exists b. split; assumption. }
      congruence.
    + apply In_bondsFor in Hb. destruct Hb as (Hs & h & Hin & Ht).
      apply linksTo_true_iff in Hl. rewrite Hs, atom_id in Hl.
      destruct Hl as [[_ Hl]|[Hl _]]; [|apply Hl; reflexivity].
      apply Hout. rewrite <- Hl, Ht. apply in_map. exact Hin.
  - intros Hin. pose proof (added_found i Hin) as Hh.
    apply in_map_iff in Hin. destruct Hin as (h & <- & Hin).
    split.
    + destruct (In_hydrogensFor _ _ _ _ Hin) as [_ [j [_ ->]]]. apply uuidv4_nonempty.
    + split; [exact Hh|].
      destruct (hydrogensFor_bonded _ _ _ _ Hin) as (b & Hb & Hs & Ht).
      exists b. split; [apply In_after_bonds; right; exact Hb|].
      apply linksTo_true_iff. left. rewrite Hs, atom_id. split; [reflexivity|exact Ht].
Qed.

Lemma old_atom_not_added (a : Atom) :
  In a (atoms molecule) -> includes (map id added) (id a) = false.
Proof.
  intros Ha. apply includes_false. intros Hin.
  apply (proj1 (added_fresh _ Hin)). apply in_map. exact Ha.
Qed.

Lemma hydrogenCount_after_self :
  hydrogenCount atomId after = Z.to_nat n.
Proof.
  unfold hydrogenCount. rewrite getConnectedHydrogens_filter, after_atoms, filter_app.
  rewrite (filter_ext _ (fun a => includes (map id added) (id a)))
    by (intros a; apply connectedH_after_self).
  rewrite (filter_ext (fun a => connectedH atomId after (id a))
                      (fun a => includes (map id added) (id a)))
    by (intros a; apply connectedH_after_self).
  rewrite (filter_none _ (filter _ (atoms molecule))), (filter_all _ added).
  - apply hydrogensFor_length.
  - intros h Hh. apply includes_In. apply in_map. exact Hh.
  - intros a Ha. apply filter_In in Ha. apply old_atom_not_added. exact (proj1 Ha).
Qed.

Lemma stripHydrogens_after_self :
  stripHydrogens atomId after = stripHydrogens atomId molecule.
Proof.
  rewrite <- (Molecule_eta (stripHydrogens atomId after)).
  rewrite <- (Molecule_eta (stripHydrogens atomId molecule)).
  f_equal.
  - rewrite (stripHydrogens_atoms atomId after), after_atoms, filter_app.
    rewrite (filter_ext _ (fun a => negb (includes (map id added) (id a))))
      by (intros a; rewrite connectedH_after_self; reflexivity).
    rewrite (filter_ext (fun a => negb (connectedH atomId after (id a)))
                        (fun a => negb (includes (map id added) (id a))))
      by (intros a; rewrite connectedH_after_self; reflexivity).
    rewrite (filter_all _ (filter _ (atoms molecule))), (filter_none _ added).
    + rewrite app_nil_r. symmetry. apply stripHydrogens_atoms.
    + intros h Hh. apply negb_false_iff, includes_In, in_map, Hh.
    + intros a Ha. apply filter_In in Ha. apply negb_true_iff.
      apply old_atom_not_added. exact (proj1 Ha).
  - rewrite (stripHydrogens_bonds atomId after), after_bonds, filter_app.
    rewrite (filter_ext _ (fun b => negb (includes (map id added) (sourceAtomId b))
                                    && negb (includes (map id added) (targetAtomId b))))
      by (intros b; rewrite !connectedH_after_self; reflexivity).
    rewrite (filter_ext (fun b => negb (connectedH atomId after (sourceAtomId b))
                                  && negb (connectedH atomId after (targetAtomId b)))
                        (fun b => negb (includes (map id added) (sourceAtomId b))
                                  && negb (includes (map id added) (targetAtomId b))))
      by (intros b; rewrite !connectedH_after_self; reflexivity).
    rewrite (filter_all _ (filter _ (bonds molecule))), (filter_none _ (bondsFor atom n g)).
    + rewrite app_nil_r. symmetry. apply stripHydrogens_bonds.
    + intros b Hb. apply In_bondsFor in Hb. destruct Hb as (_ & h & Hin & Ht).
      apply andb_false_iff. right. apply negb_false_iff, includes_In.
      rewrite Ht. apply in_map. exact Hin.
    + intros b Hb. apply filter_In in Hb. destruct Hb as [Hb _].
      apply andb_true_iff. split; apply negb_true_iff, includes_false; intros Hin.
      * apply (old_bond_not_added b (sourceAtomId b) Hb); [|exact Hin].
        apply touches_true_iff. left. reflexivity.
      * apply (old_bond_not_added b (targetAtomId b) Hb); [|exact Hin].
        apply touches_true_iff. right. reflexivity.
Qed.

Lemma Exclusive_after_self : Exclusive atomId after.
Proof.
  intros i b Hi Hb Ht. rewrite connectedH_after_self in Hi. apply includes_In in Hi.
  apply In_after_bonds in Hb. destruct Hb as [(Hb & _)|Hb].
  - elim (old_bond_not_added b i Hb Ht Hi).
  - apply In_bondsFor in Hb. destruct Hb as (Hs & h & Hin & Htg).
    apply linksTo_true_iff. left. rewrite Hs, atom_id. split; [reflexivity|].
    apply touches_true_iff in Ht. destruct Ht as [Ht|Ht]; [exfalso|exact Ht].
    apply (heavy_not_added atomId atomId_heavy).
    rewrite <- atom_id, <- Hs, Ht. exact Hi.
Qed.

Lemma Reconciled_after_self : Reconciled atomId after.
Proof.
  intros a Ha _. rewrite (findAtom_after_heavy atomId atomId_heavy), Hfind in Ha.
  injection Ha as <-. split; [apply Exclusive_after_self|].
  split.
  { intros a Ha Hc. rewrite connectedH_after_self in Hc.
    apply In_after_atoms in Ha. destruct Ha as [[Ha _]|Ha].
    - rewrite (old_atom_not_added a Ha) in Hc. discriminate.
    - apply In_hydrogensFor in Ha. exact (proj1 Ha). }
  rewrite hydrogenCount_after_self, stripHydrogens_after_self.
  fold n. pose proof (getRequiredHydrogens_nonneg atom
                        (bonds (stripHydrogens atomId molecule))) as Hn.
  fold n in Hn. lia.
Qed.

(** Running the iteration on an atom that is reconciled already leaves it
    with as many hydrogens as it had. *)
Lemma hydrogenCount_rerun :
  Reconciled atomId molecule ->
  hydrogenCount atomId after = hydrogenCount atomId molecule.
Proof.
  intros Hrec. destruct (Hrec atom Hfind Hheavy) as (_ & _ & Hcount).
  rewrite hydrogenCount_after_self. fold n in Hcount. lia.
Qed.

End Itself.

(** *** The id supply *)

Lemma freshFrom_after :
  (forall i j, uuidv4 i = uuidv4 j -> i = j) ->
  freshFrom (g + 2 * Z.to_nat n)%nat after.
Proof.
  intros Hinj m Hm.
  assert (Hnew : forall h, In h added -> id h <> uuidv4 m).
  { intros h Hh. destruct (In_hydrogensFor _ _ _ _ Hh) as [_ [j [Hj ->]]].
    intros E. apply Hinj in E. lia. }
  destruct (Hfresh m ltac:(lia)) as [Hat Hbd]. split.
  - rewrite in_map_iff. intros (a & Hid & Ha). apply In_after_atoms in Ha.
    destruct Ha as [[Ha _]|Ha].
    + apply Hat. rewrite <- Hid. apply in_map. exact Ha.
    + apply (Hnew a Ha Hid).
  - intros b Hb. apply In_after_bonds in Hb. destruct Hb as [(Hb & _)|Hb].
    + apply Hbd. exact Hb.
    + apply In_bondsFor in Hb. destruct Hb as (Hs & h & Hin & Ht).
      destruct (touches (uuidv4 m) b) eqn:E; [exfalso|reflexivity].
      apply touches_true_iff in E. destruct E as [E|E].
      * apply Hat. rewrite <- E, Hs. apply in_map. apply (findAtom_id _ _ _ Hfind).
      * apply (Hnew h Hin). rewrite <- Ht. exact E.
Qed.

End OneIteration.

(** ** Bond type change: what is left alone *)

Lemma reconcileAtom_shape (molecule : Molecule) (g : nat) (atomId : string) :
  IterationShape g molecule (fst (reconcileAtom (molecule, g) atomId))
  /\ (g <= snd (reconcileAtom (molecule, g) atomId))%nat.
Proof.
  destruct (isHeavyId molecule atomId) eqn:Eh.
  - destruct (isHeavyId_found _ _ Eh) as (atom & Hfind & Hel).
    split; [|rewrite (after_count _ _ _ _ Hfind Hel); lia].
    exists (connectedH atomId molecule),
           (hydrogensFor atom (getRequiredHydrogens
                                 atom (bonds (stripHydrogens atomId molecule))) g),
           (bondsFor atom (getRequiredHydrogens
                             atom (bonds (stripHydrogens atomId molecule))) g).
    split; [apply (after_atoms _ _ _ _ Hfind Hel)|].
    split; [apply (after_bonds _ _ _ _ Hfind Hel)|].
    split; [intros i; apply connectedH_isHydrogenId|].
    split.
    + intros h Hh. apply In_hydrogensFor in Hh. destruct Hh as [Hel' [j [_ Hj]]].
      split; [exact Hel'|]. exists (g + 2 * j)%nat. split; [lia|exact Hj].
    + intros b Hb. apply In_bondsFor in Hb. exact (proj2 Hb).
  - rewrite (reconcileAtom_skip _ _ _ Eh). split; [|cbn; lia].
    exists (fun _ => false), [], []. cbn [fst negb andb].
    rewrite !app_nil_r, !filter_true.
    split; [reflexivity|]. split; [reflexivity|].
    split; [discriminate|]. split; intros ? [].
Qed.

Section Frame.

Variables (g : nat) (before after : Molecule).
Hypothesis Hshape : IterationShape g before after.
Hypothesis Hfresh : freshFrom g before.
Hypothesis Hunique : NoDup (map id (atoms before)).

Lemma shape_heavy_atoms :
  filter (fun a => negb (element a =? "H")%string) (atoms after)
  = filter (fun a => negb (element a =? "H")%string) (atoms before).
Proof.
  destruct Hshape as (gone & na & nb & Ha & _ & Hgone & Hna & _).
  rewrite Ha, filter_app. rewrite (filter_none _ na).
  - rewrite app_nil_r. apply filter_filter_absorb.
    intros a Hin Hel. apply negb_true_iff.
    destruct (gone (id a)) eqn:E; [|reflexivity].
    rewrite (NoDup_hydrogen_ids before a Hunique Hin (Hgone _ E)) in Hel.
    discriminate.
  - intros h Hh. rewrite (proj1 (Hna h Hh)). reflexivity.
Qed.

Lemma shape_heavy_bonds :
  filter (heavyBond before) (bonds after) = filter (heavyBond before) (bonds before).
Proof.
  destruct Hshape as (gone & na & nb & _ & Hb & Hgone & Hna & Hnb).
  rewrite Hb, filter_app. rewrite (filter_none _ nb).
  - rewrite app_nil_r. apply filter_filter_absorb.
    intros b _ Hhb. unfold heavyBond in Hhb. apply andb_true_iff in Hhb.
    destruct Hhb as [Hs Ht].
    apply andb_true_iff. split; apply negb_true_iff.
    + destruct (gone (sourceAtomId b)) eqn:E; [|reflexivity].
      rewrite (isHydrogenId_not_heavy _ _ (Hgone _ E)) in Hs. discriminate.
    + destruct (gone (targetAtomId b)) eqn:E; [|reflexivity].
      rewrite (isHydrogenId_not_heavy _ _ (Hgone _ E)) in Ht. discriminate.
  - intros b Hin. destruct (Hnb b Hin) as (h & Hh & Ht).
    destruct (Hna h Hh) as [_ [k [Hk Hid]]].
    unfold heavyBond. apply andb_false_iff. right. rewrite Ht, Hid.
    unfold isHeavyId. rewrite findAtom_missing; [reflexivity|].
    apply (Hfresh k Hk).
Qed.

End Frame.

(** ** Bond type change: iterations in sequence *)

(** Unique ids stay unique when atoms are filtered out. *)
Lemma unique_ids_filter (keep : Atom -> bool) (atomList : list Atom) :
  NoDup (map id atomList) -> NoDup (map id (filter keep atomList)).
Proof.
  induction atomList as [|a rest IH]; cbn [map filter]; intros Hnd; [constructor|].
  inversion Hnd as [|? ? Hnotin Hrest]; subst.
  destruct (keep a); cbn [map]; [|apply IH; exact Hrest].
  constructor; [|apply IH; exact Hrest].
  intros Hin. apply Hnotin. apply in_map_iff in Hin. destruct Hin as (b & Hb & Hin).
  rewrite <- Hb. apply in_map. apply filter_In in Hin. exact (proj1 Hin).
Qed.

Lemma NoDup_map_on {A B : Type} (f : A -> B) (l : list A) :
  (forall a b, In a l -> In b l -> f a = f b -> a = b) ->
  NoDup l -> NoDup (map f l).
Proof.
  intros Hinj Hnd. induction Hnd as [|a l Hnotin Hnd IH]; cbn [map]; constructor.
  - intros Hin. apply in_map_iff in Hin. destruct Hin as (b & Hb & Hin).
    apply Hnotin. rewrite (Hinj a b); [exact Hin|left; reflexivity|right; exact Hin|].
    symmetry. exact Hb.
  - apply IH. intros b c Hb Hc. apply Hinj; right; assumption.
Qed.

Section Supply.

(** The contract of the id supply: no id twice, none empty. *)
Hypothesis uuidv4_injective : forall i j, uuidv4 i = uuidv4 j -> i = j.
Hypothesis uuidv4_nonempty : forall k, uuidv4 k <> "".

Lemma reconcileAtom_freshFrom (molecule : Molecule) (g : nat) (atomId : string) :
  freshFrom g molecule ->
  freshFrom (snd (reconcileAtom (molecule, g) atomId))
            (fst (reconcileAtom (molecule, g) atomId)).
Proof.
  intros Hfresh. destruct (isHeavyId molecule atomId) eqn:Eh.
  - destruct (isHeavyId_found _ _ Eh) as (atom & Hfind & Hel).
    rewrite (after_count _ _ _ _ Hfind Hel).
    apply (freshFrom_after _ _ _ _ Hfind Hel Hfresh uuidv4_injective).
  - rewrite (reconcileAtom_skip _ _ _ Eh). exact Hfresh.
Qed.

Lemma reconcileAtom_isHeavyId (molecule : Molecule) (g : nat) (atomId i : string) :
  freshFrom g molecule ->
  isHeavyId (fst (reconcileAtom (molecule, g) atomId)) i = isHeavyId molecule i.
Proof.
  intros Hfresh. destruct (isHeavyId molecule atomId) eqn:Eh.
  - destruct (isHeavyId_found _ _ Eh) as (atom & Hfind & Hel).
    apply (isHeavyId_after _ _ _ _ Hfind Hel Hfresh).
  - rewrite (reconcileAtom_skip _ _ _ Eh). reflexivity.
Qed.

Lemma Reconciled_not_heavy (molecule : Molecule) (atomId : string) :
  isHeavyId molecule atomId = false -> Reconciled atomId molecule.
Proof.
  intros Eh atom Hfind Hel. unfold isHeavyId in Eh. rewrite Hfind, Hel in Eh.
  discriminate.
Qed.

Lemma reconcileAtom_Reconciled_self (molecule : Molecule) (g : nat) (atomId : string) :
  freshFrom g molecule ->
  Reconciled atomId (fst (reconcileAtom (molecule, g) atomId)).
Proof.
  intros Hfresh. destruct (isHeavyId molecule atomId) eqn:Eh.
  - destruct (isHeavyId_found _ _ Eh) as (atom & Hfind & Hel).
    apply (Reconciled_after_self _ _ _ _ Hfind Hel Hfresh uuidv4_nonempty).
  - rewrite (reconcileAtom_skip _ _ _ Eh). apply Reconciled_not_heavy. exact Eh.
Qed.

Lemma reconcileAtom_Reconciled_other (molecule : Molecule) (g : nat)
      (atomId other : string) :
  freshFrom g molecule ->
  Reconciled other molecule ->
  Reconciled other (fst (reconcileAtom (molecule, g) atomId)).
Proof.
  intros Hfresh Hrec. destruct (isHeavyId molecule atomId) eqn:Eh.
  - destruct (string_dec other atomId) as [->|Hne].
    + apply reconcileAtom_Reconciled_self. exact Hfresh.
    + destruct (isHeavyId molecule other) eqn:Eo.
      * destruct (isHeavyId_found _ _ Eh) as (atom & Hfind & Hel).
        destruct (isHeavyId_found _ _ Eo) as (oatom & Hofind & Hoel).
        apply (Reconciled_after_other _ _ _ _ Hfind Hel Hfresh other Eo Hne);
          [|exact Hrec].
        intros i Hi. destruct (Hrec oatom Hofind Hoel) as (Hex & _).
        apply (Exclusive_disjoint other atomId molecule i Hex);
          [apply connectedH_not_heavy; exact Eh|congruence|exact Hi].
      * apply Reconciled_not_heavy. rewrite reconcileAtom_isHeavyId by exact Hfresh.
        exact Eo.
  - rewrite (reconcileAtom_skip _ _ _ Eh). exact Hrec.
Qed.

(** An iteration for an atom that is reconciled already keeps every atom
    that is not a hydrogen, with as many hydrogens as it had. *)
Lemma reconcileAtom_hydrogenCount_atom (molecule : Molecule) (g : nat)
      (atomId : string) (a : Atom) :
  freshFrom g molecule ->
  Reconciled atomId molecule ->
  In a (atoms molecule) -> element a <> "H" ->
  In a (atoms (fst (reconcileAtom (molecule, g) atomId)))
  /\ hydrogenCount (id a) (fst (reconcileAtom (molecule, g) atomId))
     = hydrogenCount (id a) molecule.
Proof.
  intros Hfresh Hrec Ha Hel. destruct (isHeavyId molecule atomId) eqn:Eh.
  - destruct (isHeavyId_found _ _ Eh) as (atom & Hfind & Helat).
    destruct (Hrec atom Hfind Helat) as (Hex & Honly & _).
    assert (Hkept : connectedH atomId molecule (id a) = false).
    { destruct (connectedH atomId molecule (id a)) eqn:E; [|reflexivity].
      elim Hel. apply (Honly a Ha E). }
    split.
    + apply (In_after_atoms _ _ _ _ Hfind Helat). left. split; assumption.
    + destruct (string_dec (id a) atomId) as [E|Hne].
      * rewrite E.
        apply (hydrogenCount_rerun _ _ _ _ Hfind Helat Hfresh uuidv4_nonempty Hrec).
      * apply (hydrogenCount_after_other _ _ _ _ Hfind Helat Hfresh (id a));
          [|exact Hkept|exact Hne|].
        -- intros Hin. apply (added_fresh _ _ _ _ Hfresh) in Hin.
           apply (proj1 Hin). apply in_map. exact Ha.
        -- intros i Hi. destruct (connectedH atomId molecule i) eqn:E; [|reflexivity].
           rewrite (Exclusive_disjoint atomId (id a) molecule i Hex Hkept Hne E) in Hi.
           discriminate.
  - rewrite (reconcileAtom_skip _ _ _ Eh). split; [exact Ha|reflexivity].
Qed.

Lemma reconcileAtom_NoDup (molecule : Molecule) (g : nat) (atomId : string) :
  freshFrom g molecule ->
  NoDup (map id (atoms molecule)) ->
  NoDup (map id (atoms (fst (reconcileAtom (molecule, g) atomId)))).
Proof.
  intros Hfresh Hnd. destruct (isHeavyId molecule atomId) eqn:Eh.
  - destruct (isHeavyId_found _ _ Eh) as (atom & Hfind & Hel).
    rewrite (after_atoms _ _ _ _ Hfind Hel), map_app.
    apply NoDup_app.
    + apply unique_ids_filter. exact Hnd.
    + unfold hydrogensFor. rewrite map_map. apply NoDup_map_on; [|apply seq_NoDup].
      intros a b _ _ E. cbn [loopAtom id] in E. apply uuidv4_injective in E. lia.
    + intros i Hi Hin. apply (added_fresh _ _ _ _ Hfresh) in Hin.
      apply (proj1 Hin). apply in_map_iff in Hi. destruct Hi as (a & Ha & Hi).
      rewrite <- Ha. apply in_map. apply filter_In in Hi. exact (proj1 Hi).
  - rewrite (reconcileAtom_skip _ _ _ Eh). exact Hnd.
Qed.

(** C4: with an id supply that repeats no id and yields no empty id, on a
    molecule that the ids to come do not occur in, a second run of
    [updateHydrogensAfterBondTypeChange] with the same two ids leaves every
    non-hydrogen atom in place with as many directly bonded hydrogens as
    the first run left it: every atom of the molecule that is not a
    hydrogen, and every id that the molecule resolves to such an atom. *)
Theorem bondTypeChange_twice_same_hydrogen_counts
        (sourceId targetId : string) (molecule : Molecule) (g : nat) :
  freshFrom g molecule ->
  let once := updateHydrogensAfterBondTypeChange sourceId targetId molecule g in
  let twice :=
    updateHydrogensAfterBondTypeChange sourceId targetId (fst once) (snd once) in
  (forall a, In a (atoms (fst once)) -> element a <> "H" ->
             In a (atoms (fst twice))
             /\ hydrogenCount (id a) (fst twice) = hydrogenCount (id a) (fst once))
  /\ (forall x, isHeavyId (fst once) x = true ->
                hydrogenCount x (fst twice) = hydrogenCount x (fst once)).
Proof.
  intros Hfresh once twice.
  unfold updateHydrogensAfterBondTypeChange in once. cbn [fold_left] in once.
  set (st1 := reconcileAtom (molecule, g) sourceId) in *.
  assert (Hf1 : freshFrom (snd st1) (fst st1))
    by (apply reconcileAtom_freshFrom; exact Hfresh).
  assert (Hr1 : Reconciled sourceId (fst st1))
    by (apply reconcileAtom_Reconciled_self; exact Hfresh).
  assert (Eonce : once = reconcileAtom (fst st1, snd st1) targetId)
    by (unfold once; destruct st1; reflexivity).
  assert (Hf2 : freshFrom (snd once) (fst once))
    by (rewrite Eonce; apply reconcileAtom_freshFrom; exact Hf1).
  assert (Hrs : Reconciled sourceId (fst once))
    by (rewrite Eonce; apply reconcileAtom_Reconciled_other; assumption).
  assert (Hrt : Reconciled targetId (fst once))
    by (rewrite Eonce; apply reconcileAtom_Reconciled_self; exact Hf1).
  unfold updateHydrogensAfterBondTypeChange in twice. cbn [fold_left] in twice.
  set (st3 := reconcileAtom (fst once, snd once) sourceId) in *.
  assert (Etwice : twice = reconcileAtom (fst st3, snd st3) targetId).
  { unfold twice. replace (fst once, snd once) with once by (destruct once; reflexivity).
    fold st3. destruct st3; reflexivity. }
  assert (Hf3 : freshFrom (snd st3) (fst st3))
    by (apply reconcileAtom_freshFrom; exact Hf2).
  assert (Hrt3 : Reconciled targetId (fst st3))
    by (apply reconcileAtom_Reconciled_other; assumption).
  assert (Hmain : forall a, In a (atoms (fst once)) -> element a <> "H" ->
                            In a (atoms (fst twice))
                            /\ hydrogenCount (id a) (fst twice)
                               = hydrogenCount (id a) (fst once)).
  { intros a Ha Hel. rewrite Etwice.
    destruct (reconcileAtom_hydrogenCount_atom (fst once) (snd once) sourceId a
                                               Hf2 Hrs Ha Hel) as [Ha3 Hc3].
    fold st3 in Ha3, Hc3.
    destruct (reconcileAtom_hydrogenCount_atom (fst st3) (snd st3) targetId a
                                               Hf3 Hrt3 Ha3 Hel) as [Ha4 Hc4].
    split; [exact Ha4|]. rewrite Hc4. exact Hc3. }
  split; [exact Hmain|].
  intros x Hx. destruct (isHeavyId_found _ _ Hx) as (a & Hfind & Hel).
  apply findAtom_id in Hfind. destruct Hfind as [Ha <-].
  apply (Hmain a Ha). apply String.eqb_neq. exact Hel.
Qed.

(** C10: with an id supply that repeats no id, on a molecule with unique
    atom ids that the ids to come do not occur in,
    [updateHydrogensAfterBondTypeChange] keeps the atoms that are not
    hydrogens, and the bonds between two non-hydrogen atoms, as they are and
    in their order; every atom that it removes or adds is a hydrogen; every
    bond that it removes touches a hydrogen that it removes, and every bond
    that it adds touches a hydrogen that it adds. *)
Theorem bondTypeChange_frame (sourceId targetId : string)
        (molecule : Molecule) (g : nat) :
  freshFrom g molecule ->
  NoDup (map id (atoms molecule)) ->
  let result :=
    fst (updateHydrogensAfterBondTypeChange sourceId targetId molecule g) in
  filter (fun a => negb (element a =? "H")%string) (atoms result)
  = filter (fun a => negb (element a =? "H")%string) (atoms molecule)
  /\ filter (heavyBond molecule) (bonds result)
     = filter (heavyBond molecule) (bonds molecule)
  /\ (forall a, In a (atoms molecule) -> ~ In a (atoms result) -> element a = "H")
  /\ (forall a, In a (atoms result) -> ~ In a (atoms molecule) -> element a = "H")
  /\ (forall b, In b (bonds molecule) -> ~ In b (bonds result) ->
                exists h, In h (atoms molecule) /\ ~ In h (atoms result)
                          /\ element h = "H" /\ touches (id h) b = true)
  /\ (forall b, In b (bonds result) -> ~ In b (bonds molecule) ->
                exists h, In h (atoms result) /\ ~ In h (atoms molecule)
                          /\ element h = "H" /\ touches (id h) b = true).
Proof.
  intros Hfresh Hunique result.
  unfold updateHydrogensAfterBondTypeChange in result. cbn [fold_left] in result.
  set (st1 := reconcileAtom (molecule, g) sourceId) in *.
  assert (Eres : result = fst (reconcileAtom (fst st1, snd st1) targetId))
    by (unfold result; destruct st1; reflexivity).
  destruct (reconcileAtom_shape molecule g sourceId) as [Hshape1 Hg1].
  destruct (reconcileAtom_shape (fst st1) (snd st1) targetId) as [Hshape2 _].
  fold st1 in Hshape1, Hg1. rewrite <- Eres in Hshape2.
  assert (Hfresh1 : freshFrom (snd st1) (fst st1))
    by (apply reconcileAtom_freshFrom; exact Hfresh).
  assert (Hunique1 : NoDup (map id (atoms (fst st1))))
    by (apply reconcileAtom_NoDup; assumption).
  assert (Hheavy1 : forall i, isHeavyId (fst st1) i = isHeavyId molecule i)
    by (intros i; apply reconcileAtom_isHeavyId; exact Hfresh).
  assert (Hatoms :
            filter (fun a => negb (element a =? "H")%string) (atoms result)
            = filter (fun a => negb (element a =? "H")%string) (atoms molecule)).
  { rewrite (shape_heavy_atoms _ _ _ Hshape2 Hunique1).
    apply (shape_heavy_atoms _ _ _ Hshape1 Hunique). }
  split; [exact Hatoms|].
  split.
  { rewrite <- (shape_heavy_bonds _ _ _ Hshape1 Hfresh).
    rewrite (filter_ext (heavyBond molecule) (heavyBond (fst st1)))
      by (intros b; unfold heavyBond; rewrite !Hheavy1; reflexivity).
    rewrite (filter_ext (heavyBond molecule) (heavyBond (fst st1)))
      by (intros b; unfold heavyBond; rewrite !Hheavy1; reflexivity).
    apply (shape_heavy_bonds _ _ _ Hshape2 Hfresh1). }
  split.
  { intros a Hin Hout. destruct (element a =? "H")%string eqn:E.
    - apply String.eqb_eq. exact E.
    - elim Hout.
      assert (H : In a (filter (fun a => negb (element a =? "H")%string)
                               (atoms molecule)))
        by (apply filter_In; rewrite E; auto).
      rewrite <- Hatoms in H. apply filter_In in H. exact (proj1 H). }
  split.
  { intros a Hin Hout. destruct (element a =? "H")%string eqn:E.
    - apply String.eqb_eq. exact E.
    - elim Hout.
      assert (H : In a (filter (fun a => negb (element a =? "H")%string)
                               (atoms result)))
        by (apply filter_In; rewrite E; auto).
      rewrite Hatoms in H. apply filter_In in H. exact (proj1 H). }
  destruct Hshape1 as (c1 & A1 & B1 & Ha1 & Hb1 & Hgone1 & HA1 & HB1).
  destruct Hshape2 as (c2 & A2 & B2 & Ha2 & Hb2 & Hgone2 & HA2 & HB2).
  assert (FA1 : forall h, In h A1 ->
                          ~ In h (atoms molecule)
                          /\ forall b, In b (bonds molecule) -> touches (id h) b = false).
  { intros h Hh. destruct (HA1 h Hh) as [_ [k [Hk Hid]]].
    destruct (Hfresh k Hk) as [Hat Hbd]. rewrite Hid. split; [|exact Hbd].
    intros Hin. apply Hat. rewrite <- Hid. apply in_map. exact Hin. }
  assert (FA2 : forall h, In h A2 -> ~ In h (atoms molecule)).
  { intros h Hh. destruct (HA2 h Hh) as [_ [k [Hk Hid]]].
    destruct (Hfresh k ltac:(lia)) as [Hat _].
    intros Hin. apply Hat. rewrite <- Hid. apply in_map. exact Hin. }
  assert (Hlost1 : forall h, In h (atoms molecule) -> c1 (id h) = true ->
                             ~ In h (atoms result)).
  { intros h Hin Hc. rewrite Ha2, in_app_iff, filter_In. intros [[H1 _]|H2].
    - rewrite Ha1, in_app_iff, filter_In in H1. destruct H1 as [[_ H1]|H1].
      + rewrite Hc in H1. discriminate.
      + apply (proj1 (FA1 h H1)). exact Hin.
    - apply (FA2 h H2). exact Hin. }
  assert (Hlost2 : forall h, In h (atoms molecule) -> c2 (id h) = true ->
                             ~ In h (atoms result)).
  { intros h Hin Hc. rewrite Ha2, in_app_iff, filter_In. intros [[_ H1]|H2].
    - rewrite Hc in H1. discriminate.
    - apply (FA2 h H2). exact Hin. }
  split.
  - intros b Hb Hout.
    destruct (negb (c1 (sourceAtomId b)) && negb (c1 (targetAtomId b))) eqn:Ek1.
    + assert (Hb1' : In b (bonds (fst st1))).
      { rewrite Hb1, in_app_iff, filter_In. left. split; assumption. }
      destruct (negb (c2 (sourceAtomId b)) && negb (c2 (targetAtomId b))) eqn:Ek2.
      { elim Hout. rewrite Hb2, in_app_iff, filter_In. left. split; assumption. }
      assert (He : exists e, c2 e = true /\ touches e b = true).
      { apply andb_false_iff in Ek2. destruct Ek2 as [E|E]; apply negb_false_iff in E.
        - exists (sourceAtomId b). split; [exact E|].
          apply touches_true_iff. left. reflexivity.
        - exists (targetAtomId b). split; [exact E|].
          apply touches_true_iff. right. reflexivity. }
      destruct He as (e & Hc & Ht).
      destruct (isHydrogenId_atom _ _ (Hgone2 e Hc)) as (h & Hin & Hid & Hel).
      assert (Hin0 : In h (atoms molecule)).
      { rewrite Ha1, in_app_iff, filter_In in Hin. destruct Hin as [[Hin _]|Hin].
        - exact Hin.
        - exfalso. pose proof (proj2 (FA1 h Hin) b Hb) as Hnt.
          rewrite Hid, Ht in Hnt. discriminate. }
      exists h. split; [exact Hin0|]. split; [|split; [exact Hel|rewrite Hid; exact Ht]].
      apply Hlost2; [exact Hin0|rewrite Hid; exact Hc].
    + assert (He : exists e, c1 e = true /\ touches e b = true).
      { apply andb_false_iff in Ek1. destruct Ek1 as [E|E]; apply negb_false_iff in E.
        - exists (sourceAtomId b). split; [exact E|].
          apply touches_true_iff. left. reflexivity.
        - exists (targetAtomId b). split; [exact E|].
          apply touches_true_iff. right. reflexivity. }
      destruct He as (e & Hc & Ht).
      destruct (isHydrogenId_atom _ _ (Hgone1 e Hc)) as (h & Hin & Hid & Hel).
      exists h. split; [exact Hin|]. split; [|split; [exact Hel|rewrite Hid; exact Ht]].
      apply Hlost1; [exact Hin|rewrite Hid; exact Hc].
  - intros b Hb Hout. rewrite Hb2, in_app_iff, filter_In in Hb.
    destruct Hb as [[Hb Hk2]|Hb].
    + rewrite Hb1, in_app_iff, filter_In in Hb. destruct Hb as [[Hb _]|Hb].
      * contradiction.
      * destruct (HB1 b Hb) as (h & Hh & Ht).
        exists h. apply andb_true_iff in Hk2. destruct Hk2 as [_ Hk2].
        split.
        { rewrite Ha2, in_app_iff, filter_In. left. split.
          - rewrite Ha1, in_app_iff. right. exact Hh.
          - rewrite <- Ht. exact Hk2. }
        split; [exact (proj1 (FA1 h Hh))|].
        split; [exact (proj1 (HA1 h Hh))|].
        apply touches_true_iff. right. exact Ht.
    + destruct (HB2 b Hb) as (h & Hh & Ht).
      exists h. split; [rewrite Ha2, in_app_iff; right; exact Hh|].
      split; [exact (FA2 h Hh)|].
      split; [exact (proj1 (HA2 h Hh))|].
      apply touches_true_iff. right. exact Ht.
Qed.

End Supply.

(** * Further properties of the manager *)

(** ** Bond accounting *)

(** X1: the bond-order sum of an atom does not depend on the order in which
    the bonds are listed. *)
Theorem getAtomBondCount_any_order (atomId : string) (l1 l2 : list Bond) :
  Permutation l1 l2 -> getAtomBondCount atomId l1 = getAtomBondCount atomId l2.
Proof.
  intros HP. induction HP as [|b l l' _ IH|a b l|l l' l'' _ IH1 _ IH2].
  - reflexivity.
  - rewrite !getAtomBondCount_cons, IH. reflexivity.
  - rewrite !getAtomBondCount_cons. lia.
  - rewrite IH1. exact IH2.
Qed.

(** X2: the bond-order sum of an atom is 0 exactly when no bond of the list
    has the atom as its source or as its target. *)
Theorem getAtomBondCount_zero_iff (atomId : string) (l : list Bond) :
  getAtomBondCount atomId l = 0
  <-> forall b, In b l -> sourceAtomId b <> atomId /\ targetAtomId b <> atomId.
Proof.
  split.
  - induction l as [|b l IH]; intros H0 b' Hin; [destruct Hin|].
    rewrite getAtomBondCount_cons, bondWeight_touches in H0.
    pose proof (getAtomBondCount_nonneg atomId l) as Hl.
    pose proof (BOND_ORDER_pos (type b)) as Hb.
    destruct (touches atomId b) eqn:Et; [lia|].
    destruct Hin as [<-|Hin]; [|apply IH; [lia|exact Hin]].
    split; intros E; (assert (Ht : touches atomId b = true);
                      [apply touches_true_iff; auto|congruence]).
  - intros Hno. apply getAtomBondCount_untouched. intros b Hin.
    destruct (touches atomId b) eqn:Et; [|reflexivity].
    apply touches_true_iff in Et. destruct (Hno b Hin) as [Hs Ht].
    destruct Et; contradiction.
Qed.

(** ** Connected hydrogens *)

Lemma linksTo_plain (atomId i : string) (b : Bond) :
  linksTo atomId i b = true <->
  (sourceAtomId b = atomId /\ targetAtomId b = i)
  \/ (targetAtomId b = atomId /\ sourceAtomId b = i).
Proof.
  rewrite linksTo_true_iff. split.
  - intros [H|(_ & Ht & Hs)]; [left; exact H|right; split; assumption].
  - intros [H|[Ht Hs]]; [left; exact H|].
    destruct (string_dec (sourceAtomId b) atomId) as [E|Hne].
    + left. split; [exact E|]. congruence.
    + right. split; [exact Hne|]. split; assumption.
Qed.

(** X3: in a molecule whose atom ids are unique, [getConnectedHydrogens]
    returns, in the order of the atom list and each once, exactly the atoms
    of element H with a non-empty id that some bond joins to [atomId] (in
    either direction). *)
Theorem getConnectedHydrogens_unique_ids (atomId : string) (molecule : Molecule) :
  NoDup (map id (atoms molecule)) ->
  let connected := getConnectedHydrogens atomId molecule in
  Subsequence connected (atoms molecule)
  /\ NoDup (map id connected)
  /\ forall h, In h connected <->
               In h (atoms molecule) /\ element h = "H" /\ id h <> ""
               /\ exists b, In b (bonds molecule)
                            /\ ((sourceAtomId b = atomId /\ targetAtomId b = id h)
                                \/ (targetAtomId b = atomId /\ sourceAtomId b = id h)).
Proof.
  intros Hnd connected. unfold connected. rewrite getConnectedHydrogens_filter.
  split; [apply Subsequence_filter|].
  split; [apply unique_ids_filter; exact Hnd|].
  intros h. rewrite filter_In, connectedH_true_iff. split.
  - intros (Hin & Hne & Hh & b & Hb & Hl).
    split; [exact Hin|]. split; [apply (NoDup_hydrogen_ids molecule h Hnd Hin Hh)|].
    split; [exact Hne|]. exists b. split; [exact Hb|]. apply linksTo_plain. exact Hl.
  - intros (Hin & Hel & Hne & b & Hb & Hl).
    split; [exact Hin|]. split; [exact Hne|]. split.
    + unfold isHydrogenId. rewrite (findAtom_NoDup _ _ Hnd Hin), Hel. reflexivity.
    + exists b. split; [exact Hb|]. apply linksTo_plain. exact Hl.
Qed.

(** X4: [getConnectedHydrogens] reads the bonds as a set: two bond lists with
    the same members, in whatever order and with whatever repetitions (parallel
    bonds to one hydrogen), give the same hydrogens. *)
Theorem getConnectedHydrogens_bonds_as_set (atomId : string) (atomList : list Atom)
        (bonds1 bonds2 : list Bond) :
  (forall b, In b bonds1 <-> In b bonds2) ->
  getConnectedHydrogens atomId {| atoms := atomList; bonds := bonds1 |}
  = getConnectedHydrogens atomId {| atoms := atomList; bonds := bonds2 |}.
Proof.
  intros Hsame. rewrite !getConnectedHydrogens_filter. cbn [atoms].
  apply filter_ext. intros a. apply bool_ext.
  rewrite !connectedH_true_iff. unfold isHydrogenId. cbn [atoms bonds].
  split; intros (Hne & Hh & b & Hb & Hl);
    (split; [exact Hne|]; split; [exact Hh|]; exists b; split; [|exact Hl]);
    apply Hsame; exact Hb.
Qed.

(** ** After a bond is formed: what can go *)

Lemma without_nothing (molecule : Molecule) : without (fun _ => false) molecule = molecule.
Proof.
  destruct molecule as [al bl]. unfold without. cbn [atoms bonds negb andb].
  rewrite !filter_true. reflexivity.
Qed.

(** Whatever [updateHydrogensAfterBonding] does, it takes out the atoms
    under some ids that resolve to hydrogens, and the bonds that touch these
    ids. *)
Lemma updateHydrogensAfterBonding_without (atomId : string) (molecule : Molecule) :
  exists gone : string -> bool,
    updateHydrogensAfterBonding atomId molecule = without gone molecule
    /\ forall i, gone i = true -> isHydrogenId molecule i = true.
Proof.
  assert (Hsame : exists gone : string -> bool,
             molecule = without gone molecule
             /\ forall i, gone i = true -> isHydrogenId molecule i = true).
  { exists (fun _ => false). split; [symmetry; apply without_nothing|discriminate]. }
  unfold updateHydrogensAfterBonding.
  destruct (findAtom atomId (atoms molecule)) as [atom|]; [|exact Hsame].
  destruct (getBestValenceForBondCount _ _) as [t|]; [|exact Hsame].
  destruct (t =? 0); [exact Hsame|].
  destruct (_ <=? 0); [exact Hsame|].
  match goal with
  | |- context [removeByIds ?l molecule] => exists (includes l); set (ids := l)
  end.
  split; [reflexivity|].
  intros i Hi. apply includes_In in Hi. unfold ids in Hi.
  apply in_map_iff in Hi. destruct Hi as (h & <- & Hh).
  apply (Subsequence_In _ _ _ (Subsequence_firstn _ _)) in Hh.
  rewrite getConnectedHydrogens_filter in Hh. apply filter_In in Hh.
  apply (connectedH_isHydrogenId atomId). exact (proj2 Hh).
Qed.

Lemma isHydrogenId_without (gone : string -> bool) (molecule : Molecule) (i : string) :
  isHydrogenId (without gone molecule) i = true -> isHydrogenId molecule i = true.
Proof.
  unfold isHydrogenId, without. cbn [atoms].
  rewrite (findAtom_filter_id (fun i => negb (gone i))).
  destruct (negb (gone i)); [auto|discriminate].
Qed.

Lemma without_atoms_In (gone : string -> bool) (molecule : Molecule) (a : Atom) :
  In a (atoms (without gone molecule)) <-> In a (atoms molecule) /\ gone (id a) = false.
Proof.
  unfold without. cbn [atoms]. rewrite filter_In, negb_true_iff. reflexivity.
Qed.

Lemma without_bonds_In (gone : string -> bool) (molecule : Molecule) (b : Bond) :
  In b (bonds (without gone molecule)) <->
  In b (bonds molecule) /\ gone (sourceAtomId b) = false /\ gone (targetAtomId b) = false.
Proof.
  unfold without. cbn [bonds].
  rewrite filter_In, andb_true_iff, !negb_true_iff. reflexivity.
Qed.

(** A bond that [without] drops touches an atom that it drops, when [gone]
    holds of ids of the molecule only. *)
Lemma without_dropped_bond (gone : string -> bool) (molecule : Molecule) (b : Bond) :
  (forall i, gone i = true -> isHydrogenId molecule i = true) ->
  In b (bonds molecule) -> ~ In b (bonds (without gone molecule)) ->
  exists h, In h (atoms molecule) /\ ~ In h (atoms (without gone molecule))
            /\ touches (id h) b = true.
Proof.
  intros Hgone Hb Hout.
  assert (Hi : exists i, gone i = true /\ touches i b = true).
  { destruct (gone (sourceAtomId b)) eqn:Es.
    - exists (sourceAtomId b). split; [exact Es|]. apply touches_true_iff. now left.
    - destruct (gone (targetAtomId b)) eqn:Et.
      + exists (targetAtomId b). split; [exact Et|]. apply touches_true_iff. now right.
      + elim Hout. apply without_bonds_In. repeat split; assumption. }
  destruct Hi as (i & Hg & Ht).
  destruct (isHydrogenId_atom _ _ (Hgone i Hg)) as (h & Hh & Hid & _).
  exists h. split; [exact Hh|]. split; [|rewrite Hid; exact Ht].
  rewrite without_atoms_In, Hid, Hg. intros [_ E]. discriminate.
Qed.

Lemma Linked_without (gone : string -> bool) (molecule : Molecule) :
  Linked molecule -> Linked (without gone molecule).
Proof.
  intros Hl b Hb. apply without_bonds_In in Hb. destruct Hb as (Hb & Hs & Ht).
  destruct (Hl b Hb) as [Hsrc Htgt].
  split; [apply in_map_iff in Hsrc; destruct Hsrc as (a & Ha & Hin)
         |apply in_map_iff in Htgt; destruct Htgt as (a & Ha & Hin)];
    rewrite <- Ha; apply in_map; apply without_atoms_In;
    (split; [exact Hin|rewrite Ha; assumption]).
Qed.

Lemma WellFormed_without (gone : string -> bool) (molecule : Molecule) :
  WellFormed molecule -> WellFormed (without gone molecule).
Proof.
  intros [Hnd Hl]. split; [|apply Linked_without; exact Hl].
  unfold without. cbn [atoms]. apply unique_ids_filter. exact Hnd.
Qed.

(** X5: for an atom that is found and has a (non-zero) target valence [t],
    [updateHydrogensAfterBonding] returns the molecule as it is exactly when
    the bond-order sum does not exceed [t] or no hydrogen is connected. *)
Theorem updateHydrogensAfterBonding_unchanged_iff (atomId : string)
        (molecule : Molecule) (atom : Atom) (t : Z) :
  findAtom atomId (atoms molecule) = Some atom ->
  getBestValenceForBondCount (element atom)
                             (getAtomBondCount atomId (bonds molecule)) = Some t ->
  t <> 0 ->
  (updateHydrogensAfterBonding atomId molecule = molecule
   <-> getAtomBondCount atomId (bonds molecule) <= t
       \/ getConnectedHydrogens atomId molecule = []).
Proof.
  intros Hfind Hbest Ht. unfold updateHydrogensAfterBonding.
  rewrite Hfind, Hbest. apply Z.eqb_neq in Ht. rewrite Ht.
  set (connected := getConnectedHydrogens atomId molecule).
  set (c := getAtomBondCount atomId (bonds molecule)).
  destruct (Z.min (Z.max 0 (c - t)) (Z.of_nat (List.length connected)) <=? 0) eqn:En.
  - apply Z.leb_le in En. split; [intros _|reflexivity].
    destruct (Z_le_gt_dec c t) as [Hc|Hc]; [left; exact Hc|right].
    destruct connected as [|h rest]; [reflexivity|]. cbn [List.length] in En. lia.
  - apply Z.leb_gt in En. split.
    + intros Heq. exfalso.
      destruct connected as [|h rest] eqn:Ec; [cbn [List.length] in En; lia|].
      destruct (Z.to_nat (Z.min (Z.max 0 (c - t)) (Z.of_nat (List.length (h :: rest)))))
        as [|m] eqn:Em; [lia|].
      cbn [firstn map] in Heq.
      assert (Hin : In h (atoms molecule)).
      { assert (Hh : In h connected) by (rewrite Ec; left; reflexivity).
        unfold connected in Hh. rewrite getConnectedHydrogens_filter in Hh.
        apply filter_In in Hh. exact (proj1 Hh). }
      rewrite <- Heq in Hin. cbn [removeByIds atoms] in Hin.
      apply filter_In in Hin. destruct Hin as [_ Hin].
      cbn [includes existsb] in Hin. rewrite String.eqb_refl in Hin. discriminate.
    + intros [Hc|Hc]; [lia|]. rewrite Hc in En. cbn [List.length] in En. lia.
Qed.

(** X6: [updateMoleculeAfterBonding] only removes: the atoms and the bonds of
    the result are those of the input with some left out; the id of every
    atom that goes resolves to a hydrogen, and every bond that goes touches
    an atom that goes. *)
Theorem updateMoleculeAfterBonding_only_removes (sourceId targetId : string)
        (molecule : Molecule) :
  let result := updateMoleculeAfterBonding sourceId targetId molecule in
  Subsequence (atoms result) (atoms molecule)
  /\ Subsequence (bonds result) (bonds molecule)
  /\ (forall a, In a (atoms molecule) -> ~ In a (atoms result) ->
                exists h, findAtom (id a) (atoms molecule) = Some h /\ element h = "H")
  /\ (forall b, In b (bonds molecule) -> ~ In b (bonds result) ->
                exists h, In h (atoms molecule) /\ ~ In h (atoms result)
                          /\ (sourceAtomId b = id h \/ targetAtomId b = id h)).
Proof.
  unfold updateMoleculeAfterBonding. cbv zeta.
  destruct (updateHydrogensAfterBonding_without sourceId molecule) as (g1 & E1 & H1).
  rewrite E1.
  destruct (updateHydrogensAfterBonding_without targetId (without g1 molecule))
    as (g2 & E2 & H2).
  rewrite E2.
  assert (Hres : forall a, In a (atoms (without g2 (without g1 molecule))) ->
                           In a (atoms molecule)).
  { intros a Ha. apply without_atoms_In in Ha. destruct Ha as [Ha _].
    apply without_atoms_In in Ha. exact (proj1 Ha). }
  split; [apply (Subsequence_trans _ (atoms (without g1 molecule)));
          apply Subsequence_filter|].
  split; [apply (Subsequence_trans _ (bonds (without g1 molecule)));
          apply Subsequence_filter|].
  split.
  - intros a Hin Hout.
    assert (Hh : isHydrogenId molecule (id a) = true).
    { destruct (g1 (id a)) eqn:G1; [apply H1; exact G1|].
      destruct (g2 (id a)) eqn:G2; [apply (isHydrogenId_without g1), H2; exact G2|].
      elim Hout. apply without_atoms_In. split; [|exact G2].
      apply without_atoms_In. split; assumption. }
    unfold isHydrogenId in Hh.
    destruct (findAtom (id a) (atoms molecule)) as [h|]; [|discriminate].
    exists h. split; [reflexivity|]. apply String.eqb_eq. exact Hh.
  - intros b Hin Hout.
    assert (Hex : exists h, In h (atoms molecule)
                            /\ ~ In h (atoms (without g2 (without g1 molecule)))
                            /\ touches (id h) b = true).
    { destruct (negb (g1 (sourceAtomId b)) && negb (g1 (targetAtomId b))) eqn:Eb;
        [assert (Hb1 : In b (bonds (without g1 molecule)))
           by (apply filter_In; split; assumption)
        |assert (Hb1 : ~ In b (bonds (without g1 molecule)))
           by (intros Hb1; apply filter_In in Hb1; destruct Hb1 as [_ Hb1]; congruence)].
      - destruct (without_dropped_bond g2 _ b H2 Hb1 Hout) as (h & Hh & Hno & Ht).
        exists h. split; [apply without_atoms_In in Hh; exact (proj1 Hh)|].
        split; assumption.
      - destruct (without_dropped_bond g1 _ b H1 Hin Hb1) as (h & Hh & Hno & Ht).
        exists h. split; [exact Hh|]. split; [|exact Ht].
        intros Hres'. apply Hno. apply without_atoms_In in Hres'. exact (proj1 Hres'). }
    destruct Hex as (h & Hh & Hno & Ht). exists h.
    split; [exact Hh|]. split; [exact Hno|]. apply touches_true_iff. exact Ht.
Qed.

(** X8: [updateMoleculeAfterBonding] keeps a well-formed molecule
    well-formed: the atom ids stay unique and no bond is left dangling. *)
Theorem updateMoleculeAfterBonding_WellFormed (sourceId targetId : string)
        (molecule : Molecule) :
  WellFormed molecule ->
  WellFormed (updateMoleculeAfterBonding sourceId targetId molecule).
Proof.
  intros Hwf. unfold updateMoleculeAfterBonding. cbv zeta.
  destruct (updateHydrogensAfterBonding_without sourceId molecule) as (g1 & E1 & _).
  rewrite E1.
  destruct (updateHydrogensAfterBonding_without targetId (without g1 molecule))
    as (g2 & E2 & _).
  rewrite E2. apply WellFormed_without, WellFormed_without. exact Hwf.
Qed.

(** ** Appending hydrogens *)

Section Extension.

(** [newAtoms] are [k] hydrogens under the ids that the supply yields at
    [g], [g + 2], ..., bonded to [atom] by the bonds [loopBond atom g 0],
    ..., in a molecule that the ids of the supply from [g] on do not occur
    in. *)
Variables (atom : Atom) (molecule : Molecule) (g k : nat) (newAtoms : list Atom).
Hypothesis Hfresh : freshFrom g molecule.
Hypothesis Hids : map id newAtoms = map (fun j => uuidv4 (g + 2 * j)%nat) (seq 0 k).
Hypothesis Hhydrogens : Forall (fun h => element h = "H") newAtoms.

Let extended : Molecule :=
  {| atoms := atoms molecule ++ newAtoms;
     bonds := bonds molecule ++ map (loopBond atom g) (seq 0 k) |}.

Lemma new_id_index (i : string) :
  In i (map id newAtoms) <-> exists j, (j < k)%nat /\ i = uuidv4 (g + 2 * j)%nat.
Proof.
  rewrite Hids, in_map_iff. split.
  - intros (j & <- & Hj). apply in_seq in Hj. exists j. split; [lia|reflexivity].
  - intros (j & Hj & ->). exists j. split; [reflexivity|]. apply in_seq. lia.
Qed.

Lemma new_id_fresh (i : string) :
  In i (map id newAtoms) ->
  ~ In i (map id (atoms molecule))
  /\ forall b, In b (bonds molecule) -> touches i b = false.
Proof.
  intros Hi. apply new_id_index in Hi. destruct Hi as (j & _ & ->).
  apply Hfresh. lia.
Qed.

Lemma isHydrogenId_new (i : string) :
  In i (map id newAtoms) -> isHydrogenId extended i = true.
Proof.
  intros Hi. unfold isHydrogenId, extended. cbn [atoms].
  rewrite findAtom_app, (findAtom_missing _ _ (proj1 (new_id_fresh i Hi))).
  destruct (findAtom_present _ _ Hi) as [h Hh]. rewrite Hh.
  apply findAtom_id in Hh. destruct Hh as [Hin _].
  rewrite Forall_forall in Hhydrogens. rewrite (Hhydrogens h Hin). reflexivity.
Qed.

Lemma isHydrogenId_old (i : string) :
  In i (map id (atoms molecule)) -> isHydrogenId extended i = isHydrogenId molecule i.
Proof.
  intros Hi. unfold isHydrogenId, extended. cbn [atoms].
  rewrite findAtom_app. destruct (findAtom_present _ _ Hi) as [a Ha]. rewrite Ha.
  reflexivity.
Qed.

Lemma new_bond_index (b : Bond) :
  In b (map (loopBond atom g) (seq 0 k)) ->
  sourceAtomId b = id atom /\ type b = single
  /\ exists j, (j < k)%nat /\ targetAtomId b = uuidv4 (g + 2 * j)%nat.
Proof.
  rewrite in_map_iff. intros (j & <- & Hj). apply in_seq in Hj.
  split; [reflexivity|]. split; [reflexivity|]. exists j. split; [lia|reflexivity].
Qed.

Section NonEmptyIds.

Hypothesis uuidv4_nonempty : forall n, uuidv4 n <> "".

Lemma connectedH_new (i : string) :
  In i (map id newAtoms) -> connectedH (id atom) extended i = true.
Proof.
  intros Hi. apply connectedH_true_iff.
  pose proof (isHydrogenId_new i Hi) as Hh.
  apply new_id_index in Hi. destruct Hi as (j & Hj & ->).
  split; [apply uuidv4_nonempty|]. split; [exact Hh|].
  exists (loopBond atom g j). split.
  - unfold extended. cbn [bonds]. apply in_or_app. right. apply in_map.
    apply in_seq. lia.
  - apply linksTo_true_iff. left. split; reflexivity.
Qed.

Lemma connectedH_old (i : string) :
  In i (map id (atoms molecule)) ->
  connectedH (id atom) extended i = connectedH (id atom) molecule i.
Proof.
  intros Hi. apply bool_ext. rewrite !connectedH_true_iff, (isHydrogenId_old i Hi).
  split; intros (Hne & Hh & b & Hb & Hl);
    (split; [exact Hne|]; split; [exact Hh|]).
  - exists b. split; [|exact Hl]. unfold extended in Hb. cbn [bonds] in Hb.
    apply in_app_or in Hb. destruct Hb as [Hb|Hb]; [exact Hb|exfalso].
    apply new_bond_index in Hb. destruct Hb as (Hs & _ & j & Hj & Ht).
    apply linksTo_true_iff in Hl. destruct Hl as [[_ Hl]|[Hl _]]; [|contradiction].
    assert (Hnew : In i (map id newAtoms))
      by (apply new_id_index; exists j; split; [exact Hj|congruence]).
    apply (proj1 (new_id_fresh i Hnew)). exact Hi.
  - exists b. split; [|exact Hl]. unfold extended. cbn [bonds].
    apply in_or_app. left. exact Hb.
Qed.

Lemma getConnectedHydrogens_extended :
  getConnectedHydrogens (id atom) extended
  = getConnectedHydrogens (id atom) molecule ++ newAtoms.
Proof.
  rewrite !getConnectedHydrogens_filter. unfold extended at 2. cbn [atoms].
  rewrite filter_app. f_equal.
  - apply filter_ext_in. intros a Ha. apply connectedH_old. apply in_map. exact Ha.
  - apply filter_all. intros h Hh. apply connectedH_new. apply in_map. exact Hh.
Qed.

End NonEmptyIds.

Lemma getAtomBondCount_extended :
  getAtomBondCount (id atom) (bonds extended)
  = getAtomBondCount (id atom) (bonds molecule) + Z.of_nat k.
Proof.
  unfold extended. cbn [bonds].
  rewrite getAtomBondCount_app, bondCount_loopBonds, length_seq. reflexivity.
Qed.

Section AtomPresent.

Hypothesis Hpresent : In (id atom) (map id (atoms molecule)).

Lemma Linked_extended : Linked molecule -> Linked extended.
Proof.
  intros Hl b Hb. unfold extended in *. cbn [atoms bonds] in *.
  rewrite map_app. apply in_app_or in Hb. destruct Hb as [Hb|Hb].
  - destruct (Hl b Hb) as [Hs Ht]. split; apply in_or_app; left; assumption.
  - apply new_bond_index in Hb. destruct Hb as (Hs & _ & j & Hj & Ht). split.
    + rewrite Hs. apply in_or_app. left. exact Hpresent.
    + apply in_or_app. right. apply new_id_index. exists j. split; assumption.
Qed.

Hypothesis uuidv4_injective : forall i j, uuidv4 i = uuidv4 j -> i = j.

Lemma NoDup_extended :
  NoDup (map id (atoms molecule)) -> NoDup (map id (atoms extended)).
Proof.
  intros Hnd. unfold extended. cbn [atoms]. rewrite map_app. apply NoDup_app.
  - exact Hnd.
  - rewrite Hids. apply NoDup_map_on; [|apply seq_NoDup].
    intros a b _ _ E. apply uuidv4_injective in E. lia.
  - intros i Hi Hin. apply (proj1 (new_id_fresh i Hin)). exact Hi.
Qed.

Lemma freshFrom_extended : freshFrom (g + 2 * k)%nat extended.
Proof.
  intros n Hn.
  assert (Hnot : ~ In (uuidv4 n) (map id newAtoms)).
  { intros Hin. apply new_id_index in Hin. destruct Hin as (j & Hj & E).
    apply uuidv4_injective in E. lia. }
  destruct (Hfresh n ltac:(lia)) as [Hat Hbd].
  unfold extended. cbn [atoms bonds]. split.
  - rewrite map_app. intros Hin. apply in_app_or in Hin.
    destruct Hin as [Hin|Hin]; [exact (Hat Hin)|exact (Hnot Hin)].
  - intros b Hb. apply in_app_or in Hb. destruct Hb as [Hb|Hb]; [exact (Hbd b Hb)|].
    apply new_bond_index in Hb. destruct Hb as (Hs & _ & j & Hj & Ht).
    destruct (touches (uuidv4 n) b) eqn:E; [exfalso|reflexivity].
    apply touches_true_iff in E. destruct E as [E|E].
    + apply Hat. rewrite <- E, Hs. exact Hpresent.
    + apply Hnot. apply new_id_index. exists j. split; [exact Hj|congruence].
Qed.

End AtomPresent.

End Extension.

(** ** Simple placement: what the molecule gains *)

Lemma hydrogensFor_ids (atom : Atom) (n : Z) (g : nat) :
  map id (hydrogensFor atom n g)
  = map (fun j => uuidv4 (g + 2 * j)%nat) (seq 0 (Z.to_nat n)).
Proof. unfold hydrogensFor. rewrite map_map. reflexivity. Qed.

(** X17: the hydrogens that [addSpecificHydrogens] adds are found again by
    [getConnectedHydrogens]: when the ids to come do not occur in the molecule
    and none is empty, the connected hydrogens of the parent in the result are
    its former ones followed by the new hydrogens, in the order placed. *)
Theorem addSpecificHydrogens_connected (atom : Atom) (molecule : Molecule)
        (numberOfHydrogens : Z) (g : nat) :
  freshFrom g molecule ->
  (forall n, uuidv4 n <> "") ->
  let result := fst (addSpecificHydrogens atom molecule numberOfHydrogens g) in
  getConnectedHydrogens (id atom) result
  = getConnectedHydrogens (id atom) molecule
    ++ skipn (List.length (atoms molecule)) (atoms result).
Proof.
  intros Hfresh Hne result. unfold result.
  destruct (Z_lt_le_dec 0 numberOfHydrogens) as [Hpos|Hnonpos].
  - rewrite (addSpecificHydrogens_closed_form atom molecule _ g Hpos). cbn [fst atoms].
    rewrite skipn_app, skipn_all, Nat.sub_diag. cbn [skipn app].
    apply (getConnectedHydrogens_extended atom molecule g _ _ Hfresh).
    + rewrite map_map. reflexivity.
    + apply Forall_forall. intros h Hh. apply in_map_iff in Hh.
      destruct Hh as (j & <- & _). reflexivity.
    + exact Hne.
  - rewrite (addSpecificHydrogens_nonpositive atom molecule _ g Hnonpos). cbn [fst].
    rewrite skipn_all, app_nil_r. reflexivity.
Qed.

(** X18: [addHydrogensToAtom] for an atom of the molecule keeps a well-formed
    molecule well-formed when the supply repeats no id and its ids to come do
    not occur in the molecule; the ids that come after the call do not occur
    in the result either. *)
Theorem addHydrogensToAtom_WellFormed (atom : Atom) (molecule : Molecule) (g : nat) :
  (forall i j, uuidv4 i = uuidv4 j -> i = j) ->
  In atom (atoms molecule) ->
  freshFrom g molecule ->
  WellFormed molecule ->
  let result := addHydrogensToAtom atom molecule g in
  WellFormed (fst result) /\ freshFrom (snd result) (fst result).
Proof.
  intros Hinj Hin Hfresh [Hnd Hl] result. unfold result.
  rewrite addHydrogensToAtom_closed_form. cbn [fst snd]. unfold bondsFor.
  set (n := getRequiredHydrogens atom (bonds molecule)).
  pose proof (hydrogensFor_ids atom n g) as Hids.
  assert (Hpresent : In (id atom) (map id (atoms molecule))) by (apply in_map; exact Hin).
  split; [split|].
  - apply (NoDup_extended atom molecule g _ _ Hfresh Hids Hinj Hnd).
  - apply (Linked_extended atom molecule g _ _ Hids Hpresent Hl).
  - apply (freshFrom_extended atom molecule g _ _ Hfresh Hids Hpresent Hinj).
Qed.

(** X16: a second [addHydrogensToAtom] for the same atom adds nothing, when
    the valence lookup never answers above the sum it is asked about once
    that sum has reached an earlier answer (as a lookup that returns the
    smallest valence not below the sum, else the largest, does). *)
Theorem addHydrogensToAtom_twice (atom : Atom) (molecule : Molecule) (g : nat) :
  (forall s t t', getBestValenceForBondCount (element atom) s = Some t ->
                  getBestValenceForBondCount (element atom) (Z.max s t) = Some t' ->
                  t' <= Z.max s t) ->
  let once := addHydrogensToAtom atom molecule g in
  addHydrogensToAtom atom (fst once) (snd once) = once.
Proof.
  intros Hstable once.
  assert (Hzero : getRequiredHydrogens atom (bonds (fst once)) = 0).
  { unfold once. rewrite addHydrogensToAtom_closed_form. cbn [fst bonds].
    unfold getRequiredHydrogens at 1.
    rewrite getAtomBondCount_app. unfold bondsFor.
    rewrite bondCount_loopBonds, length_seq.
    pose proof (getRequiredHydrogens_nonneg atom (bonds molecule)) as Hn.
    rewrite Z2Nat.id by exact Hn.
    unfold getRequiredHydrogens in *.
    set (s := getAtomBondCount (id atom) (bonds molecule)) in *.
    destruct (getBestValenceForBondCount (element atom) s) as [t|] eqn:Es.
    - destruct (t =? 0) eqn:E0.
      + rewrite Z.add_0_r, Es, E0. reflexivity.
      + replace (s + Z.max 0 (t - s)) with (Z.max s t) by lia.
        destruct (getBestValenceForBondCount (element atom) (Z.max s t)) as [t'|] eqn:Es';
          [|reflexivity].
        pose proof (Hstable s t t' Es Es').
        destruct (t' =? 0); [reflexivity|lia].
    - rewrite Z.add_0_r, Es. reflexivity. }
  unfold addHydrogensToAtom at 1. rewrite Hzero.
  rewrite addSpecificHydrogens_nonpositive by lia.
  destruct once. reflexivity.
Qed.

(** ** After a bond is removed: what is added *)

(** The atoms and bonds that the placement loop makes. *)
Lemma placeLoop_shape (fuel : nat) (atom : Atom) (existingAtomAngles : list float)
      (k : nat) :
  forall existingPositions newAtoms newBonds g atoms' bonds' positions' g',
    placeLoop fuel k atom existingPositions existingAtomAngles newAtoms newBonds g
    = Some (atoms', bonds', positions', g') ->
    exists added,
      atoms' = newAtoms ++ added
      /\ bonds' = newBonds ++ map (loopBond atom g) (seq 0 k)
      /\ g' = (g + 2 * k)%nat
      /\ map id added = map (fun j => uuidv4 (g + 2 * j)%nat) (seq 0 k)
      /\ Forall (fun h => element h = "H") added.
Proof.
  induction k as [|k IH]; intros ex na nb g atoms' bonds' positions' g' Hrun;
    cbn [placeLoop] in Hrun.
  - injection Hrun as <- <- _ <-. exists []. rewrite !app_nil_r.
    repeat (split; [reflexivity || lia|]). constructor.
  - destruct (scanAngles fuel ex existingAtomAngles) as [[bestAngle m]|];
      [|discriminate].
    apply IH in Hrun. destruct Hrun as (added & -> & -> & -> & Hid & Hel).
    eexists (_ :: added). rewrite <- !app_assoc. cbn [app].
    split; [reflexivity|]. cbn [seq map]. rewrite <- seq_shift, !map_map.
    assert (Hshift : forall j, (S (S g) + 2 * j = g + 2 * S j)%nat) by (intros; lia).
    split; [|split; [lia|split]].
    + f_equal. f_equal.
      * unfold loopBond. rewrite Nat.mul_0_r, Nat.add_0_r. reflexivity.
      * apply map_ext. intros j. unfold loopBond. rewrite Hshift. reflexivity.
    + cbn [id]. rewrite Nat.mul_0_r, Nat.add_0_r. f_equal. rewrite Hid.
      apply map_ext. intros j. rewrite Hshift. reflexivity.
    + constructor; [reflexivity|exact Hel].
Qed.

(** What [updateHydrogensAfterBondRemoval] returns for a non-hydrogen atom
    that is found: the molecule extended by [k] hydrogens. *)
Lemma bondRemoval_extends (fuel : nat) (atomId : string)
      (molecule : Molecule) (g : nat) (atom : Atom) :
  (13 <= fuel)%nat ->
  findAtom atomId (atoms molecule) = Some atom ->
  element atom <> "H" ->
  let k := Z.to_nat (getRequiredHydrogens atom (bonds molecule)
                     - Z.of_nat (List.length (getConnectedHydrogens atomId molecule))) in
  exists added,
    updateHydrogensAfterBondRemoval fuel atomId molecule g
    = Some ({| atoms := atoms molecule ++ added;
               bonds := bonds molecule ++ map (loopBond atom g) (seq 0 k) |},
            (g + 2 * k)%nat)
    /\ map id added = map (fun j => uuidv4 (g + 2 * j)%nat) (seq 0 k)
    /\ Forall (fun h => element h = "H") added.
Proof.
  intros Hf Hfind Hel k.
  apply String.eqb_neq in Hel.
  unfold updateHydrogensAfterBondRemoval. rewrite Hfind, Hel. subst k.
  set (needed := getRequiredHydrogens atom (bonds molecule)).
  set (current := getConnectedHydrogens atomId molecule).
  destruct (Z.of_nat (List.length current) <? needed) eqn:Elt.
  - match goal with
    | |- context [placeLoop fuel ?k ?a ?ex ?aa [] [] g] =>
        destruct (placeLoop_angles fuel a aa k Hf ex [] [] g)
          as (na & nb & np & Heq & _)
    end.
    rewrite Heq. apply placeLoop_shape in Heq.
    destruct Heq as (added & Ha & Hb & _ & Hids & Hh).
    exists added. cbn [app] in Ha, Hb. subst na nb.
    split; [reflexivity|split; assumption].
  - apply Z.ltb_ge in Elt. exists [].
    replace (Z.to_nat (needed - Z.of_nat (List.length current))) with 0%nat by lia.
    cbn [seq map]. rewrite !app_nil_r, Nat.add_0_r.
    split; [destruct molecule; reflexivity|]. split; [reflexivity|constructor].
Qed.

(** X9: with enough fuel for the scans, [updateHydrogensAfterBondRemoval]
    on a non-hydrogen atom that is found returns; it removes nothing and
    appends, after the atoms and bonds that were there, exactly
    [max(0, needed - current)] hydrogens, where [needed] is
    [getRequiredHydrogens] and [current] the number of connected hydrogens:
    the [j]-th new hydrogen carries the id of call [g + 2j] of the supply and
    is joined to the atom by a single bond whose id is that of call
    [g + 2j + 1]. *)
Theorem updateHydrogensAfterBondRemoval_adds (fuel : nat) (atomId : string)
        (molecule : Molecule) (g : nat) (atom : Atom) :
  (13 <= fuel)%nat ->
  findAtom atomId (atoms molecule) = Some atom ->
  element atom <> "H" ->
  let k := Z.to_nat (getRequiredHydrogens atom (bonds molecule)
                     - Z.of_nat (List.length (getConnectedHydrogens atomId molecule))) in
  exists added,
    updateHydrogensAfterBondRemoval fuel atomId molecule g
    = Some ({| atoms := atoms molecule ++ added;
               bonds := bonds molecule
                        ++ map (fun j => {| bondId := uuidv4 (S (g + 2 * j));
                                            sourceAtomId := atomId;
                                            targetAtomId := uuidv4 (g + 2 * j)%nat;
                                            type := single |})
                               (seq 0 k) |},
            (g + 2 * k)%nat)
    /\ map id added = map (fun j => uuidv4 (g + 2 * j)%nat) (seq 0 k)
    /\ Forall (fun h => element h = "H") added.
Proof.
  intros Hf Hfind Hel k.
  destruct (bondRemoval_extends fuel atomId molecule g atom Hf Hfind Hel)
    as (added & Hrun & Hids & Hh).
  exists added. split; [|split; assumption].
  rewrite Hrun. fold k. f_equal. f_equal. f_equal. f_equal.
  apply map_ext. intros j. unfold loopBond.
  rewrite (proj2 (findAtom_id _ _ _ Hfind)). reflexivity.
Qed.

Lemma untouched_no_hydrogens (atomId : string) (molecule : Molecule) :
  (forall b, In b (bonds molecule) -> touches atomId b = false) ->
  getConnectedHydrogens atomId molecule = [].
Proof.
  intros Hno. rewrite getConnectedHydrogens_filter. apply filter_none. intros a _.
  destruct (connectedH atomId molecule (id a)) eqn:E; [exfalso|reflexivity].
  apply connectedH_true_iff in E. destruct E as (_ & _ & b & Hb & Hl).
  apply linksTo_touches in Hl. rewrite (Hno b Hb) in Hl. destruct Hl. discriminate.
Qed.

(** Around a parent without neighbours the scans pick the candidates in the
    order [aloneOrder]. *)
Lemma placeLoop_alone_positions (k : nat) (atom : Atom) (g : nat) :
  (k <= 12)%nat ->
  exists newAtoms newBonds newPositions g',
    placeLoop 13 k atom [] [] [] [] g = Some (newAtoms, newBonds, newPositions, g')
    /\ map position newAtoms
       = map (fun i => hydrogenPosition atom (candidate i)) (firstn k aloneOrder).
Proof.
  intros Hk.
  do 13 (destruct k as [|k];
         [set (run := placeLoop 13 _ atom [] [] [] [] g); vm_compute in run;
          do 4 eexists; split; [reflexivity|vm_compute; reflexivity]
         |]).
  lia.
Qed.

(** X15: a non-hydrogen atom that no bond touches and that needs [n <= 12]
    hydrogens gets them, after a bond removal, at the candidate angles number
    0, 6, 9, 3, 8, 10, 2, 1, 4, 5, 7, 11 of the scan, in this order: the first
    at angle 0, the second opposite, the next two at right angles to these
    (candidate [i] is the binary64 value reached after [i] increments of
    [Math.PI / 6]). *)
Theorem bondRemoval_lone_atom_positions (fuel : nat) (atomId : string)
        (molecule : Molecule) (g : nat) (atom : Atom) :
  (13 <= fuel)%nat ->
  findAtom atomId (atoms molecule) = Some atom ->
  element atom <> "H" ->
  (forall b, In b (bonds molecule) ->
             sourceAtomId b <> atomId /\ targetAtomId b <> atomId) ->
  getRequiredHydrogens atom (bonds molecule) <= 12 ->
  exists added newBonds g',
    updateHydrogensAfterBondRemoval fuel atomId molecule g
    = Some ({| atoms := atoms molecule ++ added;
               bonds := bonds molecule ++ newBonds |}, g')
    /\ map position added
       = map (fun i => hydrogenPosition atom (candidate i))
             (firstn (Z.to_nat (getRequiredHydrogens atom (bonds molecule))) aloneOrder).
Proof.
  intros Hf Hfind Hel Hno Hn.
  assert (Hno' : forall b, In b (bonds molecule) -> touches atomId b = false).
  { intros b Hb. destruct (touches atomId b) eqn:E; [exfalso|reflexivity].
    apply touches_true_iff in E. destruct (Hno b Hb). destruct E; contradiction. }
  apply String.eqb_neq in Hel.
  unfold updateHydrogensAfterBondRemoval. rewrite Hfind, Hel.
  rewrite (untouched_no_hydrogens atomId molecule Hno').
  rewrite (filter_none _ (bonds molecule)) by exact Hno'.
  cbn [List.length map definedNonHydrogens].
  set (n := getRequiredHydrogens atom (bonds molecule)) in *.
  destruct (Z.of_nat 0 <? n) eqn:Elt.
  - rewrite (placeLoop_fuel fuel atom [] _ Hf).
    destruct (placeLoop_alone_positions (Z.to_nat (n - Z.of_nat 0)) atom g ltac:(lia))
      as (na & nb & np & g' & Hrun & Hpos).
    rewrite Hrun. exists na, nb, g'. split; [reflexivity|].
    rewrite Hpos. f_equal. f_equal. lia.
  - apply Z.ltb_ge in Elt. exists [], [], g. rewrite !app_nil_r.
    split; [destruct molecule; reflexivity|].
    replace (Z.to_nat n) with 0%nat by lia. reflexivity.
Qed.

(** X10: when the ids to come do not occur in the molecule and none is
    empty, the atom has afterwards its former hydrogens followed by the new
    ones: their number is the larger of the former number and of
    [getRequiredHydrogens], and the bond-order sum of the atom has grown by
    the number of hydrogens added. *)
Theorem updateHydrogensAfterBondRemoval_hydrogen_count (fuel : nat) (atomId : string)
        (molecule : Molecule) (g : nat) (atom : Atom) :
  (13 <= fuel)%nat ->
  findAtom atomId (atoms molecule) = Some atom ->
  element atom <> "H" ->
  freshFrom g molecule ->
  (forall n, uuidv4 n <> "") ->
  let needed := getRequiredHydrogens atom (bonds molecule) in
  let current := Z.of_nat (List.length (getConnectedHydrogens atomId molecule)) in
  exists result g',
    updateHydrogensAfterBondRemoval fuel atomId molecule g = Some (result, g')
    /\ firstn (Z.to_nat current) (getConnectedHydrogens atomId result)
       = getConnectedHydrogens atomId molecule
    /\ Z.of_nat (List.length (getConnectedHydrogens atomId result))
       = Z.max current needed
    /\ getAtomBondCount atomId (bonds result)
       = getAtomBondCount atomId (bonds molecule) + Z.max 0 (needed - current).
Proof.
  intros Hf Hfind Hel Hfresh Hne needed current.
  destruct (bondRemoval_extends fuel atomId molecule g atom Hf Hfind Hel)
    as (added & Hrun & Hids & Hh).
  pose proof (proj2 (findAtom_id _ _ _ Hfind)) as Hid.
  eexists. eexists. split; [exact Hrun|].
  fold needed in Hrun |- *.
  set (k := Z.to_nat (needed - Z.of_nat (List.length (getConnectedHydrogens atomId molecule))))
    in *.
  assert (Hk : List.length added = k).
  { rewrite <- (length_map id), Hids, length_map, length_seq. reflexivity. }
  rewrite <- Hid.
  rewrite (getConnectedHydrogens_extended atom molecule g k added Hfresh Hids Hh Hne).
  rewrite (getAtomBondCount_extended atom molecule g k).
  rewrite Hid. subst current.
  split; [|split].
  - rewrite Nat2Z.id, firstn_app, Nat.sub_diag, firstn_all. cbn [firstn].
    apply app_nil_r.
  - rewrite length_app, Hk. unfold k. lia.
  - unfold k. lia.
Qed.

(** X11: [updateHydrogensAfterBondRemoval] keeps a well-formed molecule
    well-formed when the supply repeats no id and its ids to come do not occur
    in the molecule; the ids that come after the call do not occur in the
    result either, so calls can follow one another. *)
Theorem updateHydrogensAfterBondRemoval_WellFormed (fuel : nat) (atomId : string)
        (molecule : Molecule) (g : nat) :
  (13 <= fuel)%nat ->
  (forall i j, uuidv4 i = uuidv4 j -> i = j) ->
  freshFrom g molecule ->
  WellFormed molecule ->
  exists result g',
    updateHydrogensAfterBondRemoval fuel atomId molecule g = Some (result, g')
    /\ WellFormed result /\ freshFrom g' result.
Proof.
  intros Hf Hinj Hfresh [Hnd Hl].
  destruct (findAtom atomId (atoms molecule)) as [atom|] eqn:Hfind.
  - destruct (string_dec (element atom) "H") as [Hel|Hel].
    + exists molecule, g. unfold updateHydrogensAfterBondRemoval.
      rewrite Hfind, Hel. cbn [String.eqb Ascii.eqb Bool.eqb].
      split; [reflexivity|]. split; [split|]; assumption.
    + destruct (bondRemoval_extends fuel atomId molecule g atom Hf Hfind Hel)
        as (added & Hrun & Hids & Hh).
      assert (Hpresent : In (id atom) (map id (atoms molecule)))
        by (apply in_map; exact (proj1 (findAtom_id _ _ _ Hfind))).
      eexists. eexists. split; [exact Hrun|]. split; [split|].
      * apply (NoDup_extended atom molecule g _ added Hfresh Hids Hinj Hnd).
      * apply (Linked_extended atom molecule g _ added Hids Hpresent Hl).
      * apply (freshFrom_extended atom molecule g _ added Hfresh Hids Hpresent Hinj).
  - exists molecule, g. unfold updateHydrogensAfterBondRemoval. rewrite Hfind.
    split; [reflexivity|]. split; [split|]; assumption.
Qed.

(** ** After a bond changes type: what the endpoints end with *)

Lemma stripHydrogens_without (atomId : string) (molecule : Molecule) :
  stripHydrogens atomId molecule = without (connectedH atomId molecule) molecule.
Proof.
  rewrite <- (Molecule_eta (stripHydrogens atomId molecule)).
  rewrite stripHydrogens_atoms, stripHydrogens_bonds. reflexivity.
Qed.

Lemma Saturated_not_heavy (molecule : Molecule) (atomId : string) :
  isHeavyId molecule atomId = false -> Saturated atomId molecule.
Proof.
  intros Eh atom Hfind Hel. unfold isHeavyId in Eh. rewrite Hfind, Hel in Eh.
  discriminate.
Qed.

Section IterationSums.

Variables (molecule : Molecule) (g : nat) (atomId : string) (atom : Atom).
Hypothesis Hfind : findAtom atomId (atoms molecule) = Some atom.
Hypothesis Hheavy : (element atom =? "H")%string = false.
Hypothesis Hfresh : freshFrom g molecule.

Let after : Molecule := fst (reconcileAtom (molecule, g) atomId).

Lemma bondCount_after_self :
  getAtomBondCount atomId (bonds after)
  = getAtomBondCount atomId (bonds (stripHydrogens atomId molecule))
    + getRequiredHydrogens atom (bonds (stripHydrogens atomId molecule)).
Proof.
  unfold after. rewrite (reconcileAtom_heavy _ _ _ _ Hfind Hheavy).
  cbn [fst bonds]. rewrite getAtomBondCount_app. f_equal.
  unfold bondsFor. rewrite <- (proj2 (findAtom_id _ _ _ Hfind)) at 1.
  rewrite bondCount_loopBonds, length_seq.
  pose proof (getRequiredHydrogens_nonneg atom (bonds (stripHydrogens atomId molecule))).
  lia.
Qed.

Lemma Saturated_after_self :
  (forall k, uuidv4 k <> "") -> Saturated atomId after.
Proof.
  intros Hne a Ha _. unfold after in *.
  assert (Hh : isHeavyId molecule atomId = true)
    by (unfold isHeavyId; rewrite Hfind, Hheavy; reflexivity).
  rewrite (findAtom_after_heavy _ _ _ _ Hfind Hheavy Hfresh atomId Hh), Hfind in Ha.
  injection Ha as <-.
  rewrite (stripHydrogens_after_self _ _ _ _ Hfind Hheavy Hfresh Hne).
  apply bondCount_after_self.
Qed.

Lemma bondCount_after_other (x : string) :
  isHeavyId molecule x = true -> x <> atomId -> Exclusive x molecule ->
  getAtomBondCount x (bonds after) = getAtomBondCount x (bonds molecule).
Proof.
  intros Hx Hxa Hex. unfold after.
  rewrite (after_bonds _ _ _ _ Hfind Hheavy), getAtomBondCount_app.
  rewrite (getAtomBondCount_untouched x (bondsFor _ _ _)).
  - rewrite Z.add_0_r. apply getAtomBondCount_filter. intros b Hb Ht.
    assert (Hend : forall e, touches e b = true -> connectedH atomId molecule e = false).
    { intros e He. destruct (connectedH atomId molecule e) eqn:Ec; [exfalso|reflexivity].
      assert (Hne : e <> x).
      { intros ->. rewrite (connectedH_not_heavy _ _ _ Hx) in Ec. discriminate. }
      assert (Hxe : connectedH x molecule e = true).
      { apply connectedH_true_iff in Ec. destruct Ec as (Hnonempty & Hh & _).
        apply connectedH_true_iff. split; [exact Hnonempty|]. split; [exact Hh|].
        exists b. split; [exact Hb|]. apply linksTo_plain.
        apply touches_true_iff in Ht. apply touches_true_iff in He.
        destruct Ht as [Ht|Ht]; destruct He as [He|He]; try congruence.
        - left. split; assumption.
        - right. split; assumption. }
      assert (Hd : connectedH atomId molecule e = false).
      { apply (Exclusive_disjoint x atomId molecule e Hex); [|congruence|exact Hxe].
        apply connectedH_not_heavy. unfold isHeavyId. rewrite Hfind, Hheavy.
        reflexivity. }
      congruence. }
    rewrite !Hend; [reflexivity| |]; apply touches_true_iff; [right|left]; reflexivity.
  - intros b Hb.
    apply (added_bond_not_touching molecule g atomId atom Hfind x b);
      [|exact Hxa|exact Hb].
    apply (heavy_not_added molecule g atomId atom Hfresh x Hx).
Qed.

Lemma Saturated_after_other (x : string) :
  isHeavyId molecule x = true -> x <> atomId ->
  Reconciled x molecule -> Saturated x molecule -> Saturated x after.
Proof.
  intros Hx Hxa Hrec Hsat a Ha Hel. unfold after in Ha.
  rewrite (findAtom_after_heavy _ _ _ _ Hfind Hheavy Hfresh x Hx) in Ha.
  destruct (Hrec a Ha Hel) as (Hex & _ & _).
  assert (Hatom : isHeavyId molecule atomId = true)
    by (unfold isHeavyId; rewrite Hfind, Hheavy; reflexivity).
  assert (Hstripped :
            getAtomBondCount x (bonds (stripHydrogens x after))
            = getAtomBondCount x (bonds (stripHydrogens x molecule))).
  { unfold after. apply (strippedCount_after_other _ _ _ _ Hfind Hheavy Hfresh x).
    - apply (heavy_not_added molecule g atomId atom Hfresh x Hx).
    - apply connectedH_not_heavy. exact Hx.
    - exact Hxa.
    - intros i Hi.
      apply (Exclusive_disjoint x atomId molecule i Hex);
        [apply connectedH_not_heavy; exact Hatom|congruence|exact Hi]. }
  rewrite (bondCount_after_other x Hx Hxa Hex), Hstripped.
  rewrite (getRequiredHydrogens_same_count a _ (bonds (stripHydrogens x molecule))).
  - apply (Hsat a Ha Hel).
  - rewrite (proj2 (findAtom_id _ _ _ Ha)). exact Hstripped.
Qed.

(** The atom stays in the molecule when its hydrogens are taken away. *)
Lemma atom_in_stripped :
  In (id atom) (map id (atoms (stripHydrogens atomId molecule))).
Proof.
  apply in_map. rewrite stripHydrogens_atoms. apply filter_In.
  destruct (findAtom_id _ _ _ Hfind) as [Hin Hid]. split; [exact Hin|].
  apply negb_true_iff. rewrite Hid. apply connectedH_not_heavy.
  unfold isHeavyId. rewrite Hfind, Hheavy. reflexivity.
Qed.

Lemma Linked_after : Linked molecule -> Linked after.
Proof.
  intros Hl. unfold after. rewrite (reconcileAtom_heavy _ _ _ _ Hfind Hheavy).
  cbn [fst]. unfold bondsFor.
  apply Linked_extended; [apply hydrogensFor_ids|apply atom_in_stripped|].
  rewrite stripHydrogens_without. apply Linked_without. exact Hl.
Qed.

End IterationSums.

Section SupplyContract.

(** The contract of the id supply: no id twice, none empty. *)
Hypothesis uuidv4_injective : forall i j, uuidv4 i = uuidv4 j -> i = j.
Hypothesis uuidv4_nonempty : forall k, uuidv4 k <> "".

Lemma reconcileAtom_Saturated_self (molecule : Molecule) (g : nat) (atomId : string) :
  freshFrom g molecule ->
  Saturated atomId (fst (reconcileAtom (molecule, g) atomId)).
Proof.
  intros Hfresh. destruct (isHeavyId molecule atomId) eqn:Eh.
  - destruct (isHeavyId_found _ _ Eh) as (atom & Hfind & Hel).
    apply (Saturated_after_self _ _ _ _ Hfind Hel Hfresh uuidv4_nonempty).
  - rewrite (reconcileAtom_skip _ _ _ Eh). apply Saturated_not_heavy. exact Eh.
Qed.

Lemma reconcileAtom_Saturated_other (molecule : Molecule) (g : nat)
      (atomId other : string) :
  freshFrom g molecule ->
  Reconciled other molecule -> Saturated other molecule ->
  Saturated other (fst (reconcileAtom (molecule, g) atomId)).
Proof.
  intros Hfresh Hrec Hsat. destruct (isHeavyId molecule atomId) eqn:Eh.
  - destruct (string_dec other atomId) as [->|Hne].
    + apply reconcileAtom_Saturated_self. exact Hfresh.
    + destruct (isHeavyId molecule other) eqn:Eo.
      * destruct (isHeavyId_found _ _ Eh) as (atom & Hfind & Hel).
        apply (Saturated_after_other _ _ _ _ Hfind Hel Hfresh other Eo Hne Hrec Hsat).
      * apply Saturated_not_heavy. rewrite reconcileAtom_isHeavyId by exact Hfresh.
        exact Eo.
  - rewrite (reconcileAtom_skip _ _ _ Eh). exact Hsat.
Qed.

Lemma reconcileAtom_Linked (molecule : Molecule) (g : nat) (atomId : string) :
  Linked molecule -> Linked (fst (reconcileAtom (molecule, g) atomId)).
Proof.
  intros Hl. destruct (isHeavyId molecule atomId) eqn:Eh.
  - destruct (isHeavyId_found _ _ Eh) as (atom & Hfind & Hel).
    apply (Linked_after _ _ _ _ Hfind Hel Hl).
  - rewrite (reconcileAtom_skip _ _ _ Eh). exact Hl.
Qed.

(** X12: [updateHydrogensAfterBondTypeChange] keeps a well-formed molecule
    well-formed when the supply repeats no id and its ids to come do not occur
    in the molecule; the ids that come after the call do not occur in the
    result either, so calls can follow one another. *)
Theorem bondTypeChange_WellFormed (sourceId targetId : string)
        (molecule : Molecule) (g : nat) :
  freshFrom g molecule ->
  WellFormed molecule ->
  let result := updateHydrogensAfterBondTypeChange sourceId targetId molecule g in
  WellFormed (fst result) /\ freshFrom (snd result) (fst result).
Proof.
  intros Hfresh [Hnd Hl] result. unfold result, updateHydrogensAfterBondTypeChange.
  cbn [fold_left].
  pose proof (reconcileAtom_freshFrom uuidv4_injective molecule g sourceId Hfresh) as F1.
  pose proof (reconcileAtom_NoDup uuidv4_injective molecule g sourceId Hfresh Hnd) as N1.
  pose proof (reconcileAtom_Linked molecule g sourceId Hl) as L1.
  destruct (reconcileAtom (molecule, g) sourceId) as [m1 g1]. cbn [fst snd] in *.
  split; [split|].
  - apply (reconcileAtom_NoDup uuidv4_injective m1 g1 targetId F1 N1).
  - apply (reconcileAtom_Linked m1 g1 targetId L1).
  - apply (reconcileAtom_freshFrom uuidv4_injective m1 g1 targetId F1).
Qed.

(** X13: after [updateHydrogensAfterBondTypeChange], each of the two ids
    that resolves to a non-hydrogen atom has exactly the hydrogens that
    [getRequiredHydrogens] asks for on its other bonds (the bonds that are
    left when its hydrogens are taken away), its bond-order sum is the sum
    over these other bonds plus that number, and so, when the lookup returns
    a target valence [t] for that sum [s], it is [max(s, t)]. *)
Theorem bondTypeChange_satisfies_valence (sourceId targetId : string)
        (molecule : Molecule) (g : nat) :
  freshFrom g molecule ->
  let result := fst (updateHydrogensAfterBondTypeChange sourceId targetId molecule g) in
  forall atomId atom,
    atomId = sourceId \/ atomId = targetId ->
    findAtom atomId (atoms result) = Some atom ->
    element atom <> "H" ->
    let others := bonds (stripHydrogens atomId result) in
    Z.of_nat (List.length (getConnectedHydrogens atomId result))
    = getRequiredHydrogens atom others
    /\ getAtomBondCount atomId (bonds result)
       = getAtomBondCount atomId others + getRequiredHydrogens atom others
    /\ forall t, getBestValenceForBondCount (element atom)
                                            (getAtomBondCount atomId others) = Some t ->
                 getAtomBondCount atomId (bonds result)
                 = Z.max (getAtomBondCount atomId others) t.
Proof.
  intros Hfresh result atomId atom Hwhich Hfind Hel others.
  apply String.eqb_neq in Hel.
  assert (Hboth : Reconciled atomId result /\ Saturated atomId result).
  { unfold result, updateHydrogensAfterBondTypeChange. cbn [fold_left].
    pose proof (reconcileAtom_freshFrom uuidv4_injective molecule g sourceId Hfresh) as F1.
    pose proof (reconcileAtom_Reconciled_self uuidv4_nonempty molecule g sourceId Hfresh)
      as R1.
    pose proof (reconcileAtom_Saturated_self molecule g sourceId Hfresh) as S1.
    destruct (reconcileAtom (molecule, g) sourceId) as [m1 g1]. cbn [fst snd] in *.
    destruct Hwhich as [->| ->].
    - split.
      + apply (reconcileAtom_Reconciled_other uuidv4_nonempty m1 g1 targetId sourceId F1 R1).
      + apply (reconcileAtom_Saturated_other m1 g1 targetId sourceId F1 R1 S1).
    - split.
      + apply (reconcileAtom_Reconciled_self uuidv4_nonempty m1 g1 targetId F1).
      + apply (reconcileAtom_Saturated_self m1 g1 targetId F1). }
  destruct Hboth as [Hrec Hsat].
  destruct (Hrec atom Hfind Hel) as (_ & _ & Hcount).
  pose proof (Hsat atom Hfind Hel) as Hsum. fold others in Hcount, Hsum.
  split; [exact Hcount|]. split; [exact Hsum|].
  intros t Ht. rewrite Hsum. unfold getRequiredHydrogens.
  rewrite (proj2 (findAtom_id _ _ _ Hfind)), Ht.
  pose proof (getAtomBondCount_nonneg atomId others) as Hs.
  destruct (t =? 0) eqn:E0; [apply Z.eqb_eq in E0|]; lia.
Qed.

End SupplyContract.

(** X14: for two ids that each resolve to a hydrogen or to no atom,
    [updateHydrogensAfterBondTypeChange] returns the molecule as it is and
    draws no id; so does [updateHydrogensAfterBondRemoval] for one such id,
    whatever the fuel. *)
Theorem hydrogen_or_unknown_id_unchanged (fuel : nat) (sourceId targetId : string)
        (molecule : Molecule) (g : nat) :
  (forall a, findAtom sourceId (atoms molecule) = Some a -> element a = "H") ->
  (forall a, findAtom targetId (atoms molecule) = Some a -> element a = "H") ->
  updateHydrogensAfterBondTypeChange sourceId targetId molecule g = (molecule, g)
  /\ updateHydrogensAfterBondRemoval fuel sourceId molecule g = Some (molecule, g).
Proof.
  intros Hs Ht.
  assert (Hskip : forall i, (forall a, findAtom i (atoms molecule) = Some a ->
                                       element a = "H") ->
                            isHeavyId molecule i = false).
  { intros i Hi. unfold isHeavyId.
    destruct (findAtom i (atoms molecule)) as [a|]; [|reflexivity].
    rewrite (Hi a eq_refl). reflexivity. }
  split.
  - unfold updateHydrogensAfterBondTypeChange. cbn [fold_left].
    rewrite (reconcileAtom_skip _ _ _ (Hskip _ Hs)).
    apply (reconcileAtom_skip _ _ _ (Hskip _ Ht)).
  - unfold updateHydrogensAfterBondRemoval.
    destruct (findAtom sourceId (atoms molecule)) as [a|]; [|reflexivity].
    rewrite (Hs a eq_refl). reflexivity.
Qed.

(** ** Unknown atom ids in the two-id reconciler *)

(** An iteration leaves no non-hydrogen atom under an id that no atom
    carried. *)
Lemma reconcileAtom_absent_stays (molecule : Molecule) (g : nat) (atomId other : string) :
  findAtom atomId (atoms molecule) = None ->
  isHeavyId (fst (reconcileAtom (molecule, g) other)) atomId = false.
Proof.
  intros Habs. destruct (isHeavyId molecule other) eqn:Eh.
  - destruct (isHeavyId_found _ _ Eh) as (atom & Hfind & Hel).
    rewrite (reconcileAtom_heavy _ _ _ _ Hfind Hel). cbn [fst].
    unfold isHeavyId. cbn [atoms]. rewrite findAtom_app, stripHydrogens_atoms.
    rewrite (findAtom_filter_id (fun i => negb (connectedH other molecule i))), Habs.
    replace (if negb (connectedH other molecule atomId) then None else None)
      with (@None Atom) by (destruct (negb _); reflexivity).
    destruct (findAtom atomId (hydrogensFor atom _ g)) as [h|] eqn:Eh'; [|reflexivity].
    apply findAtom_id in Eh'. destruct Eh' as [Hin _].
    apply In_hydrogensFor in Hin. rewrite (proj1 Hin). reflexivity.
  - rewrite (reconcileAtom_skip _ _ _ Eh). cbn [fst]. unfold isHeavyId.
    rewrite Habs. reflexivity.
Qed.

(** C9 (as the code has it): for an atom id that no atom of the molecule
    carries, [updateHydrogensAfterBonding] and
    [updateHydrogensAfterBondRemoval] return the input molecule;
    [updateHydrogensAfterBondTypeChange] skips such an id, in either
    position, and does what its iteration for the other id does alone: it
    returns the input molecule when the other id is carried by no atom
    either. *)
Theorem unknown_atom_id_skipped (molecule : Molecule) (atomId : string)
        (g fuel : nat) :
  (forall a, In a (atoms molecule) -> id a <> atomId) ->
  updateHydrogensAfterBonding atomId molecule = molecule
  /\ updateHydrogensAfterBondRemoval fuel atomId molecule g = Some (molecule, g)
  /\ (forall other,
        updateHydrogensAfterBondTypeChange atomId other molecule g
        = reconcileAtom (molecule, g) other
        /\ updateHydrogensAfterBondTypeChange other atomId molecule g
           = reconcileAtom (molecule, g) other)
  /\ (forall other,
        (forall a, In a (atoms molecule) -> id a <> other) ->
        updateHydrogensAfterBondTypeChange atomId other molecule g = (molecule, g)
        /\ updateHydrogensAfterBondTypeChange other atomId molecule g = (molecule, g)).
Proof.
  intros Habs.
  destruct (unknown_atom_id_unchanged molecule atomId g fuel Habs)
    as (H1 & H2 & H3 & H4).
  split; [exact H1|]. split; [exact H2|]. split; [|exact H4].
  intros other. split; [apply H3|].
  apply findAtom_absent in Habs.
  unfold updateHydrogensAfterBondTypeChange. cbn [fold_left].
  pose proof (reconcileAtom_absent_stays molecule g atomId other Habs) as Hskip.
  destruct (reconcileAtom (molecule, g) other) as [m1 g1]. cbn [fst] in Hskip.
  apply reconcileAtom_skip. exact Hskip.
Qed.

(** ** Bond feasibility *)

(** X7: [canBondAtoms] does not depend on which endpoint is called the
    source. *)
Theorem canBondAtoms_symmetric (sourceId targetId : string) (molecule : Molecule)
        (bondOrder : option Z) :
  canBondAtoms sourceId targetId molecule bondOrder
  = canBondAtoms targetId sourceId molecule bondOrder.
Proof.
  unfold canBondAtoms.
  destruct (findAtom sourceId (atoms molecule)) as [sa|];
    destruct (findAtom targetId (atoms molecule)) as [ta|]; try reflexivity.
  apply andb_comm.
Qed.

End HydrogenManager.

(** * Properties of the naming cache *)

(** ** The map *)

Lemma Map_get_set_same (key : string) (value : CacheEntry) (m : Cache) :
  Map_get key (Map_set key value m) = Some value.
Proof.
  unfold Map_get. induction m as [|[k v] rest IH]; cbn [Map_set find fst].
  - rewrite String.eqb_refl. reflexivity.
  - destruct (k =? key)%string eqn:E; cbn [find fst].
    + rewrite String.eqb_refl. reflexivity.
    + rewrite E. exact IH.
Qed.

Lemma Map_get_set_other (key other : string) (value : CacheEntry) (m : Cache) :
  other <> key -> Map_get other (Map_set key value m) = Map_get other m.
Proof.
  intros Hne. apply String.eqb_neq in Hne. unfold Map_get.
  induction m as [|[k v] rest IH]; cbn [Map_set find fst].
  - rewrite String.eqb_sym, Hne. reflexivity.
  - destruct (k =? key)%string eqn:E; cbn [find fst].
    + apply String.eqb_eq in E. subst k. rewrite String.eqb_sym, Hne. reflexivity.
    + destruct (k =? other)%string; [reflexivity|exact IH].
Qed.

Lemma Map_get_delete_same (key : string) (m : Cache) :
  Map_get key (Map_delete key m) = None.
Proof.
  unfold Map_get, Map_delete. induction m as [|[k v] rest IH]; cbn [filter fst].
  - reflexivity.
  - destruct (k =? key)%string eqn:E; cbn [negb find fst]; [exact IH|].
    rewrite E. exact IH.
Qed.

Lemma Map_get_delete_other (key other : string) (m : Cache) :
  other <> key -> Map_get other (Map_delete key m) = Map_get other m.
Proof.
  intros Hne. unfold Map_get, Map_delete.
  induction m as [|[k v] rest IH]; cbn [filter find fst]; [reflexivity|].
  destruct (k =? key)%string eqn:E; cbn [negb find fst].
  - apply String.eqb_eq in E. subst k.
    apply String.eqb_neq in Hne. rewrite String.eqb_sym, Hne. exact IH.
  - destruct (k =? other)%string; [reflexivity|exact IH].
Qed.

Lemma Map_get_In (key : string) (m : Cache) (e : CacheEntry) :
  Map_get key m = Some e -> In (key, e) m.
Proof.
  unfold Map_get. destruct (find _ m) as [[k v]|] eqn:E; [|discriminate].
  cbn [option_map snd]. intros [= <-]. apply find_some in E.
  destruct E as [Hin Hk]. cbn [fst] in Hk. apply String.eqb_eq in Hk. subst k.
  exact Hin.
Qed.

Lemma Map_set_keys (key : string) (value : CacheEntry) (m : Cache) :
  map fst (Map_set key value m)
  = if existsb (String.eqb key) (map fst m) then map fst m else map fst m ++ [key].
Proof.
  induction m as [|[k v] rest IH]; cbn [Map_set map fst existsb app]; [reflexivity|].
  rewrite (String.eqb_sym key k).
  destruct (k =? key)%string eqn:E; cbn [map fst orb].
  - apply String.eqb_eq in E. subst k. reflexivity.
  - rewrite IH. destruct (existsb _ _); reflexivity.
Qed.

Lemma Map_set_length (key : string) (value : CacheEntry) (m : Cache) :
  (List.length (Map_set key value m) <= S (List.length m))%nat.
Proof.
  rewrite <- (length_map fst), Map_set_keys.
  destruct (existsb _ _); [|rewrite length_app]; rewrite length_map; cbn; lia.
Qed.

Lemma Map_set_NoDup (key : string) (value : CacheEntry) (m : Cache) :
  NoDup (map fst m) -> NoDup (map fst (Map_set key value m)).
Proof.
  intros Hnd. rewrite Map_set_keys.
  destruct (existsb (String.eqb key) (map fst m)) eqn:E; [exact Hnd|].
  apply NoDup_app; [exact Hnd|repeat constructor; intros []|].
  intros k Hk [Hkey|[]]. subst k.
  assert (Ht : existsb (String.eqb key) (map fst m) = true).
  { apply existsb_exists. exists key. split; [exact Hk|apply String.eqb_refl]. }
  congruence.
Qed.

Lemma Map_delete_length (key : string) (m : Cache) :
  (List.length (Map_delete key m) <= List.length m)%nat.
Proof. apply filter_length_le. Qed.

Lemma Map_delete_shrinks (key : string) (m : Cache) :
  In key (map fst m) -> (List.length (Map_delete key m) < List.length m)%nat.
Proof.
  unfold Map_delete. induction m as [|[k v] rest IH]; cbn [map fst filter In];
    [intros []|].
  intros Hin. destruct (k =? key)%string eqn:E; cbn [negb List.length].
  - pose proof (filter_length_le (fun e => negb (fst e =? key)%string) rest). lia.
  - destruct Hin as [Hk|Hin]; [apply String.eqb_neq in E; contradiction|].
    apply IH in Hin. lia.
Qed.

Lemma Map_delete_NoDup (key : string) (m : Cache) :
  NoDup (map fst m) -> NoDup (map fst (Map_delete key m)).
Proof.
  unfold Map_delete. induction m as [|[k v] rest IH]; cbn [map fst filter];
    intros Hnd; [constructor|].
  inversion Hnd as [|? ? Hnotin Hrest]; subst.
  destruct (negb (k =? key)%string); cbn [map fst]; [|apply IH; exact Hrest].
  constructor; [|apply IH; exact Hrest].
  intros Hin. apply Hnotin. apply in_map_iff in Hin. destruct Hin as (e & He & Hin).
  rewrite <- He. apply in_map. apply filter_In in Hin. exact (proj1 Hin).
Qed.

(** ** The oldest entry *)

(** The head of the sorted entries: it splits the entries into strictly
    newer ones before it and not older ones after it. *)
Lemma sortByTimestamp_head (m : list (string * CacheEntry)) :
  match sortByTimestamp m with
  | [] => m = []
  | oldest :: _ =>
      exists before after,
        m = before ++ oldest :: after
        /\ (forall e, In e before -> timestamp (snd oldest) < timestamp (snd e))
        /\ (forall e, In e after -> timestamp (snd oldest) <= timestamp (snd e))
  end.
Proof.
  induction m as [|a m IH]; cbn [sortByTimestamp fold_right]; [reflexivity|].
  fold (sortByTimestamp m). destruct (sortByTimestamp m) as [|h rest];
    cbn [insertByTimestamp].
  - subst m. exists [], []. split; [reflexivity|]. split; intros e [].
  - destruct IH as (before & after & Hm & Hb & Ha).
    destruct (timestamp (snd a) <=? timestamp (snd h)) eqn:E.
    + apply Z.leb_le in E. exists [], m. split; [reflexivity|].
      split; [intros e []|]. intros e He. rewrite Hm in He.
      apply in_app_or in He. destruct He as [He|[<-|He]].
      * specialize (Hb e He). lia.
      * exact E.
      * specialize (Ha e He). lia.
    + apply Z.leb_gt in E. exists (a :: before), after.
      split; [rewrite Hm; reflexivity|]. split; [|exact Ha].
      intros e [<-|He]; [exact E|apply Hb; exact He].
Qed.

(** ** Lookups and stores *)

(** X19: a name stored by [setCached] is what [getCached] returns for the
    same key as long as no more than [CACHE_DURATION] (24 hours, in
    milliseconds) have passed on the clock, and the lookup leaves the cache
    as it is; after that the lookup returns nothing and deletes the entry. *)
Theorem setCached_then_getCached (smiles : string) (stored : Name)
        (requestTime now later : Z) (cache : Cache) :
  let cache' := setCached smiles stored requestTime now cache in
  getCached smiles later cache'
  = if later - now <=? 24 * 60 * 60 * 1000
    then (Some stored, cache')
    else (None, Map_delete smiles cache').
Proof.
  intros cache'. unfold getCached, cache', setCached.
  rewrite Map_get_set_same. cbn [timestamp name].
  change CACHE_DURATION with (24 * 60 * 60 * 1000).
  destruct (later - now <=? 24 * 60 * 60 * 1000) eqn:E.
  - apply Z.leb_le in E. apply Z.ltb_ge in E. rewrite E. reflexivity.
  - apply Z.leb_gt in E. apply Z.ltb_lt in E. rewrite E. reflexivity.
Qed.

(** X21: [getCached] returns no stale name: a name that it returns is that
    of the entry under the key, stored at most [CACHE_DURATION] before the
    clock's time, and returning it leaves the cache as it is. *)
Theorem getCached_never_stale (smiles : string) (now : Z) (cache : Cache)
        (found : Name) :
  fst (getCached smiles now cache) = Some found ->
  exists entry, Map_get smiles cache = Some entry
                /\ name entry = found
                /\ now - timestamp entry <= CACHE_DURATION
                /\ snd (getCached smiles now cache) = cache.
Proof.
  unfold getCached. destruct (Map_get smiles cache) as [entry|]; [|discriminate].
  destruct (CACHE_DURATION <? now - timestamp entry) eqn:E; [discriminate|].
  apply Z.ltb_ge in E. cbn [fst snd]. intros [= <-].
  exists entry. repeat split. exact E.
Qed.

(** X22: a lookup of an entry that is older than [CACHE_DURATION] returns
    nothing and removes the entry: the key is absent afterwards, so a later
    lookup misses whatever the clock says, the cache has shrunk, and the
    entries under the other keys are as they were. *)
Theorem getCached_drops_expired (smiles : string) (now : Z) (cache : Cache)
        (entry : CacheEntry) :
  Map_get smiles cache = Some entry ->
  CACHE_DURATION < now - timestamp entry ->
  let cache' := snd (getCached smiles now cache) in
  fst (getCached smiles now cache) = None
  /\ (forall later, getCached smiles later cache' = (None, cache'))
  /\ (List.length cache' < List.length cache)%nat
  /\ forall other, other <> smiles -> Map_get other cache' = Map_get other cache.
Proof.
  intros Hget Hold cache'. unfold cache', getCached. rewrite Hget.
  apply Z.ltb_lt in Hold. rewrite Hold. cbn [fst snd].
  split; [reflexivity|]. split; [|split].
  - intros later. rewrite Map_get_delete_same. reflexivity.
  - apply Map_delete_shrinks. apply Map_get_In in Hget.
    apply (in_map fst) in Hget. exact Hget.
  - intros other Hne. apply Map_get_delete_other. exact Hne.
Qed.

(** X23: while the cache holds fewer than [MAX_CACHE_SIZE] entries,
    [setCached] loses nothing: the entries under the other keys are as they
    were, in their order, and the cache grows by the one entry when the key is
    new and keeps its size when the key was there. *)
Theorem setCached_below_capacity (smiles : string) (stored : Name)
        (requestTime now : Z) (cache : Cache) :
  Z.of_nat (List.length cache) < MAX_CACHE_SIZE ->
  let cache' := setCached smiles stored requestTime now cache in
  (forall other, other <> smiles -> Map_get other cache' = Map_get other cache)
  /\ map fst cache'
     = match Map_get smiles cache with
       | Some _ => map fst cache
       | None => map fst cache ++ [smiles]
       end.
Proof.
  intros Hlt cache'. unfold cache', setCached.
  apply Z.leb_gt in Hlt. rewrite Hlt. split.
  - intros other Hne. apply Map_get_set_other. exact Hne.
  - rewrite Map_set_keys. unfold Map_get.
    induction cache as [|[k v] rest IH]; cbn [map fst existsb find option_map];
      [reflexivity|].
    rewrite (String.eqb_sym smiles k).
    destruct (k =? smiles)%string; cbn [orb option_map]; [reflexivity|].
    assert (Hrest : (MAX_CACHE_SIZE <=? Z.of_nat (List.length rest)) = false).
    { apply Z.leb_gt. apply Z.leb_gt in Hlt. cbn [List.length] in Hlt. lia. }
    specialize (IH Hrest).
    destruct (existsb (String.eqb smiles) (map fst rest));
      destruct (find _ rest); cbn [option_map] in *; try reflexivity;
      try (apply (f_equal (@List.length string)) in IH;
           rewrite length_app in IH; cbn in IH; lia).
Qed.

(** X24: when the cache holds [MAX_CACHE_SIZE] entries or more, [setCached]
    first evicts one key: an entry of the smallest timestamp, the first such
    in insertion order.  Apart from the key that is stored, the evicted key
    is absent afterwards and the entries under all other keys are as they
    were; the cache does not grow. *)
Theorem setCached_evicts_oldest (smiles : string) (stored : Name)
        (requestTime now : Z) (cache : Cache) :
  MAX_CACHE_SIZE <= Z.of_nat (List.length cache) ->
  let cache' := setCached smiles stored requestTime now cache in
  exists before oldestKey oldest after,
    cache = before ++ (oldestKey, oldest) :: after
    /\ (forall e, In e before -> timestamp oldest < timestamp (snd e))
    /\ (forall e, In e after -> timestamp oldest <= timestamp (snd e))
    /\ (forall other, other <> smiles ->
                      Map_get other cache'
                      = if (other =? oldestKey)%string then None else Map_get other cache)
    /\ (List.length cache' <= List.length cache)%nat.
Proof.
  intros Hfull cache'. unfold cache', setCached.
  apply Z.leb_le in Hfull. rewrite Hfull. apply Z.leb_le in Hfull.
  pose proof (sortByTimestamp_head cache) as Hhead.
  destruct (sortByTimestamp cache) as [|[oldestKey oldest] rest].
  - subst cache. cbn in Hfull. unfold MAX_CACHE_SIZE in Hfull. lia.
  - destruct Hhead as (before & after & Hm & Hb & Ha). cbn [snd] in Hb, Ha.
    exists before, oldestKey, oldest, after.
    split; [exact Hm|]. split; [exact Hb|]. split; [exact Ha|]. split.
    + intros other Hne. rewrite (Map_get_set_other _ _ _ _ Hne).
      destruct (other =? oldestKey)%string eqn:E.
      * apply String.eqb_eq in E. subst other. apply Map_get_delete_same.
      * apply String.eqb_neq in E. apply Map_get_delete_other. exact E.
    + pose proof (Map_set_length smiles
                    {| name := stored; timestamp := now; requestTime := requestTime |}
                    (Map_delete oldestKey cache)) as Hset.
      assert (Hin : In oldestKey (map fst cache)).
      { rewrite Hm, map_app. apply in_or_app. right. left. reflexivity. }
      pose proof (Map_delete_shrinks oldestKey cache Hin). lia.
Qed.

(** ** Any sequence of calls *)

Lemma getCached_length (smiles : string) (now : Z) (cache : Cache) :
  (List.length (snd (getCached smiles now cache)) <= List.length cache)%nat.
Proof.
  unfold getCached. destruct (Map_get smiles cache) as [entry|]; [|cbn; lia].
  destruct (_ <? _); cbn [snd]; [apply Map_delete_length|lia].
Qed.

Lemma getCached_NoDup (smiles : string) (now : Z) (cache : Cache) :
  NoDup (map fst cache) -> NoDup (map fst (snd (getCached smiles now cache))).
Proof.
  intros Hnd. unfold getCached. destruct (Map_get smiles cache) as [entry|]; [|exact Hnd].
  destruct (_ <? _); cbn [snd]; [apply Map_delete_NoDup|]; exact Hnd.
Qed.

Lemma setCached_length (smiles : string) (stored : Name) (requestTime now : Z)
      (cache : Cache) :
  (Z.of_nat (List.length cache) <= MAX_CACHE_SIZE ->
   Z.of_nat (List.length (setCached smiles stored requestTime now cache))
   <= MAX_CACHE_SIZE).
Proof.
  intros Hle. unfold setCached.
  set (entry := {| name := stored; timestamp := now; requestTime := requestTime |}).
  destruct (MAX_CACHE_SIZE <=? Z.of_nat (List.length cache)) eqn:E.
  - apply Z.leb_le in E. pose proof (sortByTimestamp_head cache) as Hhead.
    destruct (sortByTimestamp cache) as [|[oldestKey oldest] rest].
    + subst cache. cbn in E. unfold MAX_CACHE_SIZE in E. lia.
    + destruct Hhead as (before & after & Hm & _).
      assert (Hin : In oldestKey (map fst cache)).
      { rewrite Hm, map_app. apply in_or_app. right. left. reflexivity. }
      pose proof (Map_delete_shrinks oldestKey cache Hin).
      pose proof (Map_set_length smiles entry (Map_delete oldestKey cache)). lia.
  - apply Z.leb_gt in E. pose proof (Map_set_length smiles entry cache). lia.
Qed.

Lemma setCached_NoDup (smiles : string) (stored : Name) (requestTime now : Z)
      (cache : Cache) :
  NoDup (map fst cache) ->
  NoDup (map fst (setCached smiles stored requestTime now cache)).
Proof.
  intros Hnd. unfold setCached. apply Map_set_NoDup.
  destruct (_ <=? _); [|exact Hnd].
  destruct (sortByTimestamp cache) as [|[oldestKey oldest] rest]; [exact Hnd|].
  apply Map_delete_NoDup. exact Hnd.
Qed.

(** X20: whatever lookups and stores are made on a cache that starts empty,
    and whatever the clock returns, the cache never holds more than
    [MAX_CACHE_SIZE] (1000) entries and no key twice. *)
Theorem cache_size_bounded (calls : list CacheCall) :
  let cache := fold_left call calls [] in
  (List.length cache <= 1000)%nat /\ NoDup (map fst cache).
Proof.
  intros cache. unfold cache.
  assert (Hinv : forall start,
             Z.of_nat (List.length start) <= MAX_CACHE_SIZE /\ NoDup (map fst start) ->
             Z.of_nat (List.length (fold_left call calls start)) <= MAX_CACHE_SIZE
             /\ NoDup (map fst (fold_left call calls start))).
  { induction calls as [|c rest IH]; intros start Hstart; cbn [fold_left];
      [exact Hstart|].
    apply IH. destruct Hstart as [Hlen Hnd].
    destruct c as [smiles now|smiles stored requestTime now]; cbn [call].
    - split; [|apply getCached_NoDup; exact Hnd].
      pose proof (getCached_length smiles now start). lia.
    - split; [apply setCached_length; exact Hlen|apply setCached_NoDup; exact Hnd]. }
  assert (Hempty : Z.of_nat (@List.length (string * CacheEntry) []) <= MAX_CACHE_SIZE
                   /\ NoDup (map fst (@nil (string * CacheEntry)))).
  { split; [discriminate|constructor]. }
  destruct (Hinv [] Hempty) as [Hlen Hnd].
  split; [unfold MAX_CACHE_SIZE in Hlen; lia|exact Hnd].
Qed.

(** ** The request *)

Lemma split_not_nil (separator : ascii) (s : string) : split separator s <> [].
Proof.
  destruct s as [|c rest]; cbn [split]; [discriminate|].
  destruct (Ascii.eqb c separator); [discriminate|].
  destruct (split separator rest); discriminate.
Qed.

Lemma split_pieces (separator : ascii) (s piece : string) :
  In piece (split separator s) -> ~ In separator (list_ascii_of_string piece).
Proof.
  revert piece. induction s as [|c rest IH]; intros piece; cbn [split].
  - intros [<-|[]] [].
  - destruct (Ascii.eqb c separator) eqn:E.
    + intros [<-|Hin]; [intros []|apply IH; exact Hin].
    + apply Ascii.eqb_neq in E.
      destruct (split separator rest) as [|first others] eqn:Es.
      * intros [<-|[]]. cbn. intros [H|[]]. contradiction.
      * intros [<-|Hin].
        -- cbn. intros [H|H]; [contradiction|]. apply (IH first); [left; reflexivity|exact H].
        -- apply IH. right. exact Hin.
Qed.

Lemma split_whole (separator : ascii) (s : string) :
  ~ In separator (list_ascii_of_string s) -> split separator s = [s].
Proof.
  induction s as [|c rest IH]; cbn [split list_ascii_of_string]; [reflexivity|].
  intros Hno. destruct (Ascii.eqb c separator) eqn:E.
  - apply Ascii.eqb_eq in E. elim Hno. left. exact E.
  - rewrite IH; [reflexivity|]. intros Hin. apply Hno. right. exact Hin.
Qed.

Lemma split_append (separator : ascii) (piece rest : string) :
  ~ In separator (list_ascii_of_string piece) ->
  split separator (piece ++ String separator rest)%string = piece :: split separator rest.
Proof.
  induction piece as [|c piece IH]; cbn [append split list_ascii_of_string].
  - intros _. rewrite Ascii.eqb_refl. reflexivity.
  - intros Hno. destruct (Ascii.eqb c separator) eqn:E.
    + apply Ascii.eqb_eq in E. elim Hno. left. exact E.
    + rewrite IH; [reflexivity|]. intros Hin. apply Hno. right. exact Hin.
Qed.

Lemma split_concat (separator : ascii) (pieces : list string) :
  pieces <> [] ->
  (forall piece, In piece pieces -> ~ In separator (list_ascii_of_string piece)) ->
  split separator (String.concat (String separator EmptyString) pieces) = pieces.
Proof.
  induction pieces as [|first others IH]; intros Hne Hno; [contradiction|].
  destruct others as [|second others].
  - cbn [String.concat]. apply split_whole. apply Hno. left. reflexivity.
  - change (String.concat (String separator EmptyString) (first :: second :: others))
      with (first ++ String separator
                  (String.concat (String separator EmptyString) (second :: others)))%string.
    rewrite split_append by (apply Hno; left; reflexivity).
    rewrite IH; [reflexivity|discriminate|].
    intros piece Hin. apply Hno. right. exact Hin.
Qed.

Lemma trimStart_chars (s : string) (c : ascii) :
  In c (list_ascii_of_string (trimStart s)) -> In c (list_ascii_of_string s).
Proof.
  induction s as [|d rest IH]; cbn [trimStart]; [auto|].
  destruct (isWhiteSpace d); [|auto].
  intros Hin. right. apply IH. exact Hin.
Qed.

Lemma trimEnd_chars (s : string) (c : ascii) :
  In c (list_ascii_of_string (trimEnd s)) -> In c (list_ascii_of_string s).
Proof.
  induction s as [|d rest IH]; cbn [trimEnd]; [auto|].
  destruct (trimEnd rest) as [|e kept] eqn:E.
  - destruct (isWhiteSpace d); cbn; [intros []|].
    intros [H|[]]. left. exact H.
  - cbn [list_ascii_of_string]. intros [H|H]; [left; exact H|right; apply IH; exact H].
Qed.

Lemma trimStart_startsClean (s : string) : startsClean (trimStart s).
Proof.
  induction s as [|c rest IH]; cbn [trimStart]; [exact I|].
  destruct (isWhiteSpace c) eqn:E; [exact IH|exact E].
Qed.

Lemma trimStart_of_clean (s : string) : startsClean s -> trimStart s = s.
Proof.
  destruct s as [|c rest]; cbn [startsClean trimStart]; [reflexivity|].
  intros ->. reflexivity.
Qed.

Lemma trimEnd_startsClean (s : string) : startsClean s -> startsClean (trimEnd s).
Proof.
  destruct s as [|c rest]; cbn [startsClean trimEnd]; [auto|].
  intros Hc. destruct (trimEnd rest); [rewrite Hc|]; exact Hc.
Qed.

Lemma trimEnd_again (s : string) : trimEnd (trimEnd s) = trimEnd s.
Proof.
  induction s as [|c rest IH]; cbn [trimEnd]; [reflexivity|].
  destruct (trimEnd rest) as [|e kept] eqn:E.
  - destruct (isWhiteSpace c) eqn:Ec; cbn [trimEnd]; [reflexivity|].
    rewrite Ec. reflexivity.
  - cbn [trimEnd]. cbn [trimEnd] in IH. rewrite IH. reflexivity.
Qed.

Lemma trim_again (s : string) : trim (trim s) = trim s.
Proof.
  unfold trim.
  rewrite (trimStart_of_clean (trimEnd (trimStart s)))
    by (apply trimEnd_startsClean, trimStart_startsClean).
  apply trimEnd_again.
Qed.

Lemma keep_nonempty (pieces : list string) :
  (forall piece, In piece pieces -> piece <> "") ->
  filter (fun f => negb (f =? "")%string) pieces = pieces.
Proof.
  intros Hne. apply filter_all. intros piece Hin.
  apply negb_true_iff, String.eqb_neq, Hne, Hin.
Qed.

Lemma makeRequest_fragments_In (smiles fragment : string) :
  In fragment (makeRequest_fragments smiles) ->
  fragment <> ""
  /\ trim fragment = fragment
  /\ ~ In "."%char (list_ascii_of_string fragment).
Proof.
  unfold makeRequest_fragments. rewrite filter_In, in_map_iff.
  intros [(piece & <- & Hin) Hne].
  split; [apply String.eqb_neq, negb_true_iff; exact Hne|].
  split; [apply trim_again|].
  intros Hdot. apply (split_pieces _ _ _ Hin).
  unfold trim in Hdot. apply trimStart_chars, trimEnd_chars. exact Hdot.
Qed.

(** X25: every fragment that [makeRequest] sends is non-empty, trimmed
    (trimming it again changes nothing) and free of the separator '.'. *)
Theorem makeRequest_fragments_normal (smiles : string) :
  Forall (fun fragment => fragment <> ""
                          /\ trim fragment = fragment
                          /\ ~ In "."%char (list_ascii_of_string fragment))
         (makeRequest_fragments smiles).
Proof. apply Forall_forall. intros fragment. apply makeRequest_fragments_In. Qed.

(** X26: for a SMILES string without '.', the request body holds the
    trimmed string as one string, unless nothing is left of it after
    trimming: then the body holds the empty array. *)
Theorem makeRequest_body_one_fragment (smiles : string) :
  ~ In "."%char (list_ascii_of_string smiles) ->
  makeRequest_body smiles
  = if (trim smiles =? "")%string then SeveralSmiles [] else OneSmiles (trim smiles).
Proof.
  intros Hno. unfold makeRequest_body, makeRequest_fragments.
  rewrite (split_whole _ _ Hno). cbn [map filter].
  destruct (trim smiles =? "")%string; reflexivity.
Qed.

(** X27: the fragments are a normal form: joined by '.' and sent through
    [makeRequest] again they come out as they are. *)
Theorem makeRequest_fragments_again (smiles : string) :
  makeRequest_fragments (String.concat "." (makeRequest_fragments smiles))
  = makeRequest_fragments smiles.
Proof.
  pose proof (makeRequest_fragments_In smiles) as Hnormal.
  destruct (makeRequest_fragments smiles) as [|first others] eqn:E; [reflexivity|].
  unfold makeRequest_fragments at 1.
  rewrite split_concat;
    [|discriminate|intros piece Hin; exact (proj2 (proj2 (Hnormal piece Hin)))].
  rewrite (map_ext_in trim (fun f => f))
    by (intros piece Hin; exact (proj1 (proj2 (Hnormal piece Hin)))).
  rewrite map_id. apply keep_nonempty.
  intros piece Hin. exact (proj1 (Hnormal piece Hin)).
Qed.

(** * Concrete instances *)

(** ** The scenarios of the specification *)

(** A carbon without bonds gets four hydrogens and four single bonds. *)
Example lone_carbon_gets_four_hydrogens :
  forall Math_cos Math_sin,
    let result :=
      fst (addHydrogensToAtom specBestValence counterUuid Math_cos Math_sin
                              carbonC loneCarbon 0) in
    List.length (atoms result) = 5%nat
    /\ map type (bonds result) = [single; single; single; single]
    /\ hydrogenCount "c" result = 4%nat.
Proof.
  intros Math_cos Math_sin result. vm_compute.
  split; [reflexivity|]. split; reflexivity.
Qed.

(** A carbon with three hydrogens and one bond to a carbon, after a second
    single bond: two hydrogens remain. *)
Example second_bond_leaves_two_hydrogens :
  hydrogenCount "c0" methylAfterBond = 3%nat
  /\ hydrogenCount "c0" (updateHydrogensAfterBonding specBestValence "c0" methylAfterBond)
     = 2%nat.
Proof. split; vm_compute; reflexivity. Qed.

(** A single bond between two carbons changed to a double bond: the
    hydrogens of each carbon go from three to two. *)
Example double_bond_leaves_two_hydrogens :
  forall Math_cos Math_sin,
    let once :=
      updateHydrogensAfterBondTypeChange specBestValence counterUuid Math_cos Math_sin
                                         "c1" "c2" twoCarbons 0 in
    let again :=
      updateHydrogensAfterBondTypeChange specBestValence counterUuid Math_cos Math_sin
                                         "c1" "c2" (retype "b" double (fst once))
                                         (snd once) in
    hydrogenCount "c1" (fst once) = 3%nat
    /\ hydrogenCount "c2" (fst once) = 3%nat
    /\ hydrogenCount "c1" (fst again) = 2%nat
    /\ hydrogenCount "c2" (fst again) = 2%nat.
Proof.
  intros Math_cos Math_sin once again. vm_compute.
  split; [reflexivity|]. split; [reflexivity|]. split; reflexivity.
Qed.

(** ** Instances of the properties *)

(** C1, instance: a lone carbon has target valence 4 and ends with bond-order
    sum 4. *)
Lemma addHydrogensToAtom_bond_order_sum_witness :
  specBestValence (element carbonC) (getAtomBondCount (id carbonC) (bonds loneCarbon))
  = Some 4
  /\ forall uuidv4 Math_cos Math_sin g,
      getAtomBondCount
        (id carbonC)
        (bonds (fst (addHydrogensToAtom specBestValence uuidv4 Math_cos Math_sin
                                        carbonC loneCarbon g)))
      = Z.max 0 4.
Proof.
  split; [reflexivity|]. intros uuidv4 Math_cos Math_sin g.
  apply (addHydrogensToAtom_bond_order_sum specBestValence uuidv4 Math_cos Math_sin
                                           carbonC loneCarbon g 4).
  reflexivity.
Defined.

(** C1, counterexample: for a carbon with bond-order sum 5 the lookup returns
    the target valence 4, and the bond-order sum after [addHydrogensToAtom]
    is still 5. *)
Lemma addHydrogensToAtom_misses_target :
  specBestValence (element carbonC) (getAtomBondCount (id carbonC) (bonds crowdedCarbon))
  = Some 4
  /\ forall uuidv4 Math_cos Math_sin g,
      getAtomBondCount
        (id carbonC)
        (bonds (fst (addHydrogensToAtom specBestValence uuidv4 Math_cos Math_sin
                                        carbonC crowdedCarbon g)))
      <> 4.
Proof.
  split; [reflexivity|]. intros uuidv4 Math_cos Math_sin g. vm_compute. discriminate.
Qed.

(** C2, counterexample: a single self-bond of order 1 gives the bond-order sum
    1, not 2. *)
Lemma self_bond_not_counted_twice :
  getAtomBondCount "a" [mkBond "b" "a" "a" single]
  <> getAtomBondCount "a" [] + 2 * BOND_ORDER single.
Proof. vm_compute. discriminate. Qed.

(** C6, instance: three hydrogens around a carbon at the origin. *)
Lemma addSpecificHydrogens_simple_placement_witness :
  0 < 3
  /\ forall uuidv4 Math_cos Math_sin,
      atoms (fst (addSpecificHydrogens uuidv4 Math_cos Math_sin carbonC loneCarbon 3 0))
      = [ carbonC;
          {| id := uuidv4 0%nat; element := "H";
             position := {| x := (0 + Math_cos 0 * 30)%float;
                            y := (0 + Math_sin 0 * 30)%float |} |};
          {| id := uuidv4 2%nat; element := "H";
             position := {| x := (0 + Math_cos (2 * Math.PI / 3) * 30)%float;
                            y := (0 + Math_sin (2 * Math.PI / 3) * 30)%float |} |};
          {| id := uuidv4 4%nat; element := "H";
             position := {| x := (0 + Math_cos (4 * Math.PI / 3) * 30)%float;
                            y := (0 + Math_sin (4 * Math.PI / 3) * 30)%float |} |} ].
Proof.
  split; [lia|]. intros uuidv4 Math_cos Math_sin.
  pose proof (addSpecificHydrogens_simple_placement
                uuidv4 Math_cos Math_sin carbonC loneCarbon 3 0 ltac:(lia)) as H.
  cbv zeta in H. destruct H as (Ha & _). rewrite Ha. reflexivity.
Defined.

(** C8, instance: the hydrogen of the crowded carbon is removed by both paths,
    and the triple bond that stays does not mention it. *)
Lemma no_orphan_bonds_witness :
  In hydrogenH (atoms crowdedCarbonH)
  /\ ~ In hydrogenH (atoms (updateHydrogensAfterBonding specBestValence "c" crowdedCarbonH))
  /\ In tripleCO (bonds (updateHydrogensAfterBonding specBestValence "c" crowdedCarbonH))
  /\ ~ In hydrogenH (atoms (stripHydrogens "c" crowdedCarbonH))
  /\ In tripleCO (bonds (stripHydrogens "c" crowdedCarbonH))
  /\ (sourceAtomId tripleCO <> id hydrogenH /\ targetAtomId tripleCO <> id hydrogenH).
Proof.
  assert (Hin : In hydrogenH (atoms crowdedCarbonH)) by (simpl; auto).
  assert (Hout : ~ In hydrogenH
                     (atoms (updateHydrogensAfterBonding specBestValence "c" crowdedCarbonH))).
  { vm_compute. intros [H|[H|[H|[]]]]; discriminate H. }
  assert (Hb : In tripleCO
                  (bonds (updateHydrogensAfterBonding specBestValence "c" crowdedCarbonH))).
  { vm_compute. auto. }
  repeat split.
  - exact Hin.
  - exact Hout.
  - exact Hb.
  - vm_compute. intros [H|[H|[H|[]]]]; discriminate H.
  - vm_compute. auto.
  - exact (proj1 (proj1 (no_orphan_bonds specBestValence "c" crowdedCarbonH
                                         hydrogenH tripleCO Hin) Hout Hb)).
  - exact (proj2 (proj1 (no_orphan_bonds specBestValence "c" crowdedCarbonH
                                         hydrogenH tripleCO Hin) Hout Hb)).
Defined.

(** Instance: no atom of the lone carbon molecule has the id "z". *)
Lemma unknown_atom_id_unchanged_witness :
  (forall a, In a (atoms loneCarbon) -> id a <> "z")
  /\ forall getBest uuidv4 Math_cos Math_sin Math_atan2 Math_pow,
      updateHydrogensAfterBonding getBest "z" loneCarbon = loneCarbon
      /\ updateHydrogensAfterBondRemoval getBest uuidv4 Math_cos Math_sin Math_atan2
                                         Math_pow 13 "z" loneCarbon 0
         = Some (loneCarbon, 0%nat)
      /\ updateHydrogensAfterBondTypeChange getBest uuidv4 Math_cos Math_sin
                                            "z" "z" loneCarbon 0
         = (loneCarbon, 0%nat).
Proof.
  assert (Habs : forall a, In a (atoms loneCarbon) -> id a <> "z").
  { intros a [<-|[]]. discriminate. }
  split; [exact Habs|].
  intros getBest uuidv4 Math_cos Math_sin Math_atan2 Math_pow.
  destruct (unknown_atom_id_unchanged getBest uuidv4 Math_cos Math_sin Math_atan2
                                      Math_pow loneCarbon "z" 0 13 Habs)
    as (H1 & H2 & _ & H4).
  split; [exact H1|]. split; [exact H2|]. exact (proj1 (H4 "z" Habs)).
Defined.

(** C3, instance: the crowded carbon (bond-order sum 6, target 4, one
    hydrogen) loses its hydrogen. *)
Lemma updateHydrogensAfterBonding_removes_witness :
  NoDup (map id (atoms crowdedCarbonH))
  /\ findAtom "c" (atoms crowdedCarbonH) = Some carbonC
  /\ specBestValence (element carbonC) (getAtomBondCount "c" (bonds crowdedCarbonH))
     = Some 4
  /\ 4 <> 0
  /\ Permutation (atoms crowdedCarbonH)
                 ([hydrogenH]
                    ++ atoms (updateHydrogensAfterBonding specBestValence "c" crowdedCarbonH)).
Proof.
  assert (Hnd : NoDup (map id (atoms crowdedCarbonH))).
  { cbn. repeat constructor; cbn; intuition discriminate. }
  assert (Hf : findAtom "c" (atoms crowdedCarbonH) = Some carbonC) by reflexivity.
  assert (Hb : specBestValence (element carbonC)
                               (getAtomBondCount "c" (bonds crowdedCarbonH)) = Some 4)
    by reflexivity.
  assert (Ht : 4 <> 0) by lia.
  repeat split; try assumption.
  exact (proj1 (proj2 (proj2 (updateHydrogensAfterBonding_removes
                                specBestValence "c" crowdedCarbonH carbonC 4
                                Hnd Hf Hb Ht)))).
Defined.

(** The placement loop, instance: three hydrogens placed around a carbon
    whose one neighbour stands at angle 1. *)
Lemma placement_angles_distinct_witness :
  (13 <= 13)%nat
  /\ forall uuidv4 Math_cos Math_sin,
    exists newAtoms newBonds newPositions,
      placeLoop uuidv4 Math_cos Math_sin 13 3 carbonC [] [1%float] [] [] 0
      = Some (newAtoms, newBonds, newPositions, 6%nat)
      /\ (forall j, (j < 3)%nat ->
                    clearAt 13 (firstn j newPositions) [1%float] = true)
      /\ NoDup (map angle newPositions).
Proof.
  split; [lia|]. intros uuidv4 Math_cos Math_sin.
  destruct (placement_angles_distinct uuidv4 Math_cos Math_sin 13 3 carbonC [] [1%float] 0
                                      ltac:(lia))
    as (na & nb & np & Heq & _ & _ & Hd & _).
  exists na, nb, np. cbn [app] in *.
  split; [exact Heq|].
  assert (Hclear : forall j, (j < 3)%nat -> clearAt 13 (firstn j np) [1%float] = true).
  { vm_compute in Heq. injection Heq as _ _ <-.
    intros [|[|[|j]]] Hj; try lia; vm_compute; reflexivity. }
  split; [exact Hclear|]. exact (proj1 (Hd Hclear)).
Defined.

(** An angle that is not a number is not regular: when the one recorded
    neighbour angle is NaN, every
    candidate has a NaN [minDistance], no scan moves [bestAngle] off its
    initial 0, and both new hydrogens get angle 0.  A neighbour with a NaN
    coordinate gives that angle (the [atan2] of a NaN is NaN): the three
    hydrogens that [updateHydrogensAfterBondRemoval] then adds to the carbon
    all stand at angle 0. *)
Lemma placement_repeats_angle :
  (forall uuidv4 Math_cos Math_sin,
      option_map (fun r => map angle (snd (fst r)))
                 (placeLoop uuidv4 Math_cos Math_sin 13 2 carbonC [] [nan] [] [] 0)
      = Some [0%float; 0%float])
  /\ ~ NoDup [0%float; 0%float]
  /\ (forall uuidv4 Math_cos Math_sin Math_atan2 Math_pow,
         Math_atan2 0%float nan = nan ->
         option_map (fun r => map position (skipn 2 (atoms (fst r))))
                    (updateHydrogensAfterBondRemoval
                       specBestValence uuidv4 Math_cos Math_sin Math_atan2 Math_pow
                       13 "c" carbonStray 0)
         = Some [hydrogenPosition Math_cos Math_sin carbonC 0;
                 hydrogenPosition Math_cos Math_sin carbonC 0;
                 hydrogenPosition Math_cos Math_sin carbonC 0]).
Proof.
  split; [|split].
  - intros uuidv4 Math_cos Math_sin. vm_compute. reflexivity.
  - intros H. inversion H as [|? ? Hnotin _]. apply Hnotin. left. reflexivity.
  - intros uuidv4 Math_cos Math_sin Math_atan2 Math_pow Hnan.
    unfold updateHydrogensAfterBondRemoval. cbn -[placeLoop].
    change (angleFrom Math_atan2 carbonC strayOxygen) with (Math_atan2 0%float nan).
    rewrite Hnan. vm_compute. reflexivity.
Qed.

(** The sample id supply keeps the contract of the supply. *)
Lemma marks_injective (i : nat) : forall j, marks i = marks j -> i = j.
Proof.
  induction i as [|i IH]; intros [|j] H; try discriminate; [reflexivity|].
  injection H as H. f_equal. apply IH. exact H.
Qed.

Lemma counterUuid_injective (i j : nat) : counterUuid i = counterUuid j -> i = j.
Proof. unfold counterUuid. intros H. injection H as H. apply marks_injective. exact H. Qed.

Lemma counterUuid_nonempty (k : nat) : counterUuid k <> "".
Proof. discriminate. Qed.

Lemma counterUuid_fresh_twoCarbons : freshFrom counterUuid 0 twoCarbons.
Proof.
  intros k _. split.
  - cbn. intros [H|[H|[]]]; discriminate H.
  - intros b [<-|[]]. reflexivity.
Qed.

(** C4, instance: two carbons joined by a single bond; after one run each
    carbon has three hydrogens, and after a second run as well. *)
Lemma bondTypeChange_twice_same_hydrogen_counts_witness :
  (forall i j, counterUuid i = counterUuid j -> i = j)
  /\ (forall k, counterUuid k <> "")
  /\ freshFrom counterUuid 0 twoCarbons
  /\ forall Math_cos Math_sin,
      let once :=
        updateHydrogensAfterBondTypeChange specBestValence counterUuid Math_cos Math_sin
                                           "c1" "c2" twoCarbons 0 in
      let twice :=
        updateHydrogensAfterBondTypeChange specBestValence counterUuid Math_cos Math_sin
                                           "c1" "c2" (fst once) (snd once) in
      isHeavyId (fst once) "c1" = true
      /\ hydrogenCount "c1" (fst once) = 3%nat
      /\ hydrogenCount "c1" (fst twice) = hydrogenCount "c1" (fst once).
Proof.
  split; [exact counterUuid_injective|].
  split; [exact counterUuid_nonempty|].
  split; [exact counterUuid_fresh_twoCarbons|].
  intros Math_cos Math_sin once twice.
  assert (Hh : isHeavyId (fst once) "c1" = true) by (vm_compute; reflexivity).
  split; [exact Hh|]. split; [vm_compute; reflexivity|].
  exact (proj2 (bondTypeChange_twice_same_hydrogen_counts
                  specBestValence counterUuid Math_cos Math_sin
                  counterUuid_injective counterUuid_nonempty
                  "c1" "c2" twoCarbons 0 counterUuid_fresh_twoCarbons) "c1" Hh).
Defined.

(** C10, instance: the two carbons and their bond stay as they are. *)
Lemma bondTypeChange_frame_witness :
  (forall i j, counterUuid i = counterUuid j -> i = j)
  /\ freshFrom counterUuid 0 twoCarbons
  /\ NoDup (map id (atoms twoCarbons))
  /\ forall Math_cos Math_sin,
      let result :=
        fst (updateHydrogensAfterBondTypeChange specBestValence counterUuid
                                                Math_cos Math_sin
                                                "c1" "c2" twoCarbons 0) in
      filter (fun a => negb (element a =? "H")%string) (atoms result)
      = [carbon1; carbon2]
      /\ filter (heavyBond twoCarbons) (bonds result) = bonds twoCarbons.
Proof.
  assert (Hnd : NoDup (map id (atoms twoCarbons))).
  { cbn. constructor; [intros [H|[]]; discriminate H|].
    constructor; [intros []|constructor]. }
  split; [exact counterUuid_injective|].
  split; [exact counterUuid_fresh_twoCarbons|].
  split; [exact Hnd|].
  intros Math_cos Math_sin result.
  destruct (bondTypeChange_frame specBestValence counterUuid Math_cos Math_sin
                                 counterUuid_injective
                                 "c1" "c2" twoCarbons 0
                                 counterUuid_fresh_twoCarbons Hnd)
    as (Ha & Hb & _).
  split; [exact Ha|exact Hb].
Defined.

(** What unique ids are for in C3: when two atoms share the id "h" and the
    carbon is one above its target, one hydrogen is to go, and both atoms
    go. *)
Lemma updateHydrogensAfterBonding_removes_twins :
  findAtom "c" (atoms twinHydrogens) = Some carbonC
  /\ specBestValence (element carbonC) (getAtomBondCount "c" (bonds twinHydrogens))
     = Some 4
  /\ Z.min (Z.max 0 (getAtomBondCount "c" (bonds twinHydrogens) - 4))
           (Z.of_nat (List.length (getConnectedHydrogens "c" twinHydrogens)))
     = 1
  /\ List.length (atoms twinHydrogens) = 5%nat
  /\ List.length (atoms (updateHydrogensAfterBonding specBestValence "c" twinHydrogens))
     = 3%nat.
Proof.
  split; [reflexivity|]. split; [reflexivity|]. split; [reflexivity|].
  split; vm_compute; reflexivity.
Qed.

(** What unique ids are for in C10: an oxygen that shares its id with a
    hydrogen of the carbon is removed with it. *)
Lemma bondTypeChange_removes_shadowed_atom :
  In oxygenX (atoms shadowedOxygen)
  /\ element oxygenX <> "H"
  /\ freshFrom counterUuid 0 shadowedOxygen
  /\ forall Math_cos Math_sin,
      ~ In oxygenX
           (atoms (fst (updateHydrogensAfterBondTypeChange
                          specBestValence counterUuid Math_cos Math_sin
                          "c" "c" shadowedOxygen 0))).
Proof.
  split; [cbn; auto|]. split; [discriminate|]. split.
  - intros k _. split.
    + cbn. intros [H|[H|[H|[]]]]; discriminate H.
    + intros b [<-|[]]. reflexivity.
  - intros Math_cos Math_sin. vm_compute.
    intros [H|[H|[H|[H|[H|[]]]]]]; discriminate H.
Qed.

(** ** Instances of the further properties *)

(** X1, instance: the two bonds of the crowded carbon in either order. *)
Lemma getAtomBondCount_any_order_witness :
  Permutation [tripleCO; doubleCO] [doubleCO; tripleCO]
  /\ getAtomBondCount "c" [tripleCO; doubleCO] = getAtomBondCount "c" [doubleCO; tripleCO].
Proof.
  assert (HP : Permutation [tripleCO; doubleCO] [doubleCO; tripleCO]) by apply perm_swap.
  split; [exact HP|]. exact (getAtomBondCount_any_order "c" _ _ HP).
Defined.

Lemma crowdedCarbonH_unique : NoDup (map id (atoms crowdedCarbonH)).
Proof. cbn. repeat constructor; cbn; intuition discriminate. Qed.

Lemma crowdedCarbonH_WellFormed : WellFormed crowdedCarbonH.
Proof.
  split; [exact crowdedCarbonH_unique|].
  intros b [<-|[<-|[<-|[]]]]; cbn; auto 6.
Qed.

Lemma twoCarbons_WellFormed : WellFormed twoCarbons.
Proof.
  split.
  - cbn. repeat constructor; cbn; intuition discriminate.
  - intros b [<-|[]]; cbn; auto.
Qed.

(** X3, instance: the one hydrogen of the crowded carbon. *)
Lemma getConnectedHydrogens_unique_ids_witness :
  NoDup (map id (atoms crowdedCarbonH))
  /\ NoDup (map id (getConnectedHydrogens "c" crowdedCarbonH)).
Proof.
  split; [exact crowdedCarbonH_unique|].
  exact (proj1 (proj2 (getConnectedHydrogens_unique_ids "c" crowdedCarbonH
                         crowdedCarbonH_unique))).
Defined.

(** X4, instance: a parallel bond to the hydrogen changes nothing. *)
Lemma getConnectedHydrogens_bonds_as_set_witness :
  (forall b, In b [singleCH] <-> In b [singleCH; singleCH])
  /\ getConnectedHydrogens "c" {| atoms := atoms crowdedCarbonH; bonds := [singleCH] |}
     = getConnectedHydrogens "c" {| atoms := atoms crowdedCarbonH;
                                    bonds := [singleCH; singleCH] |}.
Proof.
  assert (Hsame : forall b, In b [singleCH] <-> In b [singleCH; singleCH]).
  { intros b. cbn. split; [intros [H|[]]; left; exact H|intros [H|[H|[]]]; left; exact H]. }
  split; [exact Hsame|].
  exact (getConnectedHydrogens_bonds_as_set "c" (atoms crowdedCarbonH) _ _ Hsame).
Defined.

(** X5, instance: a lone carbon is below its target valence. *)
Lemma updateHydrogensAfterBonding_unchanged_iff_witness :
  findAtom "c" (atoms loneCarbon) = Some carbonC
  /\ specBestValence (element carbonC) (getAtomBondCount "c" (bonds loneCarbon)) = Some 4
  /\ 4 <> 0
  /\ updateHydrogensAfterBonding specBestValence "c" loneCarbon = loneCarbon.
Proof.
  assert (Hf : findAtom "c" (atoms loneCarbon) = Some carbonC) by reflexivity.
  assert (Hb : specBestValence (element carbonC)
                               (getAtomBondCount "c" (bonds loneCarbon)) = Some 4)
    by reflexivity.
  assert (Ht : 4 <> 0) by lia.
  split; [exact Hf|]. split; [exact Hb|]. split; [exact Ht|].
  apply (updateHydrogensAfterBonding_unchanged_iff specBestValence "c" loneCarbon
           carbonC 4 Hf Hb Ht).
  right. reflexivity.
Defined.

(** X8, instance: the crowded carbon after a bond to "o1" was formed. *)
Lemma updateMoleculeAfterBonding_WellFormed_witness :
  WellFormed crowdedCarbonH
  /\ WellFormed (updateMoleculeAfterBonding specBestValence "c" "o1" crowdedCarbonH).
Proof.
  split; [exact crowdedCarbonH_WellFormed|].
  exact (updateMoleculeAfterBonding_WellFormed specBestValence "c" "o1" crowdedCarbonH
           crowdedCarbonH_WellFormed).
Defined.

(** X9, instance: a lone carbon gets four hydrogens under the first, third,
    fifth and seventh id of the supply. *)
Lemma updateHydrogensAfterBondRemoval_adds_witness :
  (13 <= 13)%nat
  /\ findAtom "c" (atoms loneCarbon) = Some carbonC
  /\ element carbonC <> "H"
  /\ forall Math_cos Math_sin Math_atan2 Math_pow,
      exists added result,
        updateHydrogensAfterBondRemoval specBestValence counterUuid Math_cos Math_sin
                                        Math_atan2 Math_pow 13 "c" loneCarbon 0
        = Some (result, 8%nat)
        /\ atoms result = carbonC :: added
        /\ map id added = [counterUuid 0; counterUuid 2; counterUuid 4; counterUuid 6].
Proof.
  assert (Hf : findAtom "c" (atoms loneCarbon) = Some carbonC) by reflexivity.
  assert (Hel : element carbonC <> "H") by discriminate.
  split; [apply le_n|]. split; [exact Hf|]. split; [exact Hel|].
  intros Math_cos Math_sin Math_atan2 Math_pow.
  destruct (updateHydrogensAfterBondRemoval_adds
              specBestValence counterUuid Math_cos Math_sin Math_atan2 Math_pow
              13 "c" loneCarbon 0 carbonC (le_n 13) Hf Hel)
    as (added & Hrun & Hids & _).
  exists added. eexists. split; [exact Hrun|]. split; [reflexivity|exact Hids].
Defined.

(** X10, instance: the first of the two carbons, which has one bond and no
    hydrogen, ends with three hydrogens. *)
Lemma updateHydrogensAfterBondRemoval_hydrogen_count_witness :
  (13 <= 13)%nat
  /\ findAtom "c1" (atoms twoCarbons) = Some carbon1
  /\ element carbon1 <> "H"
  /\ freshFrom counterUuid 0 twoCarbons
  /\ (forall n, counterUuid n <> "")
  /\ forall Math_cos Math_sin Math_atan2 Math_pow,
      exists result g',
        updateHydrogensAfterBondRemoval specBestValence counterUuid Math_cos Math_sin
                                        Math_atan2 Math_pow 13 "c1" twoCarbons 0
        = Some (result, g')
        /\ Z.of_nat (List.length (getConnectedHydrogens "c1" result)) = 3
        /\ getAtomBondCount "c1" (bonds result) = 4.
Proof.
  assert (Hf : findAtom "c1" (atoms twoCarbons) = Some carbon1) by reflexivity.
  assert (Hel : element carbon1 <> "H") by discriminate.
  split; [apply le_n|]. split; [exact Hf|]. split; [exact Hel|].
  split; [exact counterUuid_fresh_twoCarbons|]. split; [exact counterUuid_nonempty|].
  intros Math_cos Math_sin Math_atan2 Math_pow.
  destruct (updateHydrogensAfterBondRemoval_hydrogen_count
              specBestValence counterUuid Math_cos Math_sin Math_atan2 Math_pow
              13 "c1" twoCarbons 0 carbon1 (le_n 13) Hf Hel
              counterUuid_fresh_twoCarbons counterUuid_nonempty)
    as (result & g' & Hrun & _ & Hcount & Hsum).
  exists result, g'. split; [exact Hrun|]. split; [exact Hcount|exact Hsum].
Defined.

(** X11, instance: the two carbons after a bond removal at the first. *)
Lemma updateHydrogensAfterBondRemoval_WellFormed_witness :
  (13 <= 13)%nat
  /\ (forall i j, counterUuid i = counterUuid j -> i = j)
  /\ freshFrom counterUuid 0 twoCarbons
  /\ WellFormed twoCarbons
  /\ forall Math_cos Math_sin Math_atan2 Math_pow,
      exists result g',
        updateHydrogensAfterBondRemoval specBestValence counterUuid Math_cos Math_sin
                                        Math_atan2 Math_pow 13 "c1" twoCarbons 0
        = Some (result, g')
        /\ WellFormed result.
Proof.
  split; [apply le_n|]. split; [exact counterUuid_injective|].
  split; [exact counterUuid_fresh_twoCarbons|]. split; [exact twoCarbons_WellFormed|].
  intros Math_cos Math_sin Math_atan2 Math_pow.
  destruct (updateHydrogensAfterBondRemoval_WellFormed
              specBestValence counterUuid Math_cos Math_sin Math_atan2 Math_pow
              13 "c1" twoCarbons 0 (le_n 13) counterUuid_injective
              counterUuid_fresh_twoCarbons twoCarbons_WellFormed)
    as (result & g' & Hrun & Hwf & _).
  exists result, g'. split; [exact Hrun|exact Hwf].
Defined.

(** X12, instance: the two carbons after their bond changed type. *)
Lemma bondTypeChange_WellFormed_witness :
  (forall i j, counterUuid i = counterUuid j -> i = j)
  /\ freshFrom counterUuid 0 twoCarbons
  /\ WellFormed twoCarbons
  /\ forall Math_cos Math_sin,
      WellFormed (fst (updateHydrogensAfterBondTypeChange
                         specBestValence counterUuid Math_cos Math_sin
                         "c1" "c2" twoCarbons 0)).
Proof.
  split; [exact counterUuid_injective|].
  split; [exact counterUuid_fresh_twoCarbons|]. split; [exact twoCarbons_WellFormed|].
  intros Math_cos Math_sin.
  exact (proj1 (bondTypeChange_WellFormed
                  specBestValence counterUuid Math_cos Math_sin counterUuid_injective
                  "c1" "c2" twoCarbons 0
                  counterUuid_fresh_twoCarbons twoCarbons_WellFormed)).
Defined.

(** X13, instance: after the bond between the two carbons changed type, the
    first carbon has bond-order sum 4: one for the bond and three hydrogens. *)
Lemma bondTypeChange_satisfies_valence_witness :
  (forall i j, counterUuid i = counterUuid j -> i = j)
  /\ (forall k, counterUuid k <> "")
  /\ freshFrom counterUuid 0 twoCarbons
  /\ forall Math_cos Math_sin,
      let result :=
        fst (updateHydrogensAfterBondTypeChange specBestValence counterUuid
                                                Math_cos Math_sin
                                                "c1" "c2" twoCarbons 0) in
      findAtom "c1" (atoms result) = Some carbon1
      /\ Z.of_nat (List.length (getConnectedHydrogens "c1" result)) = 3
      /\ getAtomBondCount "c1" (bonds result) = 4.
Proof.
  split; [exact counterUuid_injective|]. split; [exact counterUuid_nonempty|].
  split; [exact counterUuid_fresh_twoCarbons|].
  intros Math_cos Math_sin result.
  assert (Hf : findAtom "c1" (atoms result) = Some carbon1) by (vm_compute; reflexivity).
  assert (Hel : element carbon1 <> "H") by discriminate.
  split; [exact Hf|].
  destruct (bondTypeChange_satisfies_valence
              specBestValence counterUuid Math_cos Math_sin
              counterUuid_injective counterUuid_nonempty
              "c1" "c2" twoCarbons 0 counterUuid_fresh_twoCarbons
              "c1" carbon1 (or_introl eq_refl) Hf Hel)
    as (Hcount & Hsum & _).
  split.
  - etransitivity; [exact Hcount|vm_compute; reflexivity].
  - etransitivity; [exact Hsum|vm_compute; reflexivity].
Defined.

(** X14, instance: the id of a hydrogen and an id that no atom carries. *)
Lemma hydrogen_or_unknown_id_unchanged_witness :
  (forall a, findAtom "h" (atoms crowdedCarbonH) = Some a -> element a = "H")
  /\ (forall a, findAtom "zz" (atoms crowdedCarbonH) = Some a -> element a = "H")
  /\ forall Math_cos Math_sin,
      updateHydrogensAfterBondTypeChange specBestValence counterUuid Math_cos Math_sin
                                         "h" "zz" crowdedCarbonH 0
      = (crowdedCarbonH, 0%nat).
Proof.
  assert (Hs : forall a, findAtom "h" (atoms crowdedCarbonH) = Some a -> element a = "H").
  { intros a Ha. cbn in Ha. injection Ha as <-. reflexivity. }
  assert (Ht : forall a, findAtom "zz" (atoms crowdedCarbonH) = Some a -> element a = "H").
  { intros a Ha. cbn in Ha. discriminate Ha. }
  split; [exact Hs|]. split; [exact Ht|].
  intros Math_cos Math_sin.
  exact (proj1 (hydrogen_or_unknown_id_unchanged
                  specBestValence counterUuid Math_cos Math_sin
                  (fun _ _ => 0%float) (fun _ _ => 0%float)
                  0 "h" "zz" crowdedCarbonH 0 Hs Ht)).
Defined.

(** X15, instance: the four hydrogens of a lone carbon. *)
Lemma bondRemoval_lone_atom_positions_witness :
  (13 <= 13)%nat
  /\ findAtom "c" (atoms loneCarbon) = Some carbonC
  /\ element carbonC <> "H"
  /\ (forall b, In b (bonds loneCarbon) -> sourceAtomId b <> "c" /\ targetAtomId b <> "c")
  /\ getRequiredHydrogens specBestValence carbonC (bonds loneCarbon) <= 12
  /\ forall Math_cos Math_sin Math_atan2 Math_pow,
      exists added newBonds g',
        updateHydrogensAfterBondRemoval specBestValence counterUuid Math_cos Math_sin
                                        Math_atan2 Math_pow 13 "c" loneCarbon 0
        = Some ({| atoms := atoms loneCarbon ++ added;
                   bonds := bonds loneCarbon ++ newBonds |}, g')
        /\ map position added
           = map (fun i => hydrogenPosition Math_cos Math_sin carbonC (candidate i))
                 [0; 6; 9; 3]%nat.
Proof.
  assert (Hf : findAtom "c" (atoms loneCarbon) = Some carbonC) by reflexivity.
  assert (Hel : element carbonC <> "H") by discriminate.
  assert (Hno : forall b, In b (bonds loneCarbon) ->
                          sourceAtomId b <> "c" /\ targetAtomId b <> "c")
    by (intros b []).
  assert (Hn : getRequiredHydrogens specBestValence carbonC (bonds loneCarbon) <= 12)
    by (vm_compute; discriminate).
  split; [apply le_n|]. split; [exact Hf|]. split; [exact Hel|].
  split; [exact Hno|]. split; [exact Hn|].
  intros Math_cos Math_sin Math_atan2 Math_pow.
  exact (bondRemoval_lone_atom_positions
           specBestValence counterUuid Math_cos Math_sin Math_atan2 Math_pow
           13 "c" loneCarbon 0 carbonC (le_n 13) Hf Hel Hno Hn).
Defined.

Lemma specBestValence_carbon (s : Z) : specBestValence "C" s = Some 4.
Proof.
  unfold specBestValence, specValences. cbn [String.eqb Ascii.eqb Bool.eqb find rev app].
  destruct (s <=? 4); reflexivity.
Qed.

(** X16, instance: a lone carbon, with the lookup of the specification. *)
Lemma addHydrogensToAtom_twice_witness :
  (forall s t t', specBestValence (element carbonC) s = Some t ->
                  specBestValence (element carbonC) (Z.max s t) = Some t' ->
                  t' <= Z.max s t)
  /\ forall Math_cos Math_sin,
      let once := addHydrogensToAtom specBestValence counterUuid Math_cos Math_sin
                                     carbonC loneCarbon 0 in
      addHydrogensToAtom specBestValence counterUuid Math_cos Math_sin
                         carbonC (fst once) (snd once) = once.
Proof.
  assert (Hstable : forall s t t', specBestValence (element carbonC) s = Some t ->
                                   specBestValence (element carbonC) (Z.max s t) = Some t' ->
                                   t' <= Z.max s t).
  { intros s t t'. cbn [element carbonC]. rewrite !specBestValence_carbon.
    intros [= <-] [= <-]. lia. }
  split; [exact Hstable|]. intros Math_cos Math_sin.
  exact (addHydrogensToAtom_twice specBestValence counterUuid Math_cos Math_sin
                                  carbonC loneCarbon 0 Hstable).
Defined.

(** X17, instance: three hydrogens added to the first of the two carbons. *)
Lemma addSpecificHydrogens_connected_witness :
  freshFrom counterUuid 0 twoCarbons
  /\ (forall n, counterUuid n <> "")
  /\ forall Math_cos Math_sin,
      let result := fst (addSpecificHydrogens counterUuid Math_cos Math_sin
                                              carbon1 twoCarbons 3 0) in
      getConnectedHydrogens (id carbon1) result
      = getConnectedHydrogens (id carbon1) twoCarbons
        ++ skipn (List.length (atoms twoCarbons)) (atoms result).
Proof.
  split; [exact counterUuid_fresh_twoCarbons|]. split; [exact counterUuid_nonempty|].
  intros Math_cos Math_sin.
  exact (addSpecificHydrogens_connected counterUuid Math_cos Math_sin carbon1 twoCarbons
                                        3 0 counterUuid_fresh_twoCarbons
                                        counterUuid_nonempty).
Defined.

(** X18, instance: hydrogens for the first of the two carbons. *)
Lemma addHydrogensToAtom_WellFormed_witness :
  (forall i j, counterUuid i = counterUuid j -> i = j)
  /\ In carbon1 (atoms twoCarbons)
  /\ freshFrom counterUuid 0 twoCarbons
  /\ WellFormed twoCarbons
  /\ forall Math_cos Math_sin,
      WellFormed (fst (addHydrogensToAtom specBestValence counterUuid Math_cos Math_sin
                                          carbon1 twoCarbons 0)).
Proof.
  assert (Hin : In carbon1 (atoms twoCarbons)) by (left; reflexivity).
  split; [exact counterUuid_injective|]. split; [exact Hin|].
  split; [exact counterUuid_fresh_twoCarbons|]. split; [exact twoCarbons_WellFormed|].
  intros Math_cos Math_sin.
  exact (proj1 (addHydrogensToAtom_WellFormed
                  specBestValence counterUuid Math_cos Math_sin carbon1 twoCarbons 0
                  counterUuid_injective Hin counterUuid_fresh_twoCarbons
                  twoCarbons_WellFormed)).
Defined.

(** X21, instance: a lookup one second after the entry was stored. *)
Lemma getCached_never_stale_witness :
  fst (getCached "CCO" 2000 ethanolCache) = Some (OneName "ethanol")
  /\ snd (getCached "CCO" 2000 ethanolCache) = ethanolCache.
Proof.
  assert (H : fst (getCached "CCO" 2000 ethanolCache) = Some (OneName "ethanol"))
    by reflexivity.
  split; [exact H|].
  destruct (getCached_never_stale "CCO" 2000 ethanolCache (OneName "ethanol") H)
    as (entry & _ & _ & _ & Hsame).
  exact Hsame.
Defined.

(** X22, instance: a lookup more than a day after the entry was stored. *)
Lemma getCached_drops_expired_witness :
  Map_get "CCO" ethanolCache
  = Some {| name := OneName "ethanol"; timestamp := 1000; requestTime := 120 |}
  /\ CACHE_DURATION < 90000000 - 1000
  /\ fst (getCached "CCO" 90000000 ethanolCache) = None
  /\ (List.length (snd (getCached "CCO" 90000000 ethanolCache))
      < List.length ethanolCache)%nat.
Proof.
  assert (Hget : Map_get "CCO" ethanolCache
                 = Some {| name := OneName "ethanol"; timestamp := 1000;
                           requestTime := 120 |}) by reflexivity.
  assert (Hold : CACHE_DURATION < 90000000 - 1000) by reflexivity.
  split; [exact Hget|]. split; [exact Hold|].
  destruct (getCached_drops_expired "CCO" 90000000 ethanolCache _ Hget Hold)
    as (Hnone & _ & Hlen & _).
  split; [exact Hnone|exact Hlen].
Defined.

(** X23, instance: a second key stored in the cache of one entry. *)
Lemma setCached_below_capacity_witness :
  Z.of_nat (List.length ethanolCache) < MAX_CACHE_SIZE
  /\ map fst (setCached "C" (OneName "methane") 80 3000 ethanolCache) = ["CCO"; "C"].
Proof.
  assert (Hlt : Z.of_nat (List.length ethanolCache) < MAX_CACHE_SIZE) by reflexivity.
  split; [exact Hlt|].
  exact (proj2 (setCached_below_capacity "C" (OneName "methane") 80 3000 ethanolCache
                                         Hlt)).
Defined.

(** X24, instance: a store into the cache of 1000 entries. *)
Lemma setCached_evicts_oldest_witness :
  MAX_CACHE_SIZE <= Z.of_nat (List.length fullCache)
  /\ (List.length (setCached "CCO" (OneName "ethanol") 120 5000 fullCache)
      <= List.length fullCache)%nat.
Proof.
  assert (Hfull : MAX_CACHE_SIZE <= Z.of_nat (List.length fullCache)).
  { unfold fullCache. rewrite length_map, length_seq. discriminate. }
  split; [exact Hfull|].
  destruct (setCached_evicts_oldest "CCO" (OneName "ethanol") 120 5000 fullCache Hfull)
    as (before & oldestKey & oldest & after & _ & _ & _ & _ & Hlen).
  exact Hlen.
Defined.

(** X26, instance: a SMILES string with white space around it. *)
Lemma makeRequest_body_one_fragment_witness :
  ~ In "."%char (list_ascii_of_string " CCO ")
  /\ makeRequest_body " CCO " = OneSmiles "CCO".
Proof.
  assert (Hno : ~ In "."%char (list_ascii_of_string " CCO ")).
  { cbn. intuition discriminate. }
  split; [exact Hno|]. exact (makeRequest_body_one_fragment " CCO " Hno).
Defined.

(** ** Instances for the bond feasibility check and for unknown ids *)

(** C7, instance: with carbon's rule for [canAcceptMoreBonds] (the sum and
    the proposed order together do not exceed 4), the two carbons joined by
    a single bond accept another bond of order 1 and of order 3, and none of
    order 4; an id that no atom carries makes the answer false. *)
Lemma canBondAtoms_spec_witness :
  canBondAtoms (fun _ current order => current + order <=? 4) "c1" "c2" twoCarbons None
  = true
  /\ canBondAtoms (fun _ current order => current + order <=? 4) "c1" "c2" twoCarbons
                  (Some 3) = true
  /\ canBondAtoms (fun _ current order => current + order <=? 4) "c1" "c2" twoCarbons
                  (Some 4) = false
  /\ canBondAtoms (fun _ current order => current + order <=? 4) "c1" "zz" twoCarbons None
     = false.
Proof.
  assert (H1 : firstWithId "c1" (atoms twoCarbons) carbon1).
  { exists [], [carbon2]. split; [reflexivity|]. split; [reflexivity|intros b []]. }
  assert (H2 : firstWithId "c2" (atoms twoCarbons) carbon2).
  { exists [carbon1], []. split; [reflexivity|]. split; [reflexivity|].
    intros b [<-|[]]. discriminate. }
  split; [|split; [|split]].
  - apply (canBondAtoms_spec (fun _ current order => current + order <=? 4)
                             "c1" "c2" twoCarbons None).
    exists carbon1, carbon2. split; [exact H1|]. split; [exact H2|].
    split; reflexivity.
  - apply (canBondAtoms_spec (fun _ current order => current + order <=? 4)
                             "c1" "c2" twoCarbons (Some 3)).
    exists carbon1, carbon2. split; [exact H1|]. split; [exact H2|].
    split; reflexivity.
  - destruct (canBondAtoms (fun _ current order => current + order <=? 4)
                           "c1" "c2" twoCarbons (Some 4)) eqn:E; [exfalso|reflexivity].
    apply (canBondAtoms_spec (fun _ current order => current + order <=? 4)
                             "c1" "c2" twoCarbons (Some 4)) in E.
    destruct E as (sa & ta & _ & _ & Hs & _). vm_compute in Hs. discriminate Hs.
  - apply (canBondAtoms_spec (fun _ current order => current + order <=? 4)
                             "c1" "zz" twoCarbons None).
    right. intros a [<-|[<-|[]]]; discriminate.
Defined.

(** C9, counterexample: the lone carbon has no atom under the id "zz", yet
    [updateHydrogensAfterBondTypeChange] called with "zz" and "c" gives the
    carbon its four hydrogens: the molecule goes from one atom to five. *)
Lemma bondTypeChange_unknown_and_known_id :
  (forall a, In a (atoms loneCarbon) -> id a <> "zz")
  /\ forall Math_cos Math_sin,
      List.length
        (atoms (fst (updateHydrogensAfterBondTypeChange
                       specBestValence counterUuid Math_cos Math_sin
                       "zz" "c" loneCarbon 0))) = 5%nat
      /\ List.length
           (atoms (fst (updateHydrogensAfterBondTypeChange
                          specBestValence counterUuid Math_cos Math_sin
                          "c" "zz" loneCarbon 0))) = 5%nat
      /\ fst (updateHydrogensAfterBondTypeChange
                specBestValence counterUuid Math_cos Math_sin "zz" "c" loneCarbon 0)
         <> loneCarbon.
Proof.
  split.
  - intros a [<-|[]]. discriminate.
  - intros Math_cos Math_sin. split; [vm_compute; reflexivity|].
    split; [vm_compute; reflexivity|].
    intros E. apply (f_equal (fun m => List.length (atoms m))) in E.
    vm_compute in E. discriminate E.
Qed.

(** C5, instance: the first of the two carbons, whose one neighbour stands
    at the same place (so that [Math.atan2(0, 0)], which is 0, is the one
    angle recorded), gets three hydrogens at three different angles. *)
Lemma bondRemoval_new_angles_distinct_witness :
  (13 <= 13)%nat
  /\ findAtom "c1" (atoms twoCarbons) = Some carbon1
  /\ element carbon1 <> "H"
  /\ (6 <= 12)%nat
  /\ recordedAngles (fun _ _ => 0%float) carbon1 "c1" twoCarbons = [0%float]
  /\ Forall (fun a => regularAngle 6 a = true)
            (recordedAngles (fun _ _ => 0%float) carbon1 "c1" twoCarbons)
  /\ forall Math_cos Math_sin Math_pow,
      exists added newBonds g' angles,
        updateHydrogensAfterBondRemoval specBestValence counterUuid Math_cos Math_sin
                                        (fun _ _ => 0%float) Math_pow
                                        13 "c1" twoCarbons 0
        = Some ({| atoms := atoms twoCarbons ++ added;
                   bonds := bonds twoCarbons ++ newBonds |}, g')
        /\ List.length angles = 3%nat
        /\ map position added = map (hydrogenPosition Math_cos Math_sin carbon1) angles
        /\ NoDup angles
        /\ pairwiseApart angles = true.
Proof.
  assert (Hf : findAtom "c1" (atoms twoCarbons) = Some carbon1) by reflexivity.
  assert (Hel : element carbon1 <> "H") by discriminate.
  assert (Hn : (6 <= 12)%nat) by lia.
  assert (Hrec : recordedAngles (fun _ _ => 0%float) carbon1 "c1" twoCarbons = [0%float])
    by reflexivity.
  assert (Hreg : Forall (fun a => regularAngle 6 a = true)
                        (recordedAngles (fun _ _ => 0%float) carbon1 "c1" twoCarbons)).
  { rewrite Hrec. constructor; [vm_compute; reflexivity|constructor]. }
  split; [apply le_n|]. split; [exact Hf|]. split; [exact Hel|]. split; [exact Hn|].
  split; [exact Hrec|]. split; [exact Hreg|].
  intros Math_cos Math_sin Math_pow.
  destruct (bondRemoval_new_angles_distinct
              specBestValence counterUuid Math_cos Math_sin (fun _ _ => 0%float) Math_pow
              13 6 "c1" twoCarbons 0 carbon1 (le_n 13) Hf Hel Hn Hreg)
    as (added & newBonds & g' & angles & Hrun & Hlen & Hpos & Hnd & Hap & _).
  { rewrite Hrec. vm_compute. lia. }
  exists added, newBonds, g', angles.
  split; [exact Hrun|]. split; [exact Hlen|]. split; [exact Hpos|].
  split; [exact Hnd|exact Hap].
Defined.

(** C9, instance: no atom of the lone carbon molecule has the id "zz";
    the calls for "zz" alone return the molecule, and with the id "c" in the
    other position the reconciler does what its iteration for "c" does. *)
Lemma unknown_atom_id_skipped_witness :
  (forall a, In a (atoms loneCarbon) -> id a <> "zz")
  /\ forall Math_cos Math_sin Math_atan2 Math_pow,
      updateHydrogensAfterBonding specBestValence "zz" loneCarbon = loneCarbon
      /\ updateHydrogensAfterBondRemoval specBestValence counterUuid Math_cos Math_sin
                                         Math_atan2 Math_pow 13 "zz" loneCarbon 0
         = Some (loneCarbon, 0%nat)
      /\ updateHydrogensAfterBondTypeChange specBestValence counterUuid Math_cos Math_sin
                                            "zz" "zz" loneCarbon 0
         = (loneCarbon, 0%nat)
      /\ updateHydrogensAfterBondTypeChange specBestValence counterUuid Math_cos Math_sin
                                            "c" "zz" loneCarbon 0
         = reconcileAtom specBestValence counterUuid Math_cos Math_sin
                         (loneCarbon, 0%nat) "c".
Proof.
  assert (Habs : forall a, In a (atoms loneCarbon) -> id a <> "zz").
  { intros a [<-|[]]. discriminate. }
  split; [exact Habs|].
  intros Math_cos Math_sin Math_atan2 Math_pow.
  destruct (unknown_atom_id_skipped specBestValence counterUuid Math_cos Math_sin
                                    Math_atan2 Math_pow loneCarbon "zz" 0 13 Habs)
    as (H1 & H2 & H3 & H4).
  split; [exact H1|]. split; [exact H2|].
  split; [exact (proj1 (H4 "zz" Habs))|exact (proj2 (H3 "c"))].
Defined.

(** Angles that are regular for the first six candidates: both ends of the
    range of [Math.atan2] and values in between, the smallest positive
    number among them; NaN and the infinities are not regular, and the angle
    [-PI] is not regular for the seventh candidate. *)
Example regularAngle_samples :
  forallb (regularAngle 6)
          [0; -0; Math.PI; - Math.PI; Math.PI / 2; - (Math.PI / 2); Math.PI / 6;
           1; -1; 3; -3; 0.5; 2.5; 0x1p-1074; -0x1p-1074]%float = true
  /\ regularAngle 1 nan = false
  /\ regularAngle 1 infinity = false
  /\ regularAngle 1 neg_infinity = false
  /\ regularAngle 7 (- Math.PI)%float = false.
Proof. repeat split; vm_compute; reflexivity. Qed.
